(** * The experiment lifecycle controller of the letce2 Docker plugin

    A shallow embedding of [src/letce2/plugins/docker/plugin.py]: the four
    phases [build], [start], [stop] and [clean] are programs of a small
    state-and-exception monad over a model of the outside world (a file
    system, a log of the operations performed, and an environment that
    answers every external operation). The definitions come first: the
    world, the plugin, what is observed of a run, and the worlds of the
    examples. The lemmas on paths, on the loops, on floating point and on
    the calendar follow, then the properties of the phases. *)

From Stdlib Require Import String Ascii List ZArith QArith Qround Qabs Bool Lia.
From Stdlib Require Import DecimalString DecimalNat.
Import ListNotations.
Local Open Scope string_scope.
Local Open Scope Z_scope.

(* ================================================================= *)
(** * Paths and the file system *)

Inductive kind := File | Dir.

(** A state of the file system gives every path string the kind of entry
    found there. Path strings are read as the operating system resolves
    them from the working directory, lexically: there are no symbolic
    links, and a component [..] steps back to the directory before it. *)
Definition fs_state := string -> option kind.

Definition is_some {A} (o : option A) : bool :=
  match o with Some _ => true | None => false end.

Definition is_dir_kind (o : option kind) : bool :=
  match o with Some Dir => true | _ => false end.

Fixpoint starts_with (p s : string) : bool :=
  match p, s with
  | EmptyString, _ => true
  | String a p', String b s' => Ascii.eqb a b && starts_with p' s'
  | String _ _, EmptyString => false
  end.

(** The pieces of a string between its slashes:
    [split_path "a//b" = ["a"; ""; "b"]]. *)
Fixpoint split_path_aux (cur s : string) : list string :=
  match s with
  | EmptyString => [cur]
  | String c s' =>
      if Ascii.eqb c "/" then cur :: split_path_aux "" s'
      else split_path_aux (cur ++ String c "") s'
  end.

Definition split_path (s : string) : list string := split_path_aux "" s.

(** ** Path strings as [pathlib] reads them *)

(** The root of a path: two leading slashes are kept, three or more are
    one. *)
Definition pure_root (p : string) : string :=
  match p with
  | String "/" (String "/" (String "/" _)) => "/"
  | String "/" (String "/" _) => "//"
  | String "/" _ => "/"
  | _ => ""
  end.

(** The components of a path: empty pieces and [.] are dropped, [..] is
    kept. *)
Definition pure_parts (p : string) : list string :=
  filter (fun c => negb (c =? "")%string && negb (c =? ".")%string)
         (split_path p).

(** [str(PurePosixPath)] from a root and components. *)
Definition pure_str (root : string) (parts : list string) : string :=
  match parts with
  | [] => if (root =? "")%string then "." else root
  | _ :: _ => root ++ String.concat "/" parts
  end.

(** [str(Path(p).parent)]. *)
Definition parent (p : string) : string :=
  pure_str (pure_root p) (removelast (pure_parts p)).

(** ** Path strings as the operating system resolves them *)

Definition push (stack : list string) (c : string) : list string :=
  if ((c =? "") || (c =? "."))%string then stack
  else if (c =? "..")%string then removelast stack
  else (stack ++ [c])%list.

(** The components of the absolute path that [p] denotes in the working
    directory [cwd]. *)
Definition resolve (cwd p : string) : list string :=
  fold_left push
    (split_path (if starts_with "/" p then p else cwd ++ "/" ++ p)) [].

Fixpoint is_prefix (a b : list string) : bool :=
  match a, b with
  | [], _ => true
  | x :: a', y :: b' => (x =? y)%string && is_prefix a' b'
  | _ :: _, [] => false
  end.

(** [in_tree cwd root q]: [q] denotes the entry of [root] or one below
    it. *)
Definition in_tree (cwd root q : string) : bool :=
  is_prefix (resolve cwd root) (resolve cwd q).

(** [p] and [q] denote the same entry. *)
Definition same_path (cwd p q : string) : bool :=
  in_tree cwd p q && in_tree cwd q p.

(** What [mkdir(parents=True, exist_ok=True)] leaves at a path it makes. *)
Definition made_dir (o : option kind) : option kind :=
  match o with None => Some Dir | k => k end.

(** Effect of [Path(p).mkdir(parents=True, exist_ok=True)]: [p] and its
    missing ancestors become directories. *)
Definition mkdir_p (cwd p : string) (fs : fs_state) : fs_state :=
  fun q => if in_tree cwd q p then made_dir (fs q) else fs q.

(** Effect of [Path(p).touch()] and of [open(p, 'w')]: the file exists. *)
Definition create_file (cwd p : string) (fs : fs_state) : fs_state :=
  fun q => if same_path cwd q p
           then match fs q with None => Some File | k => k end
           else fs q.

(** Effect of [Path(p).unlink()]. *)
Definition remove_file (cwd p : string) (fs : fs_state) : fs_state :=
  fun q => if same_path cwd q p then None else fs q.

(** Effect of a successful [rm -rf p]. *)
Definition remove_tree (cwd p : string) (fs : fs_state) : fs_state :=
  fun q => if in_tree cwd p q then None else fs q.

(* ================================================================= *)
(** * Operations, their outcomes and the log *)

Inductive stream := Stdout | Stderr.

(** File-system operations the plugin performs itself. *)
Inductive FsOp :=
| Mkdir (p : string)      (* Path(p).mkdir(parents=True, exist_ok=True) *)
| Touch (p : string)      (* Path(p).touch() *)
| Unlink (p : string)     (* Path(p).unlink() *)
| OpenW (p : string).     (* open(p, 'w') *)

(** Outcome of a blocking child process ([subprocess.run], [subprocess.call]). *)
Inductive RunResult :=
| Returned (returncode : Z) (stderr : string)
| SpawnFailed (text : string).           (* the call raised, e.g. OSError *)

(** Outcome of [subprocess.Popen]: the child is started and not waited for;
    [child_status] is the status it will end with, which the plugin never
    reads. *)
Inductive PopenResult :=
| Launched (child_status : Z)
| LaunchFailed (text : string).          (* Popen raised *)

(** Calls into [letce2.engine.build], the Configuration Builder. *)
Inductive LibCall :=
| build_configuration (configs : list string)
    (include_filter exclude_filter include_file exclude_file manifest : string)
    (template_package : string)
| nodes_to_manifest (nodes : list string) (manifest : string)
| clean_configuration (nodes : list string) (manifest : string).

Inductive LibResult :=
| LibReturned (nodes : list string)
| LibRaised (text : string).

Inductive Event :=
| EvPrint (s : stream) (text : string)
| EvFs (op : FsOp) (fault : option string)
| EvRun (argv : list string) (r : RunResult)
| EvPopen (argv : list string) (log : string) (r : PopenResult)
| EvTime (t : Q)
| EvLib (c : LibCall) (r : LibResult).

(** The environment answers every external operation; the answer may depend
    on everything that happened before in this invocation. Any operation
    on a file, any command and any library call may fail. Printing and
    [os.getcwd()] do not fail, and no command but [rm] changes the
    modelled file system. *)
Record Env := {
  getcwd : string;
  clock : list Event -> Q;
  run_result : list Event -> list string -> RunResult;
  popen_result : list Event -> list string -> string -> PopenResult;
  fs_fault : list Event -> FsOp -> option string;
  lib_result : list Event -> LibCall -> LibResult;
  (* str(e) of a CalledProcessError *)
  called_process_error_text : list string -> Z -> string
}.

Record World := { fs : fs_state; trace : list Event }.

(** A phase runs in a fresh process: nothing has happened yet. *)
Definition init (f : fs_state) : World := {| fs := f; trace := [] |}.

Inductive exn :=
| CalledProcessError (cmd : list string) (returncode : Z) (stderr : string)
| OtherError (text : string).             (* any other Exception *)

(** How a computation ends: with a value, with an exception travelling
    upwards, or with [sys.exit(code)]. *)
Inductive Res (A : Type) :=
| Val (a : A)
| Raised (e : exn)
| Exited (code : Z).
Arguments Val {A} a.
Arguments Raised {A} e.
Arguments Exited {A} code.

(** Exit status of the process; an uncaught exception ends it with 1. *)
Definition exit_status {A} (r : Res A) : Z :=
  match r with Val _ => 0 | Raised _ => 1 | Exited c => c end.

Definition M (A : Type) := World -> Res A * World.

Definition ret {A} (a : A) : M A := fun w => (Val a, w).

Definition bind {A B} (m : M A) (k : A -> M B) : M B :=
  fun w => match m w with
           | (Val a, w') => k a w'
           | (Raised e, w') => (Raised e, w')
           | (Exited c, w') => (Exited c, w')
           end.

Declare Scope py_scope.
Delimit Scope py_scope with py.
Notation "x <- m ;; k" := (bind m (fun x => k))
  (at level 61, m at next level, right associativity) : py_scope.
Notation "m ;; k" := (bind m (fun _ => k))
  (at level 61, right associativity) : py_scope.
Local Open Scope py_scope.

Definition sys_exit {A} (code : Z) : M A := fun w => (Exited code, w).

(** [try: body except Exception as e: handler e]; [sys.exit] passes through. *)
Definition try_except {A} (body : M A) (handler : exn -> M A) : M A :=
  fun w => match body w with
           | (Raised e, w') => handler e w'
           | r => r
           end.

Fixpoint for_each {A} (l : list A) (body : A -> M unit) : M unit :=
  match l with
  | [] => ret tt
  | x :: l' => body x ;; for_each l' body
  end.

Definition record (e : Event) (w : World) : World :=
  {| fs := fs w; trace := trace w ++ [e] |}.

Definition print (s : stream) (text : string) : M unit :=
  fun w => (Val tt, record (EvPrint s text) w).

Definition path_exists (p : string) : M bool :=
  fun w => (Val (is_some (fs w p)), w).

Definition path_is_dir (p : string) : M bool :=
  fun w => (Val (is_dir_kind (fs w p)), w).

Definition fs_effect (cwd : string) (op : FsOp) : fs_state -> fs_state :=
  match op with
  | Mkdir p => mkdir_p cwd p
  | Touch p => create_file cwd p
  | Unlink p => remove_file cwd p
  | OpenW p => create_file cwd p
  end.

(** Of the external commands only [sudo rm -rf p] has a modelled effect on
    the file system, and only when it succeeds. *)
Definition command_effect (cwd : string) (argv : list string) (r : RunResult)
  (f : fs_state) : fs_state :=
  match argv, r with
  | ["sudo"; "rm"; "-rf"; p], Returned 0 _ => remove_tree cwd p f
  | _, _ => f
  end.

Section Primitives.
Variable env : Env.

Definition ran (argv : list string) (r : RunResult) (w : World) : World :=
  {| fs := command_effect (getcwd env) argv r (fs w);
     trace := trace w ++ [EvRun argv r] |}.

Definition fs_op (op : FsOp) : M unit :=
  fun w =>
    match fs_fault env (trace w) op with
    | Some text =>
        (Raised (OtherError text), record (EvFs op (Some text)) w)
    | None =>
        (Val tt, {| fs := fs_effect (getcwd env) op (fs w);
                    trace := trace w ++ [EvFs op None] |})
    end.

(** [subprocess.run(argv, check=check)]; the result object is dropped by
    every caller. *)
Definition subprocess_run (argv : list string) (check : bool) : M unit :=
  fun w =>
    match run_result env (trace w) argv with
    | SpawnFailed text =>
        (Raised (OtherError text), ran argv (SpawnFailed text) w)
    | Returned rc err =>
        if (check && negb (rc =? 0))%bool
        then (Raised (CalledProcessError argv rc err),
              ran argv (Returned rc err) w)
        else (Val tt, ran argv (Returned rc err) w)
    end.

(** [subprocess.call(argv)]: the status is returned, never an exception
    for a non-zero one. *)
Definition subprocess_call (argv : list string) : M Z :=
  fun w =>
    match run_result env (trace w) argv with
    | SpawnFailed text =>
        (Raised (OtherError text), ran argv (SpawnFailed text) w)
    | Returned rc err => (Val rc, ran argv (Returned rc err) w)
    end.

(** [subprocess.Popen(argv, stdout=log_file, stderr=subprocess.STDOUT)]. *)
Definition subprocess_Popen (argv : list string) (log : string) : M unit :=
  fun w =>
    match popen_result env (trace w) argv log with
    | LaunchFailed text =>
        (Raised (OtherError text),
         record (EvPopen argv log (LaunchFailed text)) w)
    | Launched status =>
        (Val tt, record (EvPopen argv log (Launched status)) w)
    end.

Definition time_time : M Q :=
  fun w => (Val (clock env (trace w)), record (EvTime (clock env (trace w))) w).

Definition lib_call (c : LibCall) : M (list string) :=
  fun w =>
    match lib_result env (trace w) c with
    | LibRaised text =>
        (Raised (OtherError text), record (EvLib c (LibRaised text)) w)
    | LibReturned nodes =>
        (Val nodes, record (EvLib c (LibReturned nodes)) w)
    end.

(** [str(e)]. *)
Definition str_exn (e : exn) : string :=
  match e with
  | CalledProcessError cmd rc _ => called_process_error_text env cmd rc
  | OtherError text => text
  end.

End Primitives.

(* ================================================================= *)
(** * Floating point: the binary64 numbers of [time.time() + delay] *)

(** [2^e] as a rational. *)
Definition pow2 (e : Z) : Q :=
  if 0 <=? e then inject_Z (2 ^ e) else 1 # Z.to_pos (2 ^ (- e)).

(** Rounding to the nearest integer, ties to the even one. *)
Definition round_half_even (q : Q) : Z :=
  let f := Qfloor q in
  match (q - inject_Z f ?= 1 # 2)%Q with
  | Lt => f
  | Gt => f + 1
  | Eq => if Z.even f then f else f + 1
  end.

(** [floor (log2 q)] for [0 < q]. *)
Definition floor_log2 (q : Q) : Z :=
  if Qle_bool 1 q then Z.log2 (Qfloor q)
  else - Z.log2_up (Qceiling (/ q)).

(** The binary64 number nearest to [q], ties to the even significand, with
    53 significant bits and exponents from -1074; [None] when the result
    is infinite. *)
Definition b64 (q : Q) : option Q :=
  let e := Z.max (floor_log2 (Qabs q) - 52) (-1074) in
  let v := (inject_Z (round_half_even (q * pow2 (- e))) * pow2 e)%Q in
  if Qle_bool (pow2 1024) (Qabs v) then None else Some v.

(** [q] is a binary64 number. *)
Definition is_b64 (q : Q) : bool :=
  match b64 q with
  | Some v => Qeq_bool v q
  | None => false
  end.

(** [now + delay] as Python computes it for the float [now] and the int
    [delay]: the int is converted to a float (OverflowError when it is too
    large), and the sum is rounded. *)
Definition float_sum (now : Q) (delay : Z) : option Q :=
  match b64 now, b64 (inject_Z delay) with
  | Some a, Some b => b64 (a + b)
  | _, _ => None
  end.

(* ================================================================= *)
(** * Wall-clock time: [time.gmtime] and [time.strftime] *)

Record struct_time := {
  tm_year : Z;
  tm_mon : Z;      (* 1..12 *)
  tm_mday : Z;     (* 1..31 *)
  tm_hour : Z;
  tm_min : Z;
  tm_sec : Z;
  tm_wday : Z      (* 0 = Monday *)
}.

(** Proleptic Gregorian date of the day [days] days after 1970-01-01. *)
Definition civil_from_days (days : Z) : Z * Z * Z :=
  let z := days + 719468 in
  let era := z / 146097 in
  let doe := z - era * 146097 in
  let yoe := (doe - doe / 1460 + doe / 36524 - doe / 146096) / 365 in
  let doy := doe - (365 * yoe + yoe / 4 - yoe / 100) in
  let mp := (5 * doy + 2) / 153 in
  let d := doy - (153 * mp + 2) / 5 + 1 in
  let m := if mp <? 10 then mp + 3 else mp - 9 in
  let y := yoe + era * 400 in
  (if m <=? 2 then y + 1 else y, m, d).

(** [time.gmtime(secs)] for a whole number of seconds; [None] when the
    year does not fit the C [int] field [tm_year] (Python raises
    OverflowError or OSError). *)
Definition gmtime_seconds (t : Z) : option struct_time :=
  let days := t / 86400 in
  let rem := t mod 86400 in
  match civil_from_days days with
  | (y, m, d) =>
      if ((-2147483648 <=? y - 1900) && (y - 1900 <=? 2147483647))%bool
      then Some {| tm_year := y; tm_mon := m; tm_mday := d;
                   tm_hour := rem / 3600;
                   tm_min := (rem mod 3600) / 60;
                   tm_sec := rem mod 60;
                   tm_wday := (days + 3) mod 7 |}
      else None
  end.

(** [time.gmtime(secs)] for a float: the fraction of a second is dropped,
    rounding towards minus infinity. *)
Definition time_gmtime (secs : Q) : option struct_time :=
  gmtime_seconds (Qfloor secs).

Definition digit_char (n : Z) : ascii := ascii_of_nat (48 + Z.to_nat n).

Definition pad2 (n : Z) : string :=
  String (digit_char (n / 10)) (String (digit_char (n mod 10)) "").

Definition day_names : list string :=
  ["Mon"; "Tue"; "Wed"; "Thu"; "Fri"; "Sat"; "Sun"].

Definition month_names : list string :=
  ["Jan"; "Feb"; "Mar"; "Apr"; "May"; "Jun";
   "Jul"; "Aug"; "Sep"; "Oct"; "Nov"; "Dec"].

(** One conversion of the C library's [strftime] in the C locale. *)
Definition directive (c : ascii) (tm : struct_time) : string :=
  if Ascii.eqb c "a" then nth (Z.to_nat (tm_wday tm)) day_names "?"
  else if Ascii.eqb c "b" then nth (Z.to_nat (tm_mon tm - 1)) month_names "?"
  else if Ascii.eqb c "d" then pad2 (tm_mday tm)
  else if Ascii.eqb c "H" then pad2 (tm_hour tm)
  else if Ascii.eqb c "M" then pad2 (tm_min tm)
  else if Ascii.eqb c "S" then pad2 (tm_sec tm)
  else if Ascii.eqb c "Y" then NilZero.string_of_int (Z.to_int (tm_year tm))
  else String "%" (String c "").

(** The C library's [strftime] for the conversions above. *)
Fixpoint c_strftime (format : string) (tm : struct_time) : string :=
  match format with
  | EmptyString => ""
  | String c rest =>
      match rest with
      | String c' rest' =>
          if Ascii.eqb c "%" then directive c' tm ++ c_strftime rest' tm
          else String c (c_strftime rest tm)
      | EmptyString => String c ""
      end
  end.

(** [time.strftime(format, tm)]: the year is first converted to a C
    [int], and from there to an offset from 1900; Python raises
    OverflowError when it does not fit. *)
Definition time_strftime (format : string) (tm : struct_time)
  : option string :=
  if ((-2147483648 + 1900 <=? tm_year tm) && (tm_year tm <=? 2147483647))%bool
  then Some (c_strftime format tm)
  else None.

(** Lines 257-258 of [_do_start]: the start instant from the clock reading
    [now] and the scenario delay; [None] when one of the steps raises. *)
Definition start_utc_of (now : Q) (scenario_delay : Z) : option string :=
  match float_sum now scenario_delay with
  | Some secs =>
      match time_gmtime secs with
      | Some tm => time_strftime "%a, %d %b %Y %H:%M:%S +0000" tm
      | None => None
      end
  | None => None
  end.

(** ** Reading an RFC 2822 date back

    The decoder is written from the format's definition, independently of
    the renderer: day name, day, month name, four-digit year, time of day
    and the zone [+0000], with its own tables of names. *)

Definition days_from_civil (y m d : Z) : Z :=
  let y' := if m <=? 2 then y - 1 else y in
  let era := y' / 400 in
  let yoe := y' - era * 400 in
  let doy := (153 * (if 2 <? m then m - 3 else m + 9) + 2) / 5 + d - 1 in
  let doe := yoe * 365 + yoe / 4 - yoe / 100 + doy in
  era * 146097 + doe - 719468.

Definition digit_val (c : ascii) : option Z :=
  let n := Z.of_nat (nat_of_ascii c) - 48 in
  if ((0 <=? n) && (n <=? 9))%bool then Some n else None.

Fixpoint number_of (cs : list ascii) (acc : Z) : option Z :=
  match cs with
  | [] => Some acc
  | c :: cs' =>
      match digit_val c with
      | Some d => number_of cs' (10 * acc + d)
      | None => None
      end
  end.

(** The day of the week of an RFC 2822 day name, Monday being 0. *)
Definition rfc2822_weekday (s : string) : option Z :=
  if (s =? "Mon")%string then Some 0
  else if (s =? "Tue")%string then Some 1
  else if (s =? "Wed")%string then Some 2
  else if (s =? "Thu")%string then Some 3
  else if (s =? "Fri")%string then Some 4
  else if (s =? "Sat")%string then Some 5
  else if (s =? "Sun")%string then Some 6
  else None.

(** The month of an RFC 2822 month name, January being 1. *)
Definition rfc2822_month (s : string) : option Z :=
  if (s =? "Jan")%string then Some 1
  else if (s =? "Feb")%string then Some 2
  else if (s =? "Mar")%string then Some 3
  else if (s =? "Apr")%string then Some 4
  else if (s =? "May")%string then Some 5
  else if (s =? "Jun")%string then Some 6
  else if (s =? "Jul")%string then Some 7
  else if (s =? "Aug")%string then Some 8
  else if (s =? "Sep")%string then Some 9
  else if (s =? "Oct")%string then Some 10
  else if (s =? "Nov")%string then Some 11
  else if (s =? "Dec")%string then Some 12
  else None.

Definition decode_rfc2822 (s : string) : option Z :=
  match list_ascii_of_string s with
  | [w1; w2; w3; p1; p2; d1; d2; p3; b1; b2; b3; p4; y1; y2; y3; y4; p5;
     h1; h2; p6; m1; m2; p7; s1; s2; p8; z1; z2; z3; z4; z5] =>
      if (string_of_list_ascii [p1; p2; p3; p4; p5; p6; p7; p8; z1; z2; z3; z4; z5]
          =? ",    :: +0000")%string
      then
        match rfc2822_weekday (string_of_list_ascii [w1; w2; w3]),
              number_of [d1; d2] 0,
              rfc2822_month (string_of_list_ascii [b1; b2; b3]),
              number_of [y1; y2; y3; y4] 0,
              number_of [h1; h2] 0, number_of [m1; m2] 0, number_of [s1; s2] 0
        with
        | Some wd, Some d, Some mon, Some y, Some hh, Some mm, Some ss =>
            let days := days_from_civil y mon d in
            if ((wd =? (days + 3) mod 7) && (1 <=? d) && (d <=? 31) &&
                (hh <? 24) && (mm <? 60) && (ss <? 60))%bool
            then Some (days * 86400 + hh * 3600 + mm * 60 + ss)
            else None
        | _, _, _, _, _, _, _ => None
        end
      else None
  | _ => None
  end.

(* ================================================================= *)
(** * The plugin *)

(** The [args] dictionary: the options of the four sub-commands together
    with the keys the letce2 front end adds (filters and manifest). *)
Record Args := {
  plugin_subcommand : string;
  experiment_config : list string;
  lock_file : string;
  force : bool;
  environment : string;
  compose_file : string;
  scenario_delay : Z;
  include_filter : string;
  exclude_filter : string;
  include_file : string;
  exclude_file : string;
  manifest : string
}.

Definition raise {A} (e : exn) : M A := fun w => (Raised e, w).

Definition when (b : bool) (m : M unit) : M unit := if b then m else ret tt.

(** [len(l)] as printed by an f-string. *)
Definition str_len {A} (l : list A) : string :=
  NilZero.string_of_uint (Nat.to_uint (length l)).

Definition compose_path : string := "host/docker-compose.yml".

Section Plugin.
Variable env : Env.

Definition lock_found (args : Args) : M unit :=
  print Stderr ("❌ Lock file found: " ++ lock_file args) ;;
  print Stderr "   Run `letce2 docker stop` first or use '--force'" ;;
  sys_exit 1.

Definition _do_build (args : Args) : M unit :=
  print Stdout "🔨 Building Docker experiment configuration..." ;;
  locked <- path_exists (lock_file args) ;;
  when (locked && negb (force args)) (lock_found args) ;;
  nodes <- lib_call env
    (build_configuration (experiment_config args)
       (include_filter args) (exclude_filter args)
       (include_file args) (exclude_file args)
       (manifest args) "letce2.plugins.docker") ;;
  print Stdout ("✅ Built configuration for " ++ str_len nodes ++ " nodes").

(** The body of the first loop of [_do_start]: the three directories of
    a node's workspace. *)
Definition make_workspace (node : string) : M unit :=
  fs_op env (Mkdir ("persist/" ++ node ++ "/var/run")) ;;
  fs_op env (Mkdir ("persist/" ++ node ++ "/var/log")) ;;
  fs_op env (Mkdir ("persist/" ++ node ++ "/var/tmp")).

(** The body of its last loop: the two launches of one node. *)
Definition init_node (start_utc node : string) : M unit :=
  if (node =? "host")%string then ret tt
  else
    let emane_node := "letce2-" ++ node ++ "-emane" in
    let top_dir := "/experiment" in
    let env' := "" in (* pre-built into container *)
    let log_path := "./persist/" ++ node ++ "/var/log/init.log" in
    let exec_cmd :=
      ["docker"; "exec"; emane_node; "bash"; "-c";
       "/experiment/" ++ node ++ "/init " ++ top_dir ++ " " ++ node
         ++ " '" ++ env' ++ "' '" ++ start_utc ++ "'"] in
    fs_op env (OpenW log_path) ;;
    subprocess_Popen env exec_cmd log_path ;;
    let biz_node := "letce2-" ++ node ++ "-biz" in
    let log_path := "./persist/" ++ node ++ "/var/log/biz_init.log" in
    let exec_cmd :=
      ["docker"; "exec"; biz_node; "bash"; "-c";
       "/experiment/" ++ node ++ "/biz-init " ++ top_dir ++ " " ++ node
         ++ " '" ++ env' ++ "' '" ++ start_utc ++ "'"] in
    fs_op env (OpenW log_path) ;;
    subprocess_Popen env exec_cmd log_path.

Definition _do_start (nodes : list string) (args : Args) : M unit :=
  print Stdout "Starting Docker experiment..." ;;
  locked <- path_exists (lock_file args) ;;
  when (locked && negb (force args)) (lock_found args) ;;
  for_each nodes make_workspace ;;
  let compose_file := compose_path in
  present <- path_exists compose_file ;;
  when (negb present)
    (print Stderr ("⚠️  Docker Compose file not found: " ++ compose_file) ;;
     sys_exit 1) ;;
  try_except
    (print Stdout ("📦 Starting containers from " ++ compose_file ++ "...") ;;
     subprocess_run env
       ["docker"; "compose"; "-f"; compose_file; "up"; "-d"] true ;;
     print Stdout "✅ Docker experiment started successfully" ;;
     print Stdout
       ("   Use `docker compose -f " ++ compose_file ++ " ps` to check status") ;;
     fs_op env (Mkdir (parent (lock_file args))) ;;
     fs_op env (Touch (lock_file args)))
    (fun e =>
       match e with
       | CalledProcessError _ _ err =>
           print Stderr ("❌ Failed to start containers: " ++ str_exn env e) ;;
           when (negb (err =? "")%string) (print Stderr err) ;;
           sys_exit 1
       | OtherError _ =>
           print Stderr ("❌ Error: " ++ str_exn env e) ;;
           sys_exit 1
       end) ;;
  (* RFC 2822 *)
  now <- time_time env ;;
  start_utc <-
    match start_utc_of now (scenario_delay args) with
    | Some s => ret s
    | None => raise (OtherError "timestamp out of range")
    end ;;
  (* host: build veth links, generate eel and start broker *)
  try_except
    (subprocess_run env
       ["sudo"; "host/control"; "prestart"; getcwd env; environment args;
        start_utc] false ;;
     subprocess_run env ["sudo"; "host/bridge"; "start"] false ;;
     (* disable realtime scheduling contraints *)
     subprocess_run env
       ["sudo"; "sysctl"; "kernel.sched_rt_runtime_us=-1"] false ;;
     subprocess_run env
       ["sudo"; "host/control"; "start"; getcwd env; environment args;
        start_utc] false)
    (fun e =>
       print Stderr ("❌ Error during experiment start: " ++ str_exn env e) ;;
       sys_exit 1) ;;
  print Stdout "🚀 Initializing nodes..." ;;
  for_each nodes (init_node start_utc).

Definition _do_stop (nodes : list string) (args : Args) : M unit :=
  print Stdout "🛑 Stopping Docker experiment..." ;;
  let compose_file := compose_path in
  present <- path_exists compose_file ;;
  when (negb present)
    (print Stderr ("⚠️  Docker Compose file not found: " ++ compose_file) ;;
     when (negb (force args)) (sys_exit 1)) ;;
  try_except
    (print Stdout "📦 Stopping and removing containers..." ;;
     subprocess_run env
       ["docker"; "compose"; "-f"; compose_file; "down"] true ;;
     print Stdout "✅ Docker experiment stopped successfully" ;;
     locked <- path_exists (lock_file args) ;;
     when locked (fs_op env (Unlink (lock_file args))))
    (fun e =>
       match e with
       | CalledProcessError _ _ err =>
           print Stderr ("❌ Failed to stop containers: " ++ str_exn env e) ;;
           when (negb (err =? "")%string) (print Stderr err) ;;
           when (negb (force args)) (sys_exit 1)
       | OtherError _ =>
           print Stderr ("❌ Error: " ++ str_exn env e) ;;
           sys_exit 1
       end) ;;
  try_except
    (subprocess_run env
       ["sudo"; "host/control"; "stop"; getcwd env; environment args] false)
    (fun e =>
       print Stderr ("❌ Error during experiment stop: " ++ str_exn env e) ;;
       sys_exit 1) ;;
  subprocess_run env
    ["sudo"; "sysctl"; "kernel.sched_rt_runtime_us=950000"] false.

(** The removal of one included node's workspace in a partial clean. *)
Definition clean_node (node : string) : M unit :=
  let p := "persist/" ++ node in
  there <- path_exists p ;;
  isdir <- path_is_dir p ;;
  when (there && isdir)
    (_ <- subprocess_call env ["sudo"; "rm"; "-rf"; p] ;; ret tt).

Definition _do_clean (nodes_include nodes_exclude : list string)
  (args : Args) : M unit :=
  print Stdout "🧹 Cleaning experiment files..." ;;
  locked <- path_exists (lock_file args) ;;
  when (locked && negb (force args)) (lock_found args) ;;
  match nodes_exclude with
  | [] =>
      there <- path_exists "persist" ;;
      isdir <- path_is_dir "persist" ;;
      when (there && isdir)
        (_ <- subprocess_call env ["sudo"; "rm"; "-rf"; "persist"] ;; ret tt)
  | _ :: _ =>
      for_each nodes_include clean_node ;;
      _ <- lib_call env (nodes_to_manifest nodes_exclude (manifest args)) ;;
      ret tt
  end ;;
  try_except
    (_ <- lib_call env (clean_configuration nodes_include (manifest args)) ;;
     print Stdout "✅ Cleaned up experiment files")
    (fun e =>
       print Stderr ("❌ Clean failed: " ++ str_exn env e) ;;
       sys_exit 1).

Definition process (nodes_include nodes_exclude : list string) (args : Args)
  : M unit :=
  print Stdout "hello" ;;
  let sub := plugin_subcommand args in
  if (sub =? "build")%string then _do_build args
  else if (sub =? "start")%string then _do_start nodes_include args
  else if (sub =? "stop")%string then _do_stop nodes_include args
  else if (sub =? "clean")%string
       then _do_clean nodes_include nodes_exclude args
  else (print Stderr ("❌ Unknown subcommand: " ++ sub) ;; sys_exit 1).

End Plugin.

(* ================================================================= *)
(** * What is observed of a run

    The command lines the specification names, projections of the log and
    predicates on runs, used to state the properties of the phases. None
    of them is used by the plugin above. *)

Definition compose_up : list string :=
  ["docker"; "compose"; "-f"; "host/docker-compose.yml"; "up"; "-d"].

Definition compose_down : list string :=
  ["docker"; "compose"; "-f"; "host/docker-compose.yml"; "down"].

Definition relax_rt : list string :=
  ["sudo"; "sysctl"; "kernel.sched_rt_runtime_us=-1"].

Definition restore_rt : list string :=
  ["sudo"; "sysctl"; "kernel.sched_rt_runtime_us=950000"].

Definition bridge_start : list string := ["sudo"; "host/bridge"; "start"].

Definition rm_rf (p : string) : list string := ["sudo"; "rm"; "-rf"; p].

(** A host control step: the step, the working directory, the environment
    file and, for the steps of [start], the start instant. *)
Definition control (env : Env) (step : string) (extra : list string)
  (args : Args) : list string :=
  ["sudo"; "host/control"; step; getcwd env; environment args] ++ extra.

(** The command line of a node initializer ([script] is [init] or
    [biz-init]), run by [bash -c] inside the node's container. *)
Definition init_command (script node start_utc : string) : string :=
  "/experiment/" ++ node ++ "/" ++ script ++ " /experiment " ++ node
    ++ " '' '" ++ start_utc ++ "'".

(** The events of the workspace loop. *)
Definition is_mkdir (e : Event) : bool :=
  match e with EvFs (Mkdir _) _ => true | _ => false end.

(** The three directories of a node's workspace. *)
Definition workspace_dirs (node : string) : list string :=
  ["persist/" ++ node ++ "/var/run";
   "persist/" ++ node ++ "/var/log";
   "persist/" ++ node ++ "/var/tmp"].

(** The launches of the fan-out, as (command, log file) pairs. *)
Definition node_launches (start_utc node : string)
  : list (list string * string) :=
  [(["docker"; "exec"; "letce2-" ++ node ++ "-emane"; "bash"; "-c";
     init_command "init" node start_utc],
    "./persist/" ++ node ++ "/var/log/init.log");
   (["docker"; "exec"; "letce2-" ++ node ++ "-biz"; "bash"; "-c";
     init_command "biz-init" node start_utc],
    "./persist/" ++ node ++ "/var/log/biz_init.log")].

(** The nodes the fan-out does not skip. *)
Definition not_host (node : string) : bool := negb (node =? "host")%string.

(** The [Popen] calls of a run, in order, each with its log file. *)
Fixpoint popen_calls (tr : list Event) : list (list string * string) :=
  match tr with
  | [] => []
  | EvPopen argv log _ :: tr' => (argv, log) :: popen_calls tr'
  | _ :: tr' => popen_calls tr'
  end.

(** A launch that could not be made: the log file could not be opened or
    [Popen] raised. *)
Definition launch_fault (e : Event) : bool :=
  match e with
  | EvFs (OpenW _) (Some _) => true
  | EvPopen _ _ (LaunchFailed _) => true
  | _ => false
  end.

(** The events of the fan-out: opening a log file, or starting an
    initializer that is handed the instant [s]. *)
Definition fanout_event (s : string) (e : Event) : Prop :=
  (exists p flt, e = EvFs (OpenW p) flt) \/
  (exists container script node log r,
      e = EvPopen ["docker"; "exec"; container; "bash"; "-c";
                   init_command script node s] log r).

(** The run tried [docker compose up] and the command did not succeed. *)
Definition bring_up_failed (tr : list Event) : Prop :=
  exists o, In (EvRun compose_up o) tr /\ forall err, o <> Returned 0 err.

(** The readings of the clock in a run. *)
Fixpoint clock_reads (tr : list Event) : list Q :=
  match tr with
  | [] => []
  | EvTime t :: tr' => t :: clock_reads tr'
  | _ :: tr' => clock_reads tr'
  end.

(** The events that are handed the start instant: the host control steps
    and the initializer launches. *)
Definition takes_instant (e : Event) : bool :=
  match e with
  | EvPopen _ _ _ => true
  | EvRun ("sudo" :: "host/control" :: _) _ => true
  | _ => false
  end.

(** The event has [s] as its instant argument: the last argument of the
    host control steps, the last word of an initializer's command line. *)
Inductive carries_instant (env : Env) (args : Args) (s : string)
  : Event -> Prop :=
| CI_prestart o :
    carries_instant env args s (EvRun (control env "prestart" [s] args) o)
| CI_start o :
    carries_instant env args s (EvRun (control env "start" [s] args) o)
| CI_launch container script node log r :
    carries_instant env args s
      (EvPopen ["docker"; "exec"; container; "bash"; "-c";
                init_command script node s] log r).

(** What a run printed. *)
Definition is_print (e : Event) : bool :=
  match e with EvPrint _ _ => true | _ => false end.

(** The operations of a run, without what it printed. *)
Definition effects (tr : list Event) : list Event :=
  filter (fun e => negb (is_print e)) tr.

(** The command ran and ended with status 0. *)
Definition succeeded (r : RunResult) : bool :=
  match r with Returned 0 _ => true | _ => false end.

(** The removal commands do what they are asked. *)
Definition rm_succeeds (env : Env) : Prop :=
  forall h p, exists err, run_result env h (rm_rf p) = Returned 0 err.

(** [q] lies in the workspace of one of [nodes] that was a directory in
    [f]. *)
Definition removed_by (cwd : string) (f : fs_state) (nodes : list string)
  (q : string) : bool :=
  existsb (fun n => is_dir_kind (f ("persist/" ++ n))
                    && in_tree cwd ("persist/" ++ n) q) nodes.

Fixpoint slash_free (s : string) : bool :=
  match s with
  | EmptyString => true
  | String c s' => negb (Ascii.eqb c "/") && slash_free s'
  end.

(** Node identifiers that are the name of a directory: one component,
    neither empty nor [.] nor [..]. *)
Definition plain_name (n : string) : bool :=
  negb (n =? "")%string && negb (n =? ".")%string
  && negb (n =? "..")%string && slash_free n.

(** [g] is [f] with some missing paths made directories. *)
Definition adds_dirs (f g : fs_state) : Prop :=
  forall q, g q = f q \/ g q = made_dir (f q).

(** Every entry of [f] is in [g], unchanged. *)
Definition grows (f g : fs_state) : Prop :=
  forall q, is_some (f q) = true -> g q = f q.

(** An operation, without its outcome. *)
Inductive Operation :=
| DoFs (op : FsOp)
| DoRun (argv : list string)
| DoPopen (argv : list string) (log : string)
| DoTime
| DoLib (c : LibCall).

(** The operation an event records; a print is none. *)
Definition operation (e : Event) : list Operation :=
  match e with
  | EvPrint _ _ => []
  | EvFs op _ => [DoFs op]
  | EvRun argv _ => [DoRun argv]
  | EvPopen argv log _ => [DoPopen argv log]
  | EvTime _ => [DoTime]
  | EvLib c _ => [DoLib c]
  end.

(** The operations of a run, in order, without what it printed. *)
Fixpoint operations (tr : list Event) : list Operation :=
  match tr with
  | [] => []
  | e :: tr' => (operation e ++ operations tr')%list
  end.

(** The operations of the workspace loop for one node. *)
Definition workspace_ops (node : string) : list Operation :=
  map (fun d => DoFs (Mkdir d)) (workspace_dirs node).

(** The operations of the fan-out for one node: each log file is opened,
    then its initializer is launched. *)
Definition launch_ops (s node : string) : list Operation :=
  flat_map (fun l => [DoFs (OpenW (snd l)); DoPopen (fst l) (snd l)])
           (node_launches s node).

(** The operations of a start that ends normally. *)
Definition start_ops (env : Env) (args : Args) (s : string)
  (nodes : list string) : list Operation :=
  (flat_map workspace_ops nodes ++
   [DoRun compose_up;
    DoFs (Mkdir (parent (lock_file args)));
    DoFs (Touch (lock_file args));
    DoTime;
    DoRun (control env "prestart" [s] args);
    DoRun bridge_start;
    DoRun relax_rt;
    DoRun (control env "start" [s] args)] ++
   flat_map (launch_ops s) (filter not_host nodes))%list.

(** The text of the exception an operation raised, if it raised. *)
Definition fault_text (e : Event) : option string :=
  match e with
  | EvFs _ (Some text) => Some text
  | EvRun _ (SpawnFailed text) => Some text
  | EvPopen _ _ (LaunchFailed text) => Some text
  | EvLib _ (LibRaised text) => Some text
  | _ => None
  end.

(** The operation did not raise. *)
Definition faultless (e : Event) : bool :=
  match fault_text e with
  | None => true
  | Some _ => false
  end.

(** In a loop only the last operation can have raised, and then the loop
    ends with an exception. *)
Definition raises_last (r : Res unit) (evs : list Event) : Prop :=
  match r with
  | Raised _ =>
      exists before last,
        evs = (before ++ [last])%list /\ forallb faultless before = true
  | _ => forallb faultless evs = true
  end.

(** A launch. *)
Definition is_popen (e : Event) : bool :=
  match e with EvPopen _ _ _ => true | _ => false end.

(** [tr] is [ev] preceded by some events and followed by prints only. *)
Definition ends_with (tr : list Event) (ev : Event) : Prop :=
  exists before after,
    tr = (before ++ ev :: after)%list /\ forallb is_print after = true.

(** [q] is none of the workspace directories of [nodes], nor one of
    their ancestors. *)
Definition off_workspaces (cwd : string) (nodes : list string) (q : string)
  : Prop :=
  forall node d, In node nodes -> In d (workspace_dirs node) ->
                 in_tree cwd q d = false.

(** What the workspace loop of [_do_start] can do: only [mkdir]s, which
    leave alone every path but the workspace directories and their
    ancestors; it never calls [sys.exit]; when it ends normally every
    workspace directory is there; when it raises, the last [mkdir]
    failed, and no other did. *)
Definition workspace_loop (cwd : string) (nodes : list string) (w : World)
  (r : Res unit) (w' : World) : Prop :=
  exists evs,
    (trace w' = trace w ++ evs)%list /\
    forallb is_mkdir evs = true /\
    (forall c, r <> Exited c) /\
    adds_dirs (fs w) (fs w') /\
    (forall q, off_workspaces cwd nodes q -> fs w' q = fs w q) /\
    (r = Val tt ->
     operations evs = flat_map workspace_ops nodes /\
     forall node d, In node nodes -> In d (workspace_dirs node) ->
                    fs w' d = made_dir (fs w d)) /\
    (forall e, r = Raised e ->
       exists before p text,
         evs = (before ++ [EvFs (Mkdir p) (Some text)])%list /\
         e = OtherError text) /\
    raises_last r evs.

(** What the last loop of [_do_start] can do: only openings and launches
    with the instant [s]; it never calls [sys.exit]; when it ends normally
    it has made the launches of every node but [host], in order; it ends
    normally unless an opening or a launch raised, which then is its last
    event. *)
Definition fan_out_loop (s : string) (nodes : list string) (w : World)
  (r : Res unit) (w' : World) : Prop :=
  exists evs,
    (trace w' = trace w ++ evs)%list /\
    Forall (fanout_event s) evs /\
    (forall c, r <> Exited c) /\
    grows (fs w) (fs w') /\
    (r = Val tt ->
     operations evs = flat_map (launch_ops s) (filter not_host nodes) /\
     popen_calls evs = flat_map (node_launches s) (filter not_host nodes) /\
     forall node l, In node nodes -> not_host node = true ->
                    In l (node_launches s node) ->
                    is_some (fs w' (snd l)) = true) /\
    (existsb launch_fault evs = false -> r = Val tt) /\
    (forall e, r = Raised e ->
       exists before last text,
         evs = (before ++ [last])%list /\ launch_fault last = true /\
         fault_text last = Some text /\ e = OtherError text) /\
    raises_last r evs.

(** A removal command of a partial [clean]: [sudo rm -rf] on the workspace
    of one of [nodes] that is a directory in [f]. *)
Definition removal (f : fs_state) (nodes : list string) (e : Event) : Prop :=
  exists n o,
    In n nodes /\ is_dir_kind (f ("persist/" ++ n)) = true /\
    e = EvRun (rm_rf ("persist/" ++ n)) o.

(** [g] is [f] without some entries of the trees of [targets]. *)
Definition only_removes (cwd : string) (targets : list string)
  (f g : fs_state) : Prop :=
  forall q, g q = f q \/
            (g q = None /\ existsb (fun p => in_tree cwd p q) targets = true).

(** The workspaces of [nodes]. *)
Definition workspaces (nodes : list string) : list string :=
  map (fun n => "persist/" ++ n) nodes.

(** The removal loop of [_do_clean], whatever the commands answer. *)
Definition clean_loop (cwd : string) (nodes : list string) (w : World)
  (r : Res unit) (w' : World) : Prop :=
  exists evs,
    (trace w' = trace w ++ evs)%list /\
    Forall (removal (fs w) nodes) evs /\
    (forall c, r <> Exited c) /\
    only_removes cwd (workspaces nodes) (fs w) (fs w') /\
    (forall e, r = Raised e ->
       exists before last text,
         evs = (before ++ [last])%list /\
         fault_text last = Some text /\ e = OtherError text) /\
    raises_last r evs.

(** Checks over a range of integers, settled by evaluation. *)
Definition upto (lo : Z) (n : nat) : list Z :=
  map (fun k => lo + Z.of_nat k) (seq 0 n).

(** The digit of [n] reads back as [n]. *)
Definition digit_ok (n : Z) : bool :=
  match digit_val (digit_char n) with
  | Some v => v =? n
  | None => false
  end.

(** [%Y] of [y] is four digits that read back as [y]. *)
Definition year_ok (y : Z) : bool :=
  match list_ascii_of_string (NilZero.string_of_int (Z.to_int y)) with
  | [a; b; c; d] =>
      match number_of [a; b; c; d] 0 with
      | Some v => v =? y
      | None => false
      end
  | _ => false
  end.

(** The [i]-th of [names] has three letters and is read as [i + base]. *)
Definition name_ok (names : list string) (read : string -> option Z)
  (base i : Z) : bool :=
  match nth (Z.to_nat i) names "?" with
  | String a (String b (String c EmptyString)) =>
      match read (String a (String b (String c ""))) with
      | Some j => j =? i + base
      | None => false
      end
  | _ => false
  end.

(** The range of instants whose year has four digits. *)
Definition four_digit_year (t : Z) : Prop :=
  -30610224000 <= t < 253402300800.

(** The format string of [_do_start]. *)
Definition rfc2822_format : string := "%a, %d %b %Y %H:%M:%S +0000".

(** The instants [time.gmtime] and [time.strftime] can convert: from the
    year -2147481748, whose offset from 1900 is the least C [int], to the
    year 2147483647, the greatest C [int]. *)
Definition representable (t : Z) : Prop :=
  -67768040609740800 <= t < 67767976233532800.

(** The characters of a start instant: letters, digits, space, comma,
    colon, plus and minus. *)
Definition instant_char (c : ascii) : bool :=
  let n := nat_of_ascii c in
  (((48 <=? n) && (n <=? 57)) || ((65 <=? n) && (n <=? 90)) ||
   ((97 <=? n) && (n <=? 122)) ||
   existsb (Ascii.eqb c) [" "; ","; ":"; "+"; "-"])%nat%char.

(** Every character of [s] satisfies [p]. *)
Fixpoint all_chars (p : ascii -> bool) (s : string) : bool :=
  match s with
  | EmptyString => true
  | String c s' => p c && all_chars p s'
  end.

(** The number of single quotes of a command line. *)
Fixpoint quotes (s : string) : nat :=
  match s with
  | EmptyString => 0
  | String c s' => ((if Ascii.eqb c "'" then 1 else 0) + quotes s')%nat
  end.

(* ================================================================= *)
(** * Concrete worlds

    Environments, file systems and arguments on which the phases are run
    in the examples. *)

(** The experiment directory of the examples. *)
Definition experiment_dir : string := "/home/letce/exp-01".

(** An environment in which every operation succeeds, but for the
    commands that [run] answers otherwise and the launches that [popen]
    answers otherwise. *)
Definition env_with (run : list string -> RunResult)
  (popen : list string -> PopenResult) : Env :=
  {| getcwd := "/home/letce/exp-01";
     clock := fun _ => (1727876660 # 1)%Q;
     run_result := fun _ argv => run argv;
     popen_result := fun _ argv _ => popen argv;
     fs_fault := fun _ _ => None;
     lib_result := fun _ _ => LibReturned ["host"; "node-1"; "node-2"];
     called_process_error_text :=
       fun _ _ => "Command returned non-zero exit status" |}.

(** Everything succeeds. *)
Definition calm_env : Env :=
  env_with (fun _ => Returned 0 "") (fun _ => Launched 0).

(** The command [keyword] (its word at position [i]) ends with status 1. *)
Definition failing (i : nat) (keyword : string) (argv : list string)
  : RunResult :=
  if (nth i argv "" =? keyword)%string
  then Returned 1 "exit status 1" else Returned 0 "".

(** The file system with exactly these entries, seen from the experiment
    directory. *)
Definition fs_of (entries : list (string * kind)) : fs_state :=
  fun q => option_map snd
             (find (fun e => same_path experiment_dir (fst e) q) entries).

(** The defaults of the command line. *)
Definition args_of (sub : string) (forced : bool) : Args :=
  {| plugin_subcommand := sub;
     experiment_config := ["experiment.cfg"];
     lock_file := "/var/run/lock/letce.lock";
     force := forced;
     environment := "";
     compose_file := "docker-compose.yml";
     scenario_delay := 40;
     include_filter := "";
     exclude_filter := "";
     include_file := "";
     exclude_file := "";
     manifest := "manifest" |}.

(** [args] with another value of [--compose-file]. *)
Definition with_compose_file (c : string) (a : Args) : Args :=
  {| plugin_subcommand := plugin_subcommand a;
     experiment_config := experiment_config a;
     lock_file := lock_file a;
     force := force a;
     environment := environment a;
     compose_file := c;
     scenario_delay := scenario_delay a;
     include_filter := include_filter a;
     exclude_filter := exclude_filter a;
     include_file := include_file a;
     exclude_file := exclude_file a;
     manifest := manifest a |}.

(** [args] with another value of [--scenario-delay]. *)
Definition with_scenario_delay (d : Z) (a : Args) : Args :=
  {| plugin_subcommand := plugin_subcommand a;
     experiment_config := experiment_config a;
     lock_file := lock_file a;
     force := force a;
     environment := environment a;
     compose_file := compose_file a;
     scenario_delay := d;
     include_filter := include_filter a;
     exclude_filter := exclude_filter a;
     include_file := include_file a;
     exclude_file := exclude_file a;
     manifest := manifest a |}.

(** An experiment directory after [build], and the same while running. *)
Definition built_fs : fs_state :=
  fs_of [("host", Dir); ("host/docker-compose.yml", File)].

Definition running_fs : fs_state :=
  fs_of [("host", Dir); ("host/docker-compose.yml", File);
         ("/var/run/lock/letce.lock", File);
         ("persist", Dir); ("persist/node-1", Dir);
         ("persist/node-1/var", Dir); ("persist/node-2", Dir)].

(** A stopped experiment with two workspaces. *)
Definition stopped_fs : fs_state :=
  fs_of [("host", Dir); ("host/docker-compose.yml", File);
         ("persist", Dir); ("persist/node-1", Dir);
         ("persist/node-1/var", Dir); ("persist/node-2", Dir);
         ("persist/node-2/var", Dir)].

(** The first launch of [node-1] cannot be started. *)
Definition refused_launch (argv : list string) : PopenResult :=
  if (nth 2 argv "" =? "letce2-node-1-emane")%string
  then LaunchFailed "[Errno 11] Resource temporarily unavailable"
  else Launched 0.

(** The initializers of [node-1] are started and end with status 1, for
    instance because its container is not running. *)
Definition failing_initializers (argv : list string) : PopenResult :=
  if starts_with "letce2-node-1-" (nth 2 argv "")
  then Launched 1 else Launched 0.

(** The command [keyword] (its word at position [i]) cannot be launched. *)
Definition unlaunchable (i : nat) (keyword : string) (argv : list string)
  : RunResult :=
  if (nth i argv "" =? keyword)%string
  then SpawnFailed "[Errno 2] No such file or directory: 'sudo'"
  else Returned 0 "".

(** An environment in which every operation succeeds, but for the calls
    of the Configuration Builder that [lib] answers otherwise. *)
Definition env_with_builder (lib : LibCall -> LibResult) : Env :=
  {| getcwd := getcwd calm_env;
     clock := clock calm_env;
     run_result := run_result calm_env;
     popen_result := popen_result calm_env;
     fs_fault := fs_fault calm_env;
     lib_result := fun _ c => lib c;
     called_process_error_text := called_process_error_text calm_env |}.

(** A Configuration Builder whose [clean_configuration] raises. *)
Definition clean_configuration_fails (c : LibCall) : LibResult :=
  match c with
  | clean_configuration _ _ => LibRaised "[Errno 13] Permission denied"
  | _ => LibReturned []
  end.

(** A Configuration Builder whose [nodes_to_manifest] raises. *)
Definition nodes_to_manifest_fails (c : LibCall) : LibResult :=
  match c with
  | nodes_to_manifest _ _ => LibRaised "[Errno 13] Permission denied"
  | _ => LibReturned []
  end.

(** The runs of the examples. *)
Abbreviation failed_start :=
  (_do_start (env_with (failing 4 "up") (fun _ => Launched 0))
    ["host"; "node-1"] (args_of "start" false) (init built_fs))
  (only parsing).

Abbreviation forced_stop :=
  (_do_stop (env_with (failing 4 "down") (fun _ => Launched 0))
    ["host"; "node-1"] (args_of "stop" true) (init running_fs))
  (only parsing).

Abbreviation start_with_failed_prestart :=
  (_do_start (env_with (failing 2 "prestart") (fun _ => Launched 0))
    ["host"; "node-1"] (args_of "start" false) (init built_fs))
  (only parsing).

Abbreviation calm_start :=
  (_do_start calm_env ["host"; "node-1"; "node-2"] (args_of "start" false)
    (init built_fs))
  (only parsing).

Abbreviation calm_stop :=
  (_do_stop calm_env ["host"; "node-1"] (args_of "stop" false)
    (init running_fs))
  (only parsing).

Abbreviation partial_clean :=
  (_do_clean calm_env ["node-1"] ["node-2"] (args_of "clean" false)
    (init stopped_fs))
  (only parsing).

Abbreviation start_with_refused_launch :=
  (_do_start (env_with (fun _ => Returned 0 "") refused_launch)
    ["host"; "node-1"; "node-2"] (args_of "start" false) (init built_fs))
  (only parsing).

Abbreviation start_with_failing_initializers :=
  (_do_start (env_with (fun _ => Returned 0 "") failing_initializers)
    ["host"; "node-1"; "node-2"] (args_of "start" false) (init built_fs))
  (only parsing).

Abbreviation clean_with_failing_rm :=
  (_do_clean (env_with (failing 1 "rm") (fun _ => Launched 0))
    ["node-1"; "node-2"] [] (args_of "clean" false) (init stopped_fs))
  (only parsing).

Abbreviation full_clean_after_start :=
  (_do_clean calm_env ["host"; "node-1"; "node-2"] [] (args_of "clean" true)
    (init (fs (snd calm_start))))
  (only parsing).

Abbreviation unknown_phase :=
  (process calm_env ["node-1"] [] (args_of "restart" false) (init built_fs))
  (only parsing).

Abbreviation locked_clean :=
  (process calm_env ["node-1"] [] (args_of "clean" false) (init running_fs))
  (only parsing).

Abbreviation refused_start :=
  (process (env_with (fun _ => Returned 0 "") refused_launch)
     ["host"; "node-1"; "node-2"] [] (args_of "start" false) (init built_fs))
  (only parsing).

Abbreviation calm_build :=
  (_do_build calm_env (args_of "build" false) (init built_fs))
  (only parsing).

Abbreviation start_without_bridge :=
  (_do_start (env_with (unlaunchable 1 "host/bridge") (fun _ => Launched 0))
     ["host"; "node-1"] (args_of "start" false) (init built_fs))
  (only parsing).

Abbreviation late_start :=
  (_do_start calm_env ["host"; "node-1"]
     (with_scenario_delay 100000000000000000 (args_of "start" false))
     (init built_fs))
  (only parsing).

Abbreviation stop_again :=
  (_do_stop calm_env ["host"; "node-1"] (args_of "stop" false)
     (init stopped_fs))
  (only parsing).

Abbreviation failed_stop :=
  (_do_stop (env_with (failing 4 "down") (fun _ => Launched 0))
     ["host"; "node-1"] (args_of "stop" false) (init running_fs))
  (only parsing).

Abbreviation stop_after_start :=
  (_do_stop calm_env ["host"; "node-1"; "node-2"] (args_of "stop" false)
     (init (fs (snd calm_start))))
  (only parsing).

Abbreviation start_after_start :=
  (process calm_env ["host"; "node-1"; "node-2"] [] (args_of "start" false)
     (init (fs (snd calm_start))))
  (only parsing).

Abbreviation clean_with_failing_builder :=
  (_do_clean (env_with_builder clean_configuration_fails) ["node-1"] []
     (args_of "clean" false) (init stopped_fs))
  (only parsing).

Abbreviation clean_with_failing_manifest :=
  (_do_clean (env_with_builder nodes_to_manifest_fails) ["node-1"] ["node-2"]
     (args_of "clean" false) (init stopped_fs))
  (only parsing).

(* ================================================================= *)
(** * Facts on paths *)

Lemma starts_with_refl s : starts_with s s = true.
Proof. induction s as [|c s IH]; cbn; [reflexivity|]. now rewrite Ascii.eqb_refl. Qed.

Lemma starts_with_app p s : starts_with p (p ++ s) = true.
Proof. induction p as [|c p IH]; cbn; [reflexivity|]. now rewrite Ascii.eqb_refl. Qed.

Lemma is_prefix_refl a : is_prefix a a = true.
Proof. induction a as [|x a IH]; cbn; [reflexivity|]. now rewrite String.eqb_refl. Qed.

Lemma is_prefix_trans a : forall b c,
  is_prefix a b = true -> is_prefix b c = true -> is_prefix a c = true.
Proof.
  induction a as [|x a IH]; intros [|y b] [|z c]; cbn; try easy.
  rewrite !andb_true_iff. intros [Hxy Hab] [Hyz Hbc].
  apply String.eqb_eq in Hxy, Hyz. subst. rewrite String.eqb_refl. eauto.
Qed.

Lemma is_prefix_app a b : is_prefix a (a ++ b) = true.
Proof. induction a as [|x a IH]; cbn; [reflexivity|]. now rewrite String.eqb_refl. Qed.

Lemma in_tree_refl cwd p : in_tree cwd p p = true.
Proof. apply is_prefix_refl. Qed.

Lemma in_tree_trans cwd a b c :
  in_tree cwd a b = true -> in_tree cwd b c = true -> in_tree cwd a c = true.
Proof. apply is_prefix_trans. Qed.

Lemma same_path_refl cwd p : same_path cwd p p = true.
Proof. unfold same_path. now rewrite in_tree_refl. Qed.

Lemma made_dir_idem o : made_dir (made_dir o) = made_dir o.
Proof. now destruct o. Qed.

Lemma made_dir_some o : is_some (made_dir o) = true.
Proof. now destruct o. Qed.

Lemma made_dir_of_some o : is_some o = true -> made_dir o = o.
Proof. now destruct o. Qed.

Lemma adds_dirs_refl f : adds_dirs f f.
Proof. intros q. now left. Qed.

Lemma adds_dirs_trans f g h : adds_dirs f g -> adds_dirs g h -> adds_dirs f h.
Proof.
  intros A B q. destruct (B q) as [-> | ->]; destruct (A q) as [-> | ->];
    rewrite ?made_dir_idem; auto.
Qed.

Lemma mkdir_p_cases cwd p g q :
  mkdir_p cwd p g q = g q \/ mkdir_p cwd p g q = made_dir (g q).
Proof. unfold mkdir_p. destruct (in_tree cwd q p); auto. Qed.

Lemma mkdir_p_off cwd p g q :
  in_tree cwd q p = false -> mkdir_p cwd p g q = g q.
Proof. intros H. unfold mkdir_p. now rewrite H. Qed.

Lemma adds_dirs_mkdir_p cwd f g p :
  adds_dirs f g -> adds_dirs f (mkdir_p cwd p g).
Proof.
  intros A. apply (adds_dirs_trans f g); [exact A|]. intros q. apply mkdir_p_cases.
Qed.

Lemma adds_dirs_made f g q : adds_dirs f g -> made_dir (g q) = made_dir (f q).
Proof. intros A. destruct (A q) as [-> | ->]; now rewrite ?made_dir_idem. Qed.

Lemma adds_dirs_keeps_made f g h q :
  adds_dirs g h -> g q = made_dir (f q) -> h q = made_dir (f q).
Proof.
  intros A E. destruct (A q) as [-> | ->]; rewrite E, ?made_dir_idem; reflexivity.
Qed.

Lemma mkdir_p_self cwd p g : mkdir_p cwd p g p = made_dir (g p).
Proof. unfold mkdir_p. now rewrite in_tree_refl. Qed.

Lemma adds_dirs_grows f g : adds_dirs f g -> grows f g.
Proof.
  intros A q H. destruct (A q) as [-> | ->]; [reflexivity|].
  now apply made_dir_of_some.
Qed.

Lemma grows_refl f : grows f f.
Proof. now intros q. Qed.

Lemma grows_trans f g h : grows f g -> grows g h -> grows f h.
Proof. intros A B q H. rewrite B; rewrite A; auto. Qed.

Lemma grows_mkdir_p cwd f g p : grows f g -> grows f (mkdir_p cwd p g).
Proof.
  intros A q H. unfold mkdir_p. rewrite (A q H).
  destruct (in_tree cwd q p); [|reflexivity]. now apply made_dir_of_some.
Qed.

Lemma grows_create_file cwd f g p : grows f g -> grows f (create_file cwd p g).
Proof.
  intros A q H. unfold create_file. rewrite (A q H).
  destruct (same_path cwd q p); [|reflexivity].
  destruct (f q); [reflexivity | discriminate].
Qed.

Lemma create_file_self cwd p g : is_some (create_file cwd p g p) = true.
Proof. unfold create_file. rewrite same_path_refl. now destruct (g p). Qed.

Lemma is_some_create_file cwd p g q :
  is_some (g q) = true -> is_some (create_file cwd p g q) = true.
Proof.
  intros H. unfold create_file. destruct (same_path cwd q p); [|exact H].
  now destruct (g q).
Qed.

Lemma grows_is_some f g q : grows f g -> is_some (f q) = true -> is_some (g q) = true.
Proof. intros A H. now rewrite (A q H). Qed.

Lemma is_dir_is_some o : is_dir_kind o = true -> is_some o = true.
Proof. now destruct o as [[]|]. Qed.

(* ================================================================= *)
(** * Events *)

Lemma pair_eq_inv {A B} (a a' : A) (b b' : B) :
  (a, b) = (a', b') -> a = a' /\ b = b'.
Proof. intros H. now inversion H. Qed.

Lemma Returned_inv rc err rc' err' :
  Returned rc err = Returned rc' err' -> rc = rc' /\ err = err'.
Proof. intros H. now inversion H. Qed.

Lemma EvTime_inv a b : EvTime a = EvTime b -> a = b.
Proof. intros H. now inversion H. Qed.

Lemma EvRun_inv a o b o' : EvRun a o = EvRun b o' -> a = b /\ o = o'.
Proof. intros H. now inversion H. Qed.

Lemma EvFs_inv op flt op' flt' :
  EvFs op flt = EvFs op' flt' -> op = op' /\ flt = flt'.
Proof. intros H. now inversion H. Qed.

Lemma EvLib_inv c r c' r' : EvLib c r = EvLib c' r' -> c = c' /\ r = r'.
Proof. intros H. now inversion H. Qed.

Lemma LibRaised_inv a b : LibRaised a = LibRaised b -> a = b.
Proof. intros H. now inversion H. Qed.

Lemma Raised_inv {A} (a b : exn) : @Raised A a = Raised b -> a = b.
Proof. intros H. now inversion H. Qed.

Lemma Some_inv {A} (a b : A) : Some a = Some b -> a = b.
Proof. intros H. now inversion H. Qed.

Lemma popen_calls_app a b :
  popen_calls (a ++ b) = (popen_calls a ++ popen_calls b)%list.
Proof.
  induction a as [|e a IH]; [reflexivity|].
  destruct e; cbn; now rewrite ?IH.
Qed.

Lemma clock_reads_app a b :
  clock_reads (a ++ b) = (clock_reads a ++ clock_reads b)%list.
Proof.
  induction a as [|e a IH]; [reflexivity|].
  destruct e; cbn; now rewrite ?IH.
Qed.

Lemma operations_app a b :
  operations (a ++ b) = (operations a ++ operations b)%list.
Proof.
  induction a as [|e a IH]; [reflexivity|].
  cbn [app operations]. now rewrite IH, app_assoc.
Qed.

Lemma clock_reads_mkdir evs :
  forallb is_mkdir evs = true -> clock_reads evs = [].
Proof.
  induction evs as [|e evs IH]; cbn [forallb]; [easy|].
  rewrite andb_true_iff. intros [A B]. specialize (IH B).
  destruct e as [| [] | | | |]; try discriminate; exact IH.
Qed.

Lemma clock_reads_fanout s evs :
  Forall (fanout_event s) evs -> clock_reads evs = [].
Proof.
  induction 1 as [|e evs A _ IH]; [easy|].
  destruct A as [(? & ? & ->) | (? & ? & ? & ? & ? & ->)]; exact IH.
Qed.

Lemma popen_calls_mkdir evs :
  forallb is_mkdir evs = true -> popen_calls evs = [].
Proof.
  induction evs as [|e evs IH]; cbn [forallb]; [easy|].
  rewrite andb_true_iff. intros [A B]. specialize (IH B).
  destruct e as [| [] | | | |]; try discriminate; exact IH.
Qed.

Lemma in_clock_reads t tr : In (EvTime t) tr -> In t (clock_reads tr).
Proof.
  induction tr as [|e tr IH]; [easy|]. intros [-> | H].
  - now left.
  - destruct e; cbn [clock_reads]; auto. right. auto.
Qed.

Lemma existsb_app_false {A} (p : A -> bool) a b :
  existsb p (a ++ b) = false -> existsb p b = false.
Proof. rewrite existsb_app, orb_false_iff. tauto. Qed.

Lemma mkdir_segment evs e :
  forallb is_mkdir evs = true -> In e evs -> exists p flt, e = EvFs (Mkdir p) flt.
Proof.
  intros F I. rewrite forallb_forall in F. apply F in I.
  destruct e as [| [] | | | |]; try discriminate. eauto.
Qed.

Lemma fanout_segment s evs e :
  Forall (fanout_event s) evs -> In e evs -> fanout_event s e.
Proof. intros F I. rewrite Forall_forall in F. auto. Qed.

Lemma removal_segment f nodes evs e :
  Forall (removal f nodes) evs -> In e evs -> removal f nodes e.
Proof. intros F I. rewrite Forall_forall in F. auto. Qed.

Lemma computed_run {A} (run : Res A * World) r :
  fst run = r -> run = (r, snd run).
Proof. intros <-. apply surjective_pairing. Qed.

(** The commands of [_do_start] and [_do_stop] leave the modelled file
    system alone. *)
Lemma command_effect_docker cwd l r f :
  command_effect cwd ("docker" :: l) r f = f.
Proof. reflexivity. Qed.

Lemma command_effect_host cwd tool l r f :
  tool <> "rm" -> command_effect cwd ("sudo" :: tool :: l) r f = f.
Proof.
  intros H. unfold command_effect.
  destruct (String.eqb_spec tool "rm") as [->|N]; [easy|].
  repeat first
    [ reflexivity
    | match goal with
      | |- context [match ?x with _ => _ end] => destruct x
      end ]; try reflexivity; exfalso; apply N; reflexivity.
Qed.

Lemma command_effect_rm cwd p err f :
  command_effect cwd (rm_rf p) (Returned 0 err) f = remove_tree cwd p f.
Proof. reflexivity. Qed.

(* ================================================================= *)
(** * Symbolic execution of the phases *)

Ltac reduce_run :=
  cbv beta iota zeta delta
      [_do_stop _do_start _do_build _do_clean process lock_found
       bind ret when try_except print sys_exit raise path_exists path_is_dir
       fs_op subprocess_run subprocess_call subprocess_Popen time_time
       lib_call record ran init fs trace fs_effect negb andb orb];
  cbn [app].

Ltac step_raw :=
  match goal with
  | |- context [match run_result ?e ?h ?a with _ => _ end] =>
      let E := fresh "E" in destruct (run_result e h a) eqn:E
  | |- context [match fs_fault ?e ?h ?a with _ => _ end] =>
      let E := fresh "E" in destruct (fs_fault e h a) eqn:E
  | |- context [match lib_result ?e ?h ?a with _ => _ end] =>
      let E := fresh "E" in destruct (lib_result e h a) eqn:E
  | |- context [match popen_result ?e ?h ?a ?l with _ => _ end] =>
      let E := fresh "E" in destruct (popen_result e h a l) eqn:E
  | |- context [match start_utc_of ?n ?d with _ => _ end] =>
      let E := fresh "E" in destruct (start_utc_of n d) eqn:E
  | |- context [if ?b then _ else _] =>
      lazymatch b with
      | context [if _ then _ else _] => fail
      | _ => idtac
      end;
      let E := fresh "E" in destruct b eqn:E
  end.

Ltac step := once step_raw.

Ltac run_all := reduce_run; repeat (step; reduce_run).

Ltac pair_inv :=
  match goal with
  | |- (_, _) = (_, _) -> _ =>
      let H := fresh in intros H; apply pair_eq_inv in H as [? ?]; subst
  end.

Ltac no_effect :=
  rewrite ?command_effect_docker,
    ?(command_effect_host _ "host/control"),
    ?(command_effect_host _ "host/bridge"), ?(command_effect_host _ "sysctl")
    by discriminate.

(** Membership in a trace made of explicit events and of the segments the
    loops contribute. *)
Ltac crack_in H :=
  repeat first
    [ apply in_app_or in H; destruct H as [H | H]
    | apply in_inv in H; destruct H as [H | H]
    | apply in_nil in H; destruct H ].

(** Finds an event in such a trace. *)
Ltac find_event :=
  lazymatch goal with
  | |- In _ (_ :: _) => first [left; reflexivity | right; find_event]
  | |- In _ (_ ++ _) =>
      apply in_or_app; first [right; find_event | left; find_event]
  end.

(** Closes a goal from a membership [H] that is impossible: the event has
    another shape than every event of the trace. *)
Ltac absurd_in H :=
  solve
    [ discriminate H
    | match goal with
      | F : forallb is_mkdir ?evs = true |- _ =>
          let p := fresh in let flt := fresh in let X := fresh in
          destruct (mkdir_segment _ _ F H) as (p & flt & X); discriminate X
      end
    | match goal with
      | F : Forall (fanout_event ?s) ?evs |- _ =>
          let X := fresh in
          destruct (fanout_segment _ _ _ F H) as [(? & ? & X) | (? & ? & ? & ? & ? & X)];
          discriminate X
      end
    | match goal with
      | F : Forall (removal ?f ?nodes) ?evs |- _ =>
          let X := fresh in
          destruct (removal_segment _ _ _ _ F H) as (? & ? & _ & _ & X);
          discriminate X
      end ].

(** Closes [In e l] for a computed trace [l]. *)
Ltac in_computed := vm_compute; repeat (first [left; reflexivity | right]).

Ltac count_reads :=
  repeat first
    [ rewrite clock_reads_app
    | progress cbn [clock_reads]
    | match goal with
      | F : forallb is_mkdir ?evs = true |- _ =>
          rewrite (clock_reads_mkdir evs F)
      | F : Forall (fanout_event ?s) ?evs |- _ =>
          rewrite (clock_reads_fanout s evs F)
      end ];
  cbn [app length].

Ltac count_launches :=
  repeat first
    [ rewrite popen_calls_app
    | progress cbn [popen_calls]
    | match goal with
      | F : forallb is_mkdir ?evs = true |- _ =>
          rewrite (popen_calls_mkdir evs F)
      end ];
  cbn [app].

(** Computes the operations of a trace made of explicit events and of
    the segments of the loops. *)
Ltac count_ops :=
  repeat first
    [ rewrite operations_app
    | progress cbn [operations operation app] ].

(** Splits a trace into what came before and its last event. *)
Ltac split_last :=
  lazymatch goal with
  | |- exists _ _, ?e :: (?x ++ [?a]) = _ /\ _ =>
      exists (e :: x), a; split; [reflexivity|]
  | |- exists _ _, ?e :: ?a :: (?x ++ [?b]) = _ /\ _ =>
      exists (e :: a :: x), b; split; [reflexivity|]
  | |- exists _ _, ?l = _ /\ _ =>
      exists (removelast l), (last l (EvTime 0)); split; [reflexivity|];
      cbn [last removelast]
  end.

Lemma raises_last_app r e1 e2 :
  raises_last (Val tt) e1 -> raises_last r e2 -> raises_last r (e1 ++ e2).
Proof.
  unfold raises_last. intros A B. destruct r as [[]|e|c].
  - now rewrite forallb_app, A, B.
  - destruct B as (before & last & -> & B). exists (e1 ++ before)%list, last.
    split; [apply app_assoc|]. now rewrite forallb_app, A, B.
  - now rewrite forallb_app, A, B.
Qed.

Lemma raises_last_faultless r evs ev text :
  raises_last r evs -> In ev evs -> fault_text ev = Some text ->
  exists e before, r = Raised e /\ evs = (before ++ [ev])%list.
Proof.
  unfold raises_last. intros A I T.
  assert (N : forall l, forallb faultless l = true -> ~ In ev l).
  { intros l F J. rewrite forallb_forall in F. apply F in J.
    unfold faultless in J. rewrite T in J. discriminate. }
  destruct r as [[]|e|c]; try (now destruct (N _ A I)).
  destruct A as (before & last & -> & B). exists e, before.
  split; [reflexivity|]. apply in_app_or in I as [I | [<- | []]];
    [now destruct (N _ B I) | reflexivity].
Qed.

(* ================================================================= *)
(** * The workspace loop *)

Lemma workspace_loop_nil cwd w : workspace_loop cwd [] w (Val tt) w.
Proof.
  exists []. rewrite app_nil_r.
  split; [reflexivity|]. split; [reflexivity|]. split; [easy|].
  split; [apply adds_dirs_refl|]. split; [easy|]. split; [|easy].
  intros _. split; [reflexivity|]. intros node d [].
Qed.

Lemma off_workspaces_head cwd n nodes q :
  off_workspaces cwd (n :: nodes) q -> off_workspaces cwd [n] q.
Proof. intros H node d [<- | []] Hd. apply (H n d); [now left | exact Hd]. Qed.

Lemma off_workspaces_tail cwd n nodes q :
  off_workspaces cwd (n :: nodes) q -> off_workspaces cwd nodes q.
Proof. intros H node d Hn Hd. apply (H node d); [now right | exact Hd]. Qed.

Lemma workspace_loop_cons cwd n nodes w1 w2 w3 r :
  workspace_loop cwd [n] w1 (Val tt) w2 -> workspace_loop cwd nodes w2 r w3 ->
  workspace_loop cwd (n :: nodes) w1 r w3.
Proof.
  intros (e1 & T1 & M1 & _ & A1 & S1 & V1 & _ & Q1)
         (e2 & T2 & M2 & X2 & A2 & S2 & V2 & R2 & Q2).
  destruct (V1 eq_refl) as [O1 D1].
  exists (e1 ++ e2)%list. split; [now rewrite T2, T1, app_assoc|].
  split; [now rewrite forallb_app, M1, M2|]. split; [exact X2|].
  split; [exact (adds_dirs_trans _ _ _ A1 A2)|].
  split.
  { intros q Hq. rewrite S2 by exact (off_workspaces_tail _ _ _ _ Hq).
    apply S1. exact (off_workspaces_head _ _ _ _ Hq). }
  split.
  - intros Hr. destruct (V2 Hr) as [O2 D2]. split.
    + rewrite operations_app, O1, O2. cbn [flat_map]. now rewrite app_nil_r.
    + intros node d [<- | Hn] Hd.
      * apply (adds_dirs_keeps_made _ _ _ _ A2).
        apply (D1 n d); [now left | exact Hd].
      * rewrite (D2 node d Hn Hd). apply adds_dirs_made. exact A1.
  - split; [|exact (raises_last_app _ _ _ Q1 Q2)].
    intros e Hr. destruct (R2 e Hr) as (before & p & text & -> & ->).
    exists (e1 ++ before)%list, p, text. now rewrite app_assoc.
Qed.

Lemma make_workspace_loop env node w r w' :
  make_workspace env node w = (r, w') ->
  workspace_loop (getcwd env) [node] w r w'.
Proof.
  destruct w as [f t]. unfold make_workspace. run_all; pair_inv.
  all: eexists; split;
    [cbv beta iota delta [trace]; rewrite <- ?app_assoc; reflexivity|].
  all: split; [reflexivity|]; split; [easy|].
  all: cbv beta iota delta [fs]; split;
    [repeat apply adds_dirs_mkdir_p; apply adds_dirs_refl|].
  all: split;
    [intros q Hq;
     rewrite ?mkdir_p_off
       by (apply (Hq node); [now left | cbn; auto]);
     reflexivity|].
  all: split; [|split].
  all: try (intros X; discriminate X).
  all: try (intros e X; discriminate X).
  all: try (intros e X; injection X as <-; eexists; eexists; eexists;
            split; [|reflexivity];
            first [ exact (eq_refl : [_] = ([] ++ [_])%list)
                  | exact (eq_refl : [_; _] = ([_] ++ [_])%list)
                  | exact (eq_refl : [_; _; _] = ([_; _] ++ [_])%list) ]).
  all: try (solve
    [ reflexivity
    | eexists; eexists; split;
      [ first [ exact (eq_refl : [_] = ([] ++ [_])%list)
              | exact (eq_refl : [_; _] = ([_] ++ [_])%list)
              | exact (eq_refl : [_; _; _] = ([_; _] ++ [_])%list) ]
      | reflexivity ] ]).
  intros _. split; [reflexivity|].
  intros n d [Hn | []] Hd. subst n.
  destruct Hd as [Hd | [Hd | [Hd | []]]]; subst d.
  - apply (adds_dirs_keeps_made f
             (mkdir_p (getcwd env) ("persist/" ++ node ++ "/var/run") f)).
    + do 2 apply adds_dirs_mkdir_p. apply adds_dirs_refl.
    + apply mkdir_p_self.
  - apply (adds_dirs_keeps_made f
             (mkdir_p (getcwd env) ("persist/" ++ node ++ "/var/log")
                (mkdir_p (getcwd env) ("persist/" ++ node ++ "/var/run") f))).
    + apply adds_dirs_mkdir_p, adds_dirs_refl.
    + rewrite mkdir_p_self. apply adds_dirs_made.
      apply adds_dirs_mkdir_p, adds_dirs_refl.
  - rewrite mkdir_p_self. apply adds_dirs_made.
    repeat apply adds_dirs_mkdir_p. apply adds_dirs_refl.
Qed.

Lemma for_each_workspace_loop env nodes : forall w r w',
  for_each nodes (make_workspace env) w = (r, w') ->
  workspace_loop (getcwd env) nodes w r w'.
Proof.
  induction nodes as [|n nodes IH]; intros w r w'; cbn [for_each].
  - unfold ret. pair_inv. apply workspace_loop_nil.
  - unfold bind at 1. destruct (make_workspace env n w) as [r1 w1] eqn:E1.
    apply make_workspace_loop in E1.
    destruct r1 as [[]|e|c].
    + intros H. apply IH in H. eapply workspace_loop_cons; eauto.
    + pair_inv.
      destruct E1 as (e1 & T1 & M1 & X1 & A1 & S1 & _ & R1).
      exists e1. split; [exact T1|]. split; [exact M1|]. split; [exact X1|].
      split; [exact A1|].
      split; [intros q Hq; apply S1; exact (off_workspaces_head _ _ _ _ Hq)|].
      split; [easy | exact R1].
    + destruct E1 as (e1 & _ & _ & X1 & _). now destruct (X1 c).
Qed.

(* ================================================================= *)
(** * The fan-out loop *)

Lemma fan_out_loop_nil s w : fan_out_loop s [] w (Val tt) w.
Proof.
  exists []. rewrite app_nil_r.
  split; [reflexivity|]. split; [constructor|]. split; [easy|].
  split; [apply grows_refl|]. split; [|split; [easy|easy]].
  intros _. split; [reflexivity|]. split; [reflexivity|]. intros node l [].
Qed.

Lemma fan_out_loop_cons s n nodes w1 w2 w3 r :
  fan_out_loop s [n] w1 (Val tt) w2 -> fan_out_loop s nodes w2 r w3 ->
  fan_out_loop s (n :: nodes) w1 r w3.
Proof.
  intros (e1 & T1 & F1 & _ & G1 & V1 & _ & _ & Q1)
         (e2 & T2 & F2 & X2 & G2 & V2 & N2 & R2 & Q2).
  destruct (V1 eq_refl) as (O1 & P1 & D1).
  exists (e1 ++ e2)%list. split; [now rewrite T2, T1, app_assoc|].
  split; [now apply Forall_app|]. split; [exact X2|].
  split; [exact (grows_trans _ _ _ G1 G2)|]. split; [|split; [|split]].
  - intros Hr. destruct (V2 Hr) as (O2 & P2 & D2). split; [|split].
    + rewrite operations_app, O1, O2. cbn [filter flat_map].
      destruct (not_host n); cbn [flat_map]; now rewrite ?app_nil_r.
    + rewrite popen_calls_app, P1, P2. cbn [filter flat_map].
      destruct (not_host n); cbn [flat_map]; now rewrite ?app_nil_r.
    + intros node l [<- | Hn] Hh Hl.
      * apply (grows_is_some _ _ _ G2). apply (D1 n l); auto. now left.
      * exact (D2 node l Hn Hh Hl).
  - intros H. apply existsb_app_false in H. exact (N2 H).
  - intros e Hr. destruct (R2 e Hr) as (before & last & text & -> & L & T & ->).
    exists (e1 ++ before)%list, last, text. now rewrite app_assoc.
  - exact (raises_last_app _ _ _ Q1 Q2).
Qed.

Lemma init_node_loop env s node w r w' :
  init_node env s node w = (r, w') -> fan_out_loop s [node] w r w'.
Proof.
  destruct w as [f t]. unfold fan_out_loop, init_node.
  run_all; pair_inv.
  all: eexists; split;
    [cbv beta iota delta [trace]; rewrite <- ?app_assoc;
     first [reflexivity | symmetry; apply app_nil_r]|].
  all: split;
    [repeat (first [apply Forall_nil | apply Forall_cons]);
     first [left; repeat eexists; reflexivity
           |right; eexists; exists "init", node; eexists; eexists; reflexivity
           |right; eexists; exists "biz-init", node; eexists; eexists;
            reflexivity]|].
  all: split; [easy|].
  all: cbv beta iota delta [fs]; split;
    [repeat apply grows_create_file; apply grows_refl|].
  all: split; [|split; [cbn; try easy|split]].
  all: try (intros X; discriminate X).
  all: try (intros e X; discriminate X).
  all: try (solve
    [ reflexivity
    | eexists; eexists; split;
      [ first [ exact (eq_refl : [_] = ([] ++ [_])%list)
              | exact (eq_refl : [_; _] = ([_] ++ [_])%list)
              | exact (eq_refl : [_; _; _] = ([_; _] ++ [_])%list)
              | exact (eq_refl : [_; _; _; _] = ([_; _; _] ++ [_])%list) ]
      | reflexivity ] ]).
  all: try (intros e X; injection X as <-; cbn [app];
            eexists; eexists; eexists;
            split;
            [ first [ exact (eq_refl : [_] = ([] ++ [_])%list)
                    | exact (eq_refl : [_; _] = ([_] ++ [_])%list)
                    | exact (eq_refl : [_; _; _] = ([_; _] ++ [_])%list)
                    | exact (eq_refl : [_; _; _; _] = ([_; _; _] ++ [_])%list) ]
            | split; [reflexivity | split; reflexivity] ]).
  - intros _. unfold not_host. cbn [filter]. rewrite E. cbn [negb flat_map].
    split; [reflexivity|]. split; [reflexivity|].
    intros n l [<- | []] Hh. now rewrite E in Hh.
  - intros _. unfold not_host. cbn [filter]. rewrite E. cbn [negb flat_map].
    split; [reflexivity|]. split; [reflexivity|].
    intros n l [Hn | []] _ Hl. subst n. unfold node_launches in Hl.
    destruct Hl as [Hl | [Hl | []]]; subst l; cbn [snd].
    + apply is_some_create_file, create_file_self.
    + apply create_file_self.
Qed.

Lemma for_each_fan_out_loop env s nodes : forall w r w',
  for_each nodes (init_node env s) w = (r, w') -> fan_out_loop s nodes w r w'.
Proof.
  induction nodes as [|n nodes IH]; intros w r w'; cbn [for_each].
  - unfold ret. pair_inv. apply fan_out_loop_nil.
  - unfold bind at 1. destruct (init_node env s n w) as [r1 w1] eqn:E1.
    apply init_node_loop in E1.
    destruct r1 as [[]|e|c].
    + intros H. apply IH in H. eapply fan_out_loop_cons; eauto.
    + pair_inv.
      destruct E1 as (e1 & T1 & F1 & X1 & G1 & _ & N1 & R1).
      exists e1. repeat (split; [assumption|]). split; [easy|].
      split; [exact N1 | exact R1].
    + destruct E1 as (e1 & _ & _ & X1 & _). now destruct (X1 c).
Qed.

(* ================================================================= *)
(** * The removal loop *)

Lemma only_removes_refl cwd targets f : only_removes cwd targets f f.
Proof. intros q. now left. Qed.

Lemma only_removes_trans cwd targets f g h :
  only_removes cwd targets f g -> only_removes cwd targets g h ->
  only_removes cwd targets f h.
Proof.
  intros A B q. destruct (B q) as [-> | [-> P]]; [apply A | now right].
Qed.

Lemma only_removes_more cwd t targets f g :
  only_removes cwd targets f g -> only_removes cwd (t :: targets) f g.
Proof.
  intros A q. destruct (A q) as [E | [E P]]; [now left | right].
  split; [exact E|]. cbn [existsb]. rewrite P. apply orb_true_r.
Qed.

Lemma only_removes_rm cwd p targets o f :
  only_removes cwd (p :: targets) f (command_effect cwd (rm_rf p) o f).
Proof.
  intros q. destruct o as [rc err|text]; [|now left].
  destruct rc; try (now left).
  rewrite command_effect_rm. unfold remove_tree.
  destruct (in_tree cwd p q) eqn:T; [right | now left].
  split; [reflexivity|]. cbn [existsb]. now rewrite T.
Qed.

Lemma only_removes_dir cwd targets f g p :
  only_removes cwd targets f g ->
  is_dir_kind (g p) = true -> is_dir_kind (f p) = true.
Proof.
  intros A H. destruct (A p) as [E | [E _]]; rewrite E in H;
    [exact H | discriminate].
Qed.

Lemma removal_earlier cwd targets f g nodes e :
  only_removes cwd targets f g -> removal g nodes e -> removal f nodes e.
Proof.
  intros A (n & o & Hn & D & ->). exists n, o.
  split; [exact Hn|]. split; [|reflexivity].
  exact (only_removes_dir _ _ _ _ _ A D).
Qed.

Lemma removal_more f n nodes e : removal f nodes e -> removal f (n :: nodes) e.
Proof.
  intros (m & o & Hm & D & ->). exists m, o. split; [now right|]. now split.
Qed.

Lemma clean_node_loop env node w r w' :
  clean_node env node w = (r, w') -> clean_loop (getcwd env) [node] w r w'.
Proof.
  destruct w as [f t]. unfold clean_node, clean_loop.
  run_all; pair_inv.
  all: cbv beta iota delta [trace fs].
  all: eexists; split;
    [first [reflexivity | symmetry; apply app_nil_r]|].
  all: split;
    [repeat (first [apply Forall_nil | apply Forall_cons]);
     (exists node; eexists; (split; [now left|]);
      (split; [eassumption|reflexivity]))|].
  all: split; [easy|].
  all: split;
    [first [apply only_removes_refl
           |apply (only_removes_rm (getcwd env) ("persist/" ++ node) [])]|].
  all: split.
  all: try (solve
    [ reflexivity
    | eexists; eexists; split;
      [ exact (eq_refl : [_] = ([] ++ [_])%list) | reflexivity ] ]).
  all: intros e X; try discriminate X.
  all: injection X as <-; exists []; eexists; eexists;
    split; [reflexivity|]; split; reflexivity.
Qed.

Lemma for_each_clean_loop env nodes : forall w r w',
  for_each nodes (clean_node env) w = (r, w') ->
  clean_loop (getcwd env) nodes w r w'.
Proof.
  induction nodes as [|n nodes IH]; intros w r w'; cbn [for_each].
  - unfold ret. pair_inv. exists []. rewrite app_nil_r.
    split; [reflexivity|]. split; [constructor|]. split; [easy|].
    split; [apply only_removes_refl | easy].
  - unfold bind at 1. destruct (clean_node env n w) as [r1 w1] eqn:E1.
    apply clean_node_loop in E1.
    destruct E1 as (e1 & T1 & F1 & X1 & A1 & R1 & Q1).
    assert (F1' : Forall (removal (fs w) (n :: nodes)) e1).
    { revert F1. apply Forall_impl. intros e (m & o & [<- | []] & D & ->).
      exists n, o. split; [now left|]. now split. }
    assert (A1' : only_removes (getcwd env) (workspaces (n :: nodes))
                    (fs w) (fs w1)).
    { intros q. destruct (A1 q) as [E | [E P]]; [now left | right].
      split; [exact E|]. cbn [workspaces map existsb] in *.
      rewrite orb_false_r in P. now rewrite P. }
    destruct r1 as [[]|e|c].
    + intros H. apply IH in H.
      destruct H as (e2 & T2 & F2 & X2 & A2 & R2 & Q2).
      exists (e1 ++ e2)%list. split; [now rewrite T2, T1, app_assoc|].
      split.
      { apply Forall_app. split; [exact F1'|]. revert F2. apply Forall_impl.
        intros e H. apply removal_more.
        exact (removal_earlier _ _ _ _ _ _ A1 H). }
      split; [exact X2|]. split.
      { apply (only_removes_trans _ _ _ _ _ A1').
        apply only_removes_more. exact A2. }
      split; [|exact (raises_last_app _ _ _ Q1 Q2)].
      intros e Hr. destruct (R2 e Hr) as (before & last & text & -> & T & ->).
      exists (e1 ++ before)%list, last, text. now rewrite app_assoc.
    + pair_inv. exists e1. split; [exact T1|]. split; [exact F1'|].
      split; [easy|]. split; [exact A1' | split; [exact R1 | exact Q1]].
    + now destruct (X1 c).
Qed.

(** ** With removal commands that succeed *)

Lemma clean_node_run env node w r w' :
  rm_succeeds env ->
  clean_node env node w = (r, w') ->
  r = Val tt /\
  fs w' = (if is_dir_kind (fs w ("persist/" ++ node))
           then remove_tree (getcwd env) ("persist/" ++ node) (fs w)
           else fs w) /\
  exists evs, (trace w' = trace w ++ evs)%list.
Proof.
  intros Hrm. destruct w as [f t]. unfold clean_node.
  reduce_run.
  destruct (is_dir_kind (f ("persist/" ++ node))) eqn:D.
  - rewrite (is_dir_is_some _ D). reduce_run.
    destruct (Hrm t ("persist/" ++ node)) as [err Hr]. unfold rm_rf in Hr.
    rewrite Hr. reduce_run. pair_inv.
    cbv beta iota delta [fs trace]. repeat split; eauto.
  - destruct (is_some (f ("persist/" ++ node))); reduce_run; pair_inv;
      cbv beta iota delta [fs trace]; repeat split;
      exists []; now rewrite app_nil_r.
Qed.

Lemma removed_by_after cwd f n nodes q :
  in_tree cwd ("persist/" ++ n) q = false ->
  removed_by cwd (remove_tree cwd ("persist/" ++ n) f) nodes q
    = removed_by cwd f nodes q.
Proof.
  intros T. unfold removed_by.
  induction nodes as [|m nodes IH]; [reflexivity|].
  cbn [existsb]. rewrite IH. f_equal.
  destruct (in_tree cwd ("persist/" ++ m) q) eqn:Tm;
    [|now rewrite !andb_false_r].
  rewrite !andb_true_r. unfold remove_tree.
  destruct (in_tree cwd ("persist/" ++ n) ("persist/" ++ m)) eqn:Tnm;
    [|reflexivity].
  rewrite (in_tree_trans _ _ _ _ Tnm Tm) in T. discriminate.
Qed.

Lemma removed_by_step cwd f n nodes q :
  (if removed_by cwd
        (if is_dir_kind (f ("persist/" ++ n))
         then remove_tree cwd ("persist/" ++ n) f else f) nodes q
   then None
   else (if is_dir_kind (f ("persist/" ++ n))
         then remove_tree cwd ("persist/" ++ n) f else f) q) =
  (if removed_by cwd f (n :: nodes) q then None else f q).
Proof.
  change (removed_by cwd f (n :: nodes) q)
    with ((is_dir_kind (f ("persist/" ++ n))
           && in_tree cwd ("persist/" ++ n) q)
          || removed_by cwd f nodes q)%bool.
  destruct (is_dir_kind (f ("persist/" ++ n))) eqn:D; cbn [andb orb];
    [|reflexivity].
  destruct (in_tree cwd ("persist/" ++ n) q) eqn:T; cbn [orb].
  - unfold remove_tree at 2. rewrite T.
    now destruct (removed_by _ _ nodes q).
  - rewrite (removed_by_after _ _ _ _ _ T). unfold remove_tree. now rewrite T.
Qed.

Lemma for_each_clean_node env nodes :
  rm_succeeds env ->
  forall w r w',
    for_each nodes (clean_node env) w = (r, w') ->
    r = Val tt /\
    (forall q, fs w' q = if removed_by (getcwd env) (fs w) nodes q
                         then None else fs w q) /\
    exists evs, (trace w' = trace w ++ evs)%list.
Proof.
  intros Hrm. induction nodes as [|n nodes IH]; intros w r w'; cbn [for_each].
  - unfold ret. pair_inv. repeat split. exists []. now rewrite app_nil_r.
  - unfold bind at 1. destruct (clean_node env n w) as [r1 w1] eqn:E1.
    apply clean_node_run in E1; [|exact Hrm].
    destruct E1 as (-> & F1 & (e1 & T1)).
    intros H. apply IH in H. destruct H as (-> & F2 & (e2 & T2)).
    split; [reflexivity|]. split.
    + intros q. rewrite F2, F1. apply removed_by_step.
    + exists (e1 ++ e2)%list. now rewrite T2, T1, app_assoc.
Qed.

(* ================================================================= *)
(** * Resolution of the workspace paths *)

Lemma split_path_aux_app a : forall cur b,
  split_path_aux cur (a ++ String "/" b)
    = (split_path_aux cur a ++ split_path_aux "" b)%list.
Proof.
  induction a as [|c a IH]; intros cur b; cbn.
  - reflexivity.
  - destruct (Ascii.eqb c "/"); cbn; now rewrite IH.
Qed.

Lemma split_path_aux_plain n : forall cur,
  slash_free n = true -> split_path_aux cur n = [cur ++ n].
Proof.
  induction n as [|c n IH]; intros cur; cbn.
  - intros _. f_equal. induction cur; cbn; congruence.
  - rewrite andb_true_iff, negb_true_iff. intros [-> H].
    rewrite (IH _ H). f_equal.
    clear. induction cur as [|d cur IH]; cbn; [reflexivity|]. now rewrite IH.
Qed.

Lemma fold_left_push_app l1 l2 st :
  fold_left push (l1 ++ l2) st = fold_left push l2 (fold_left push l1 st).
Proof. apply fold_left_app. Qed.

(** The workspace of a plainly named node is the directory of that name
    in [persist], in the working directory. *)
Lemma resolve_workspace cwd n :
  plain_name n = true ->
  resolve cwd ("persist/" ++ n) = (resolve cwd "persist" ++ [n])%list.
Proof.
  unfold plain_name. rewrite !andb_true_iff, !negb_true_iff.
  intros [[[N0 N1] N2] S]. unfold resolve.
  change (starts_with "/" ("persist/" ++ n)) with false.
  change (starts_with "/" "persist") with false. cbv iota.
  change (cwd ++ "/" ++ "persist/" ++ n)
    with (cwd ++ String "/" ("persist" ++ String "/" n)).
  change (cwd ++ "/" ++ "persist") with (cwd ++ String "/" "persist").
  unfold split_path. rewrite !split_path_aux_app, !fold_left_push_app.
  rewrite (split_path_aux_plain n "" S). cbn [append fold_left].
  change (split_path_aux "" "persist") with ["persist"]. cbn [fold_left].
  unfold push at 1. rewrite N0, N1, N2. reflexivity.
Qed.

Lemma is_prefix_last b : forall m n r,
  is_prefix (b ++ [m]) r = true -> is_prefix (b ++ [n]) r = true -> m = n.
Proof.
  induction b as [|x b IH]; intros m n [|y r]; cbn; try easy.
  - rewrite !andb_true_iff, !String.eqb_eq. intros [-> _] [-> _]. reflexivity.
  - rewrite !andb_true_iff. intros [_ A] [_ B]. exact (IH m n r A B).
Qed.

(** Workspaces of different nodes do not overlap. *)
Lemma workspaces_apart cwd m n q :
  plain_name m = true -> plain_name n = true ->
  in_tree cwd ("persist/" ++ m) q = true ->
  in_tree cwd ("persist/" ++ n) q = true ->
  m = n.
Proof.
  unfold in_tree. intros Hm Hn.
  rewrite (resolve_workspace cwd m Hm), (resolve_workspace cwd n Hn).
  apply is_prefix_last.
Qed.

(** The workspace of a plainly named node lies in [persist]. *)
Lemma workspace_in_persist cwd n :
  plain_name n = true -> in_tree cwd "persist" ("persist/" ++ n) = true.
Proof.
  intros H. unfold in_tree. rewrite (resolve_workspace cwd n H).
  apply is_prefix_app.
Qed.

Lemma removed_by_false cwd f nodes q :
  (forall n, In n nodes -> in_tree cwd ("persist/" ++ n) q = false) ->
  removed_by cwd f nodes q = false.
Proof.
  intros H. unfold removed_by. induction nodes as [|n nodes IH]; [reflexivity|].
  cbn [existsb]. rewrite (H n (or_introl eq_refl)), andb_false_r.
  apply IH. intros m Hm. apply H. now right.
Qed.

(* ================================================================= *)
(** * Symbolic execution with the loops *)

Ltac step_workspace_loop :=
  match goal with
  | |- context [for_each ?l (make_workspace ?e) ?w] =>
      let r := fresh "r" in
      let L := fresh "L" in
      let Lx := fresh "Lx" in
      let evs := fresh "evs" in
      let Lt := fresh "Lt" in
      let Lm := fresh "Lm" in
      let La := fresh "La" in
      let Lf := fresh "Lf" in
      let Ls := fresh "Ls" in
      let Lr := fresh "Lr" in
      let Lq := fresh "Lq" in
      let f1 := fresh "f" in
      let t1 := fresh "t" in
      let w1 := fresh "w" in
      destruct (for_each l (make_workspace e) w) as [r w1] eqn:L;
      apply for_each_workspace_loop in L;
      destruct L as (evs & Lt & Lm & Lx & La & Lf & Ls & Lr & Lq);
      destruct w1 as [f1 t1];
      cbv beta iota delta [trace fs] in Lt, La, Lf, Ls, Lr;
      cbn [app] in Lt; subst t1;
      destruct r as [[]|?|?]; [ | | exfalso; eapply Lx; reflexivity]
  end.

Ltac finish_loops :=
  match goal with
  | |- (_, _) = (_, _) -> _ => pair_inv
  | |- for_each _ (init_node _ _) _ = (_, ?w2) -> _ =>
      let H := fresh "FO" in
      let f2 := fresh "f" in
      let t2 := fresh "t" in
      destruct w2 as [f2 t2];
      let evs := fresh "fan" in
      let Ft := fresh "Ft" in
      let Fe := fresh "Fe" in
      let Fx := fresh "Fx" in
      let Fg := fresh "Fg" in
      let Fs := fresh "Fs" in
      let Fn := fresh "Fn" in
      let Fr := fresh "Fr" in
      let Fq := fresh "Fq" in
      intros H; apply for_each_fan_out_loop in H;
      destruct H as (evs & Ft & Fe & Fx & Fg & Fs & Fn & Fr & Fq);
      cbv beta iota delta [trace fs] in Ft, Fg, Fs; subst t2
  end.

Ltac step_clean_loop :=
  match goal with
  | |- context [for_each ?l (clean_node ?e) ?w] =>
      let r := fresh "r" in
      let L := fresh "L" in
      let evs := fresh "evs" in
      let Ct := fresh "Ct" in
      let Ce := fresh "Ce" in
      let Cx := fresh "Cx" in
      let Ca := fresh "Ca" in
      let Cr := fresh "Cr" in
      let Cq := fresh "Cq" in
      let f1 := fresh "f" in
      let t1 := fresh "t" in
      let w1 := fresh "w" in
      destruct (for_each l (clean_node e) w) as [r w1] eqn:L;
      apply for_each_clean_loop in L;
      destruct L as (evs & Ct & Ce & Cx & Ca & Cr & Cq);
      destruct w1 as [f1 t1];
      cbv beta iota delta [trace fs] in Ct, Ce, Ca; cbn [app] in Ct; subst t1;
      destruct r as [[]|?|?]; [ | | exfalso; eapply Cx; reflexivity]
  end.

Ltac step_clean Hrm :=
  match goal with
  | |- context [for_each ?l (clean_node ?e) ?w] =>
      let r := fresh "r" in
      let L := fresh "L" in
      let Lf := fresh "Lf" in
      let evs := fresh "evs" in
      let Lt := fresh "Lt" in
      let f1 := fresh "f" in
      let t1 := fresh "t" in
      let w1 := fresh "w" in
      destruct (for_each l (clean_node e) w) as [r w1] eqn:L;
      apply (for_each_clean_node _ _ Hrm) in L;
      destruct L as (-> & Lf & (evs & Lt));
      destruct w1 as [f1 t1];
      cbv beta iota delta [trace fs] in Lt, Lf; cbn [app] in Lt; subst t1
  end.

Ltac use_rm Hrm :=
  repeat match goal with
         | E : run_result ?env ?h ["sudo"; "rm"; "-rf"; ?p] = _ |- _ =>
             let e := fresh "err" in
             let Hr := fresh in
             destruct (Hrm h p) as [e Hr]; unfold rm_rf in Hr;
             rewrite Hr in E; clear Hr;
             first [discriminate E
                   | apply Returned_inv in E as [? ?]; subst]
         end.

Ltac start_cases :=
  reduce_run; repeat (first [once step_workspace_loop | step]; reduce_run).

Ltac clean_cases :=
  reduce_run; repeat (first [once step_clean_loop | step]; reduce_run).

Ltac all_cases :=
  reduce_run;
  repeat (first [once step_workspace_loop | once step_clean_loop | step];
          reduce_run).

(** Closes [grows f g] for the file system [g] of a run of [_do_start]. *)
Ltac solve_grows :=
  no_effect;
  repeat first
    [ assumption
    | apply grows_refl
    | apply grows_create_file
    | apply grows_mkdir_p
    | match goal with
      | A : adds_dirs ?f ?g |- grows ?f ?g => exact (adds_dirs_grows f g A)
      | G : grows ?g ?h |- grows ?f ?h => apply (fun X => grows_trans f g h X G)
      end ].

(* ================================================================= *)
(** * Rounding to binary64 *)

Lemma pow2_pos e : (0 < pow2 e)%Q.
Proof.
  unfold pow2. destruct (0 <=? e) eqn:E.
  - apply Z.leb_le in E. unfold Qlt. cbn. rewrite Z.mul_1_r.
    apply Z.pow_pos_nonneg; lia.
  - reflexivity.
Qed.

Lemma pow2_int e : 0 <= e -> pow2 e = inject_Z (2 ^ e).
Proof. intros H. unfold pow2. apply Z.leb_le in H. now rewrite H. Qed.

Lemma pow2_inv e : e <= 0 -> (pow2 (- e) * pow2 e == 1)%Q.
Proof.
  intros H. rewrite (pow2_int (- e)) by lia. unfold pow2.
  destruct (0 <=? e) eqn:E.
  - apply Z.leb_le in E. assert (e = 0) as -> by lia. reflexivity.
  - assert (P : 0 < 2 ^ (- e)) by (apply Z.pow_pos_nonneg; lia).
    unfold Qeq, Qmult, inject_Z. cbn [Qnum Qden].
    rewrite Pos.mul_1_l, !Z.mul_1_r, Z2Pos.id by exact P. lia.
Qed.

Lemma round_half_even_floor q :
  Qfloor q <= round_half_even q <= Qfloor q + 1.
Proof.
  unfold round_half_even. destruct (Qcompare _ _); [destruct (Z.even _)| |]; lia.
Qed.

Lemma round_half_even_ge n q :
  (inject_Z n <= q)%Q -> n <= round_half_even q.
Proof.
  intros H. apply Qfloor_resp_le in H. rewrite Qfloor_Z in H.
  pose proof (round_half_even_floor q). lia.
Qed.

Lemma round_half_even_le q m :
  (q <= inject_Z m)%Q -> round_half_even q <= m.
Proof.
  intros H. apply Qle_lteq in H. destruct H as [L | E].
  - assert (Qfloor q < m).
    { apply Z.lt_nge. intros G. apply (Qlt_not_le _ _ L).
      apply Qle_trans with (inject_Z (Qfloor q)); [|apply Qfloor_le].
      rewrite <- Zle_Qle. exact G. }
    pose proof (round_half_even_floor q). lia.
  - unfold round_half_even.
    assert (F : Qfloor q = m) by (rewrite E; apply Qfloor_Z). rewrite F.
    assert (C : (q - inject_Z m ?= 1 # 2)%Q = Lt).
    { rewrite E. apply (proj1 (Qlt_alt _ _)).
      setoid_replace (inject_Z m - inject_Z m)%Q with 0%Q by ring. reflexivity. }
    now rewrite C.
Qed.

Lemma floor_log2_small x :
  (x < inject_Z (2 ^ 53))%Q -> floor_log2 x <= 52.
Proof.
  intros H. unfold floor_log2. destruct (Qle_bool 1 x) eqn:E.
  - assert (F : Qfloor x < 2 ^ 53).
    { rewrite Zlt_Qlt. apply Qle_lt_trans with x; [apply Qfloor_le | exact H]. }
    destruct (Z_le_gt_dec (Qfloor x) 0) as [L|G].
    + rewrite Z.log2_nonpos by exact L. lia.
    + apply Z.lt_succ_r. apply Z.log2_lt_pow2; [lia|exact F].
  - pose proof (Z.log2_up_nonneg (Qceiling (/ x))). lia.
Qed.

(** Between two integers of magnitude below [2^53], which binary64
    represents exactly, rounding stays between them. *)
Lemma b64_between A B q :
  - 2 ^ 53 < A -> B < 2 ^ 53 ->
  (inject_Z A <= q)%Q -> (q <= inject_Z B)%Q ->
  exists v, b64 q = Some v /\ (inject_Z A <= v)%Q /\ (v <= inject_Z B)%Q.
Proof.
  intros HA HB Hl Hu. unfold b64.
  set (e := Z.max (floor_log2 (Qabs q) - 52) (-1074)).
  assert (He : e <= 0).
  { subst e. apply Z.max_lub; [|lia].
    assert (Qabs q < inject_Z (2 ^ 53))%Q.
    { apply Qabs_Qlt_condition. split.
      - apply Qlt_le_trans with (inject_Z A); [|exact Hl].
        change (- inject_Z (2 ^ 53))%Q with (inject_Z (- 2 ^ 53)).
        rewrite <- Zlt_Qlt. exact HA.
      - apply Qle_lt_trans with (inject_Z B); [exact Hu|].
        rewrite <- Zlt_Qlt. exact HB. }
    pose proof (floor_log2_small _ H). lia. }
  set (n := round_half_even (q * pow2 (- e))).
  assert (Hk : pow2 (- e) = inject_Z (2 ^ (- e))) by (apply pow2_int; lia).
  assert (Pk : (0 < pow2 (- e))%Q) by apply pow2_pos.
  assert (Pe : (0 < pow2 e)%Q) by apply pow2_pos.
  assert (Ln : A * 2 ^ (- e) <= n).
  { apply round_half_even_ge. rewrite inject_Z_mult, <- Hk.
    apply Qmult_le_compat_r; [exact Hl | apply Qlt_le_weak, Pk]. }
  assert (Un : n <= B * 2 ^ (- e)).
  { apply round_half_even_le. rewrite inject_Z_mult, <- Hk.
    apply Qmult_le_compat_r; [exact Hu | apply Qlt_le_weak, Pk]. }
  assert (Lv : (inject_Z A <= inject_Z n * pow2 e)%Q).
  { apply Qle_trans with (inject_Z (A * 2 ^ (- e)) * pow2 e)%Q.
    - rewrite inject_Z_mult, <- Hk, <- Qmult_assoc, (pow2_inv e He), Qmult_1_r.
      apply Qle_refl.
    - apply Qmult_le_compat_r; [|apply Qlt_le_weak, Pe].
      rewrite <- Zle_Qle. exact Ln. }
  assert (Uv : (inject_Z n * pow2 e <= inject_Z B)%Q).
  { apply Qle_trans with (inject_Z (B * 2 ^ (- e)) * pow2 e)%Q.
    - apply Qmult_le_compat_r; [|apply Qlt_le_weak, Pe].
      rewrite <- Zle_Qle. exact Un.
    - rewrite inject_Z_mult, <- Hk, <- Qmult_assoc, (pow2_inv e He), Qmult_1_r.
      apply Qle_refl. }
  assert (Big : Qle_bool (pow2 1024) (Qabs (inject_Z n * pow2 e)) = false).
  { destruct (Qle_bool _ _) eqn:C; [|reflexivity]. exfalso.
    apply Qle_bool_iff in C.
    assert (Qabs (inject_Z n * pow2 e) <= inject_Z (2 ^ 53))%Q.
    { apply Qabs_Qle_condition. split.
      - apply Qle_trans with (inject_Z A); [|exact Lv].
        change (- inject_Z (2 ^ 53))%Q with (inject_Z (- 2 ^ 53)).
        rewrite <- Zle_Qle. lia.
      - apply Qle_trans with (inject_Z B); [exact Uv|].
        rewrite <- Zle_Qle. lia. }
    assert (P : (inject_Z (2 ^ 53) < pow2 1024)%Q) by (vm_compute; reflexivity).
    apply (Qlt_not_le _ _ P). eapply Qle_trans; eassumption. }
  cbv zeta. fold e. fold n. rewrite Big. eexists. split; [reflexivity|].
  split; assumption.
Qed.

(** The sum computed by [_do_start], for a clock reading that is a
    binary64 number and a delay that binary64 represents exactly: it lies
    between the whole seconds around the exact sum. *)
Lemma float_sum_between now delay K :
  is_b64 now = true -> Z.abs delay < 2 ^ 53 ->
  K = Qfloor now + delay -> - 2 ^ 53 < K -> K + 1 < 2 ^ 53 ->
  exists x, float_sum now delay = Some x /\ K <= Qfloor x <= K + 1.
Proof.
  intros Hn Hd -> HK1 HK2. unfold is_b64 in Hn. unfold float_sum.
  destruct (b64 now) as [a|]; [|discriminate]. apply Qeq_bool_eq in Hn.
  destruct (b64_between delay delay (inject_Z delay))
    as (b & -> & Lb & Ub); try lia; try apply Qle_refl.
  assert (Eb : (b == inject_Z delay)%Q) by (apply Qle_antisym; assumption).
  destruct (b64_between (Qfloor now + delay) (Qfloor now + delay + 1) (a + b))
    as (x & -> & Lx & Ux); try lia.
  - rewrite Hn, Eb, inject_Z_plus. apply Qplus_le_compat; [|apply Qle_refl].
    apply Qfloor_le.
  - rewrite Hn, Eb, !inject_Z_plus, <- Qplus_assoc, (Qplus_comm (inject_Z delay)),
      Qplus_assoc.
    apply Qplus_le_compat; [|apply Qle_refl].
    apply Qlt_le_weak. rewrite <- inject_Z_plus. apply Qlt_floor.
  - exists x. split; [reflexivity|]. split.
    + apply Qfloor_resp_le in Lx. now rewrite Qfloor_Z in Lx.
    + apply Qfloor_resp_le in Ux. now rewrite Qfloor_Z in Ux.
Qed.

(* ================================================================= *)
(** * The calendar *)

(** The calendar conversion is inverse to [days_from_civil], and the
    fields it produces are a date. *)
Lemma civil_from_days_spec z :
  match civil_from_days z with
  | (y, m, d) =>
      days_from_civil y m d = z /\ 1 <= m <= 12 /\ 1 <= d <= 31
  end.
Proof.
  unfold civil_from_days, days_from_civil.
  repeat match goal with
         | |- context [if ?b then _ else _] => destruct b eqn:?
         end.
  all: Z.div_mod_to_equations; lia.
Qed.

(** Bounds on [days_from_civil] by linear arithmetic. *)
Ltac days_bound :=
  unfold days_from_civil;
  repeat match goal with
         | |- context [if ?b then _ else _] => destruct b eqn:?
         end;
  Z.div_mod_to_equations; lia.

Lemma days_from_civil_low y m d :
  1 <= m <= 12 -> 1 <= d <= 31 -> y <= 999 -> days_from_civil y m d < -354285.
Proof. intros Hm Hd Hy. days_bound. Qed.

Lemma days_from_civil_high y m d :
  1 <= m <= 12 -> 1 <= d <= 31 -> 10000 <= y ->
  2932897 <= days_from_civil y m d.
Proof. intros Hm Hd Hy. days_bound. Qed.

Lemma days_from_civil_before y m d :
  1 <= m <= 12 -> 1 <= d <= 31 -> y <= -2147481749 ->
  days_from_civil y m d < -784352321872.
Proof. intros Hm Hd Hy. days_bound. Qed.

Lemma days_from_civil_from y m d :
  1 <= m <= 12 -> 1 <= d <= 31 -> -2147481748 <= y ->
  -784352321872 <= days_from_civil y m d.
Proof. intros Hm Hd Hy. days_bound. Qed.

Lemma days_from_civil_upto y m d :
  1 <= m <= 12 -> 1 <= d <= 31 -> y <= 2147483647 ->
  days_from_civil y m d < 784351576777.
Proof. intros Hm Hd Hy. days_bound. Qed.

Lemma days_from_civil_after y m d :
  1 <= m <= 12 -> 1 <= d <= 31 -> 2147483648 <= y ->
  784351576777 <= days_from_civil y m d.
Proof. intros Hm Hd Hy. days_bound. Qed.

(** Days of the years 1000 to 9999. *)
Lemma civil_from_days_year z :
  -354285 <= z < 2932897 ->
  match civil_from_days z with (y, _, _) => 1000 <= y <= 9999 end.
Proof.
  intros Hz. pose proof (civil_from_days_spec z) as S.
  destruct (civil_from_days z) as [[y m] d]. destruct S as (E & Hm & Hd).
  destruct (Z_le_gt_dec y 999) as [L|L].
  - pose proof (days_from_civil_low y m d Hm Hd L). lia.
  - destruct (Z_le_gt_dec 10000 y) as [G|G]; [|lia].
    pose proof (days_from_civil_high y m d Hm Hd G). lia.
Qed.

Lemma checked_upto (P : Z -> bool) lo n z :
  forallb P (upto lo n) = true -> lo <= z < lo + Z.of_nat n -> P z = true.
Proof.
  intros F H. rewrite forallb_forall in F. apply F. unfold upto.
  apply in_map_iff. exists (Z.to_nat (z - lo)). split; [lia|].
  apply in_seq. lia.
Qed.

Lemma digit_val_digit_char n :
  0 <= n <= 9 -> digit_val (digit_char n) = Some n.
Proof.
  intros H. assert (F : digit_ok n = true).
  { apply (checked_upto digit_ok 0 10); [reflexivity | lia]. }
  unfold digit_ok in F. destruct (digit_val (digit_char n)); [|discriminate].
  apply Z.eqb_eq in F. now subst.
Qed.

Lemma number_of_pad2 n :
  0 <= n <= 99 ->
  exists a b, pad2 n = String a (String b "") /\ number_of [a; b] 0 = Some n.
Proof.
  intros H. exists (digit_char (n / 10)), (digit_char (n mod 10)).
  split; [reflexivity|]. cbn [number_of].
  rewrite !digit_val_digit_char by (Z.div_mod_to_equations; lia).
  f_equal. Z.div_mod_to_equations; lia.
Qed.

Lemma four_digit_years : forallb year_ok (upto 1000 (Z.to_nat 9000)) = true.
Proof. vm_compute. reflexivity. Qed.

Lemma number_of_year y :
  1000 <= y <= 9999 ->
  exists a b c d,
    NilZero.string_of_int (Z.to_int y) =
      String a (String b (String c (String d ""))) /\
    number_of [a; b; c; d] 0 = Some y.
Proof.
  intros H. assert (F : year_ok y = true).
  { apply (checked_upto year_ok 1000 (Z.to_nat 9000));
      [exact four_digit_years | lia]. }
  unfold year_ok in F.
  remember (NilZero.string_of_int (Z.to_int y)) as s eqn:Es. clear Es.
  destruct s as [|a [|b [|c [|d [|e s]]]]]; cbn [list_ascii_of_string] in F;
    try discriminate.
  exists a, b, c, d. split; [reflexivity|].
  destruct (number_of [a; b; c; d] 0) as [v|]; [|discriminate].
  apply Z.eqb_eq in F. now subst.
Qed.

Lemma name_read names read base i :
  name_ok names read base i = true ->
  exists a b c,
    nth (Z.to_nat i) names "?" = String a (String b (String c "")) /\
    read (String a (String b (String c ""))) = Some (i + base).
Proof.
  unfold name_ok. intros F.
  destruct (nth (Z.to_nat i) names "?") as [|a [|b [|c [|d s]]]];
    try discriminate.
  exists a, b, c. split; [reflexivity|].
  destruct (read _) as [j|]; [|discriminate].
  apply Z.eqb_eq in F. now subst.
Qed.

(** The day names of the renderer are read by the decoder. *)
Lemma day_name_read wd :
  0 <= wd <= 6 ->
  exists a b c,
    nth (Z.to_nat wd) day_names "?" = String a (String b (String c "")) /\
    rfc2822_weekday (String a (String b (String c ""))) = Some wd.
Proof.
  intros H.
  destruct (name_read day_names rfc2822_weekday 0 wd) as (a & b & c & E & R).
  { apply (checked_upto (name_ok day_names rfc2822_weekday 0) 0 7);
      [reflexivity | lia]. }
  exists a, b, c. split; [exact E|]. now rewrite Z.add_0_r in R.
Qed.

(** The month names of the renderer are read by the decoder. *)
Lemma month_name_read mon :
  1 <= mon <= 12 ->
  exists a b c,
    nth (Z.to_nat (mon - 1)) month_names "?"
      = String a (String b (String c "")) /\
    rfc2822_month (String a (String b (String c ""))) = Some mon.
Proof.
  intros H.
  destruct (name_read month_names rfc2822_month 1 (mon - 1))
    as (a & b & c & E & R).
  { apply (checked_upto (name_ok month_names rfc2822_month 1) 0 12);
      [reflexivity | lia]. }
  exists a, b, c. split; [exact E|].
  now replace (mon - 1 + 1) with mon in R by lia.
Qed.

Lemma gmtime_seconds_fields t :
  four_digit_year t ->
  exists tm,
    gmtime_seconds t = Some tm /\
    1000 <= tm_year tm <= 9999 /\ 1 <= tm_mon tm <= 12 /\
    1 <= tm_mday tm <= 31 /\
    0 <= tm_hour tm <= 23 /\ 0 <= tm_min tm <= 59 /\ 0 <= tm_sec tm <= 59 /\
    0 <= tm_wday tm <= 6 /\
    tm_wday tm = (days_from_civil (tm_year tm) (tm_mon tm) (tm_mday tm) + 3)
                   mod 7 /\
    days_from_civil (tm_year tm) (tm_mon tm) (tm_mday tm) * 86400
      + tm_hour tm * 3600 + tm_min tm * 60 + tm_sec tm = t.
Proof.
  unfold four_digit_year. intros Ht. unfold gmtime_seconds.
  pose proof (civil_from_days_spec (t / 86400)) as S.
  assert (Hz : -354285 <= t / 86400 < 2932897)
    by (Z.div_mod_to_equations; lia).
  pose proof (civil_from_days_year (t / 86400) Hz) as Y.
  destruct (civil_from_days (t / 86400)) as [[y m] d].
  destruct S as (E & Hm & Hd).
  replace ((-2147483648 <=? y - 1900) && (y - 1900 <=? 2147483647))%bool
    with true by (symmetry; apply andb_true_iff; split; apply Z.leb_le; lia).
  eexists. split; [reflexivity|]. cbn [tm_year tm_mon tm_mday tm_hour tm_min
                                       tm_sec tm_wday].
  rewrite E. repeat split; try lia; Z.div_mod_to_equations; lia.
Qed.

(** The fields [time.gmtime] produces are in their ranges, whatever the
    instant. *)
Lemma gmtime_seconds_valid t tm :
  gmtime_seconds t = Some tm ->
  1 <= tm_mon tm <= 12 /\ 1 <= tm_mday tm <= 31 /\
  0 <= tm_hour tm <= 23 /\ 0 <= tm_min tm <= 59 /\ 0 <= tm_sec tm <= 59 /\
  0 <= tm_wday tm <= 6.
Proof.
  unfold gmtime_seconds.
  pose proof (civil_from_days_spec (t / 86400)) as S.
  destruct (civil_from_days (t / 86400)) as [[y m] d].
  destruct S as (_ & Hm & Hd).
  destruct (_ && _)%bool; [|discriminate].
  intros E. injection E as <-.
  cbn [tm_mon tm_mday tm_hour tm_min tm_sec tm_wday].
  repeat split; try lia; Z.div_mod_to_equations; lia.
Qed.

(** [time.gmtime] followed by [time.strftime] converts exactly the
    representable instants. *)
Lemma rendering_defined format t :
  is_some (match gmtime_seconds t with
           | Some tm => time_strftime format tm
           | None => None
           end) = true <-> representable t.
Proof.
  unfold representable, gmtime_seconds, time_strftime.
  pose proof (civil_from_days_spec (t / 86400)) as S.
  destruct (civil_from_days (t / 86400)) as [[y m] d].
  destruct S as (E & Hm & Hd).
  destruct ((-2147483648 <=? y - 1900) && (y - 1900 <=? 2147483647))%bool eqn:C.
  - cbn [tm_year].
    apply andb_true_iff in C as [C1 C2]. apply Z.leb_le in C1, C2.
    replace (-2147483648 + 1900 <=? y) with true
      by (symmetry; apply Z.leb_le; lia).
    cbn [andb]. destruct (y <=? 2147483647) eqn:C3; cbn [is_some].
    + apply Z.leb_le in C3. split; [intros _ | reflexivity].
      pose proof (days_from_civil_from y m d Hm Hd ltac:(lia)).
      pose proof (days_from_civil_upto y m d Hm Hd ltac:(lia)).
      Z.div_mod_to_equations; lia.
    + apply Z.leb_gt in C3. split; [discriminate|]. intros Ht. exfalso.
      pose proof (days_from_civil_after y m d Hm Hd ltac:(lia)).
      Z.div_mod_to_equations; lia.
  - cbn [is_some]. split; [discriminate|]. intros Ht. exfalso.
    apply andb_false_iff in C as [C | C]; apply Z.leb_gt in C.
    + pose proof (days_from_civil_before y m d Hm Hd ltac:(lia)).
      Z.div_mod_to_equations; lia.
    + pose proof (days_from_civil_after y m d Hm Hd ltac:(lia)).
      Z.div_mod_to_equations; lia.
Qed.

(* ================================================================= *)
(** * The rendering of the start instant *)

Lemma strftime_rfc2822 tm :
  c_strftime rfc2822_format tm =
    nth (Z.to_nat (tm_wday tm)) day_names "?" ++ ", " ++
    pad2 (tm_mday tm) ++ " " ++
    nth (Z.to_nat (tm_mon tm - 1)) month_names "?" ++ " " ++
    NilZero.string_of_int (Z.to_int (tm_year tm)) ++ " " ++
    pad2 (tm_hour tm) ++ ":" ++ pad2 (tm_min tm) ++ ":" ++
    pad2 (tm_sec tm) ++ " +0000".
Proof. reflexivity. Qed.

Lemma rendering_decodes tm :
  1000 <= tm_year tm <= 9999 -> 1 <= tm_mon tm <= 12 ->
  1 <= tm_mday tm <= 31 ->
  0 <= tm_hour tm <= 23 -> 0 <= tm_min tm <= 59 -> 0 <= tm_sec tm <= 59 ->
  0 <= tm_wday tm <= 6 ->
  tm_wday tm = (days_from_civil (tm_year tm) (tm_mon tm) (tm_mday tm) + 3)
                 mod 7 ->
  decode_rfc2822 (c_strftime rfc2822_format tm) =
    Some (days_from_civil (tm_year tm) (tm_mon tm) (tm_mday tm) * 86400
          + tm_hour tm * 3600 + tm_min tm * 60 + tm_sec tm) /\
  String.length (c_strftime rfc2822_format tm) = 31%nat.
Proof.
  intros Hy Hm Hd Hh Hmi Hs Hw Ew. rewrite strftime_rfc2822.
  destruct (day_name_read _ Hw) as (w1 & w2 & w3 & -> & Iw).
  destruct (month_name_read _ Hm) as (b1 & b2 & b3 & -> & Ib).
  destruct (number_of_year _ Hy) as (y1 & y2 & y3 & y4 & -> & Ny).
  destruct (number_of_pad2 (tm_mday tm)) as (d1 & d2 & -> & Nd); [lia|].
  destruct (number_of_pad2 (tm_hour tm)) as (h1 & h2 & -> & Nh); [lia|].
  destruct (number_of_pad2 (tm_min tm)) as (m1 & m2 & -> & Nm); [lia|].
  destruct (number_of_pad2 (tm_sec tm)) as (s1 & s2 & -> & Ns); [lia|].
  split; [|reflexivity].
  cbn [append]. unfold decode_rfc2822.
  cbn [list_ascii_of_string string_of_list_ascii].
  replace (_ =? _)%string with true by reflexivity.
  rewrite Iw, Nd, Ib, Ny, Nh, Nm, Ns.
  rewrite <- Ew, Z.eqb_refl.
  replace (1 <=? tm_mday tm) with true by (symmetry; apply Z.leb_le; lia).
  replace (tm_mday tm <=? 31) with true by (symmetry; apply Z.leb_le; lia).
  replace (tm_hour tm <? 24) with true by (symmetry; apply Z.ltb_lt; lia).
  replace (tm_min tm <? 60) with true by (symmetry; apply Z.ltb_lt; lia).
  replace (tm_sec tm <? 60) with true by (symmetry; apply Z.ltb_lt; lia).
  reflexivity.
Qed.

(** The instant handed out by [_do_start] denotes the second of the sum
    [now + scenario_delay] as Python computes it, in UTC; that second is
    the one of the exact sum or the next one. *)
Lemma start_utc_of_decodes now delay :
  is_b64 now = true -> Z.abs delay < 2 ^ 53 ->
  four_digit_year (Qfloor now + delay) ->
  four_digit_year (Qfloor now + delay + 1) ->
  exists x s,
    float_sum now delay = Some x /\
    Qfloor now + delay <= Qfloor x <= Qfloor now + delay + 1 /\
    start_utc_of now delay = Some s /\
    decode_rfc2822 s = Some (Qfloor x) /\
    String.length s = 31%nat.
Proof.
  intros Hb Hd H1 H2.
  destruct (float_sum_between now delay (Qfloor now + delay) Hb Hd eq_refl)
    as (x & Hx & Hr).
  { unfold four_digit_year in H1. lia. }
  { unfold four_digit_year in H2. lia. }
  assert (H : four_digit_year (Qfloor x))
    by (unfold four_digit_year in *; lia).
  exists x. unfold start_utc_of, time_gmtime. rewrite Hx.
  destruct (gmtime_seconds_fields _ H)
    as (tm & -> & Hy & Hm & Hdy & Hh & Hmi & Hs & Hw & Ew & Et).
  unfold time_strftime.
  replace ((-2147483648 + 1900 <=? tm_year tm) && (tm_year tm <=? 2147483647))%bool
    with true by (symmetry; apply andb_true_iff; split; apply Z.leb_le; lia).
  eexists. split; [reflexivity|]. split; [exact Hr|]. split; [reflexivity|].
  destruct (rendering_decodes tm Hy Hm Hdy Hh Hmi Hs Hw Ew) as [D L].
  fold rfc2822_format. rewrite D, Et. split; [reflexivity|exact L].
Qed.

(** The start instant is defined exactly when the sum can be computed and
    its second is representable. *)
Lemma start_utc_of_defined now delay :
  is_some (start_utc_of now delay) = true <->
  exists x, float_sum now delay = Some x /\ representable (Qfloor x).
Proof.
  unfold start_utc_of, time_gmtime.
  destruct (float_sum now delay) as [x|].
  - rewrite rendering_defined. split.
    + intros H. exists x. split; [reflexivity | exact H].
    + intros (y & E & H). apply Some_inv in E. now subst.
  - cbn [is_some]. split; [discriminate|]. intros (y & E & _). discriminate E.
Qed.

(* ================================================================= *)
(** * The characters of the start instant *)

Lemma all_chars_app p a b :
  all_chars p (a ++ b) = (all_chars p a && all_chars p b)%bool.
Proof.
  induction a as [|c a IH]; [reflexivity|]. cbn. now rewrite IH, andb_assoc.
Qed.

Lemma uint_chars d : all_chars instant_char (NilEmpty.string_of_uint d) = true.
Proof. induction d; cbn [NilEmpty.string_of_uint all_chars]; try rewrite IHd; reflexivity. Qed.

Lemma year_chars y :
  all_chars instant_char (NilZero.string_of_int (Z.to_int y)) = true.
Proof.
  assert (U : forall d, all_chars instant_char (NilZero.string_of_uint d) = true).
  { intros d. destruct d; try apply uint_chars. reflexivity. }
  destruct (Z.to_int y); cbn [NilZero.string_of_int all_chars]; rewrite ?U;
    reflexivity.
Qed.

Lemma pad2_chars n :
  0 <= n <= 99 -> all_chars instant_char (pad2 n) = true.
Proof.
  intros H.
  apply (checked_upto (fun k => all_chars instant_char (pad2 k)) 0 100);
    [vm_compute; reflexivity | lia].
Qed.

Lemma name_chars names i :
  forallb (all_chars instant_char) names = true ->
  0 <= i < Z.of_nat (length names) ->
  all_chars instant_char (nth (Z.to_nat i) names "?") = true.
Proof.
  intros F H. rewrite forallb_forall in F. apply F. apply nth_In. lia.
Qed.

Lemma quotes_app a b : quotes (a ++ b) = (quotes a + quotes b)%nat.
Proof.
  induction a as [|c a IH]; [reflexivity|]. cbn. rewrite IH. lia.
Qed.

Lemma instant_chars_no_quote s :
  all_chars instant_char s = true -> quotes s = 0%nat.
Proof.
  induction s as [|c s IH]; [reflexivity|]. cbn [all_chars quotes].
  rewrite andb_true_iff. intros [C R]. rewrite (IH R).
  destruct (Ascii.eqb_spec c "'") as [->|_]; [discriminate C | reflexivity].
Qed.

Lemma to_uint_not_nil n : Nat.to_uint n <> Decimal.Nil.
Proof.
  intros H. pose proof (Unsigned.of_to n) as E. rewrite H in E.
  destruct n; [discriminate H | discriminate E].
Qed.

(** The count printed by [_do_build] reads back as the length. *)
Lemma str_len_reads_back {A} (l : list A) :
  option_map Nat.of_uint (NilZero.uint_of_string (str_len l)) = Some (length l).
Proof.
  unfold str_len. rewrite NilZero.usu by apply to_uint_not_nil.
  cbn [option_map]. now rewrite Unsigned.of_to.
Qed.

(* ================================================================= *)
(** * Facts on the phases *)

(** What [_do_start] does with the clock and the instant. *)
Lemma start_instant env nodes args f r w' :
  _do_start env nodes args (init f) = (r, w') ->
  (length (clock_reads (trace w')) <= 1)%nat /\
  (r = Val tt ->
   exists now s o1 o2,
     clock_reads (trace w') = [now] /\
     start_utc_of now (scenario_delay args) = Some s /\
     In (EvRun (control env "prestart" [s] args) o1) (trace w') /\
     In (EvRun (control env "start" [s] args) o2) (trace w') /\
     popen_calls (trace w') =
       flat_map (node_launches s) (filter not_host nodes)) /\
  forall e, In e (trace w') -> takes_instant e = true ->
    exists now s,
      clock_reads (trace w') = [now] /\
      start_utc_of now (scenario_delay args) = Some s /\
      carries_instant env args s e.
Proof.
  start_cases.
  all: finish_loops.
  all: cbv beta iota delta [trace fs].
  all: split; [count_reads; lia|].
  all: split;
    [first [intros X; discriminate X
           |intros ->; destruct (Fs eq_refl) as (_ & Fp & _);
            eexists; eexists; eexists; eexists;
            split; [count_reads; reflexivity|];
            split; [eassumption|];
            split; [unfold control; find_event|];
            split; [unfold control; find_event|];
            count_launches; exact Fp]|].
  all: intros ev Hin Ht; crack_in Hin;
    try (exfalso; absurd_in Hin);
    try (subst ev; discriminate Ht).
  all: try (subst ev; eexists; eexists;
            split; [count_reads; reflexivity|];
            split; [eassumption|];
            first [exact (CI_prestart _ _ _ _) | exact (CI_start _ _ _ _)]).
  all: match goal with
       | F : Forall (fanout_event ?s) ?evs, I : In ?e ?evs |- _ =>
           destruct (fanout_segment _ _ _ F I)
             as [(? & ? & ->) | (? & ? & ? & ? & ? & ->)];
           [discriminate Ht|]
       | F : forallb is_mkdir ?evs = true, I : In ?e ?evs |- _ =>
           destruct (mkdir_segment _ _ F I) as (? & ? & ->); discriminate Ht
       end.
  all: eexists; eexists;
    (split; [count_reads; reflexivity|]);
    (split; [eassumption|]); constructor.
Qed.

Lemma start_compose_commands env nodes args f r w' :
  _do_start env nodes args (init f) = (r, w') ->
  forall l o, In (EvRun ("docker" :: l) o) (trace w') ->
              "docker" :: l = compose_up.
Proof.
  start_cases.
  all: finish_loops.
  all: cbv beta iota delta [trace fs].
  all: intros l o Hin; crack_in Hin; try absurd_in Hin.
  all: apply EvRun_inv in Hin as [<- _]; reflexivity.
Qed.

Lemma stop_compose_commands env nodes args f r w' :
  _do_stop env nodes args (init f) = (r, w') ->
  forall l o, In (EvRun ("docker" :: l) o) (trace w') ->
              "docker" :: l = compose_down.
Proof.
  run_all; pair_inv.
  all: cbv beta iota delta [trace]; intros l o Hin; crack_in Hin;
    try discriminate Hin.
  all: apply EvRun_inv in Hin as [<- _]; reflexivity.
Qed.

(** What [_do_start] does to the file system. *)
Lemma start_file_system env nodes args f r w' :
  _do_start env nodes args (init f) = (r, w') ->
  grows f (fs w') /\
  (r = Val tt ->
   is_some (fs w' (lock_file args)) = true /\
   (forall node d, In node nodes -> In d (workspace_dirs node) ->
                   fs w' d = made_dir (f d)) /\
   (forall node, In node nodes -> not_host node = true ->
      is_some (fs w' ("./persist/" ++ node ++ "/var/log/init.log")) = true /\
      is_some (fs w' ("./persist/" ++ node ++ "/var/log/biz_init.log")) = true)) /\
  (forall p flt, ~ In (EvFs (Unlink p) flt) (trace w')) /\
  (forall p o, ~ In (EvRun (rm_rf p) o) (trace w')).
Proof.
  start_cases.
  all: finish_loops.
  all: cbv beta iota delta [trace fs].
  all: split; [solve_grows|].
  all: split;
    [|split;
      [intros p flt H; crack_in H; absurd_in H
      |intros p o H; crack_in H; absurd_in H]].
  all: try (intros X; discriminate X).
  all: intros ->; destruct (Fs eq_refl) as (Fo & _ & Fd);
    destruct (Ls eq_refl) as [Lo Ld].
  all: match goal with
       | Fg : grows ?g ?h |- _ =>
           assert (G : grows f0 h) by solve_grows
       end.
  all: split; [apply (grows_is_some _ _ _ Fg), create_file_self|].
  all: split.
  all: try (intros node d Hn Hd; rewrite <- (Ld node d Hn Hd); apply G;
            rewrite (Ld node d Hn Hd); apply made_dir_some).
  all: intros node Hn Hh; split;
    [ refine (Fd node (_, _) Hn Hh _); left; reflexivity
    | refine (Fd node (_, _) Hn Hh _); right; left; reflexivity ].
Qed.

(** What [_do_clean] does when a call of the Configuration Builder
    raises. *)
Lemma clean_library_failures env nodes_include nodes_exclude args f r w' c text :
  _do_clean env nodes_include nodes_exclude args (init f) = (r, w') ->
  In (EvLib c (LibRaised text)) (trace w') ->
  match c with
  | clean_configuration _ _ =>
      c = clean_configuration nodes_include (manifest args) /\
      r = Exited 1 /\
      exists before,
        trace w' =
          (before ++ [EvLib c (LibRaised text);
                      EvPrint Stderr ("❌ Clean failed: " ++ text)])%list
  | _ =>
      c = nodes_to_manifest nodes_exclude (manifest args) /\
      r = Raised (OtherError text) /\
      (exists before, trace w' = (before ++ [EvLib c (LibRaised text)])%list) /\
      forall l m o, ~ In (EvLib (clean_configuration l m) o) (trace w')
  end.
Proof.
  destruct nodes_exclude as [|x excl].
  - run_all; pair_inv.
    all: cbv beta iota delta [trace]; intros Hin; crack_in Hin;
      try discriminate Hin.
    all: apply EvLib_inv in Hin as [<- Hin]; apply LibRaised_inv in Hin as <-.
    all: cbv beta iota; split; [reflexivity|]; split; [reflexivity|].
    all: eexists;
      first [ exact (eq_refl : [_; _; _] = ([_] ++ [_; _])%list)
            | exact (eq_refl : [_; _; _; _] = ([_; _] ++ [_; _])%list) ].
  - clean_cases.
    all: pair_inv.
    all: cbv beta iota delta [trace]; intros Hin; crack_in Hin;
      try discriminate Hin.
    all: try (destruct (removal_segment _ _ _ _ Ce Hin) as (n & o' & _ & _ & E');
              discriminate E').
    all: apply EvLib_inv in Hin as [<- Hin]; try discriminate Hin;
      apply LibRaised_inv in Hin as <-.
    all: cbv beta iota; split; [reflexivity|]; split; [reflexivity|].
    all: try (match goal with
              | |- exists _, ?e :: ((?x ++ [?a]) ++ [?b]) ++ [?c] = _ =>
                  exists (e :: x ++ [a]); cbn [app]; rewrite <- !app_assoc; reflexivity
              end).
    all: split;
      [ match goal with
        | |- exists _, ?e :: (?x ++ [?a]) = _ => exists (e :: x); reflexivity
        end |].
    all: intros l m o Hin; crack_in Hin; try discriminate Hin.
    all: destruct (removal_segment _ _ _ _ Ce Hin) as (n & o' & _ & _ & E');
      discriminate E'.
Qed.

(** Once the clock is read and the instant is defined, the host control
    pre-start step is run with it. *)
Lemma start_hands_out_instant env nodes args f r w' now s :
  _do_start env nodes args (init f) = (r, w') ->
  In (EvTime now) (trace w') ->
  start_utc_of now (scenario_delay args) = Some s ->
  exists o, In (EvRun (control env "prestart" [s] args) o) (trace w').
Proof.
  start_cases.
  all: finish_loops.
  all: cbv beta iota delta [trace fs].
  all: intros Hin Hs; crack_in Hin; try absurd_in Hin.
  all: apply EvTime_inv in Hin; subst now.
  all: match goal with
       | A : start_utc_of ?n ?d = _, B : start_utc_of ?n ?d = Some _ |- _ =>
           rewrite B in A; first [discriminate A | apply Some_inv in A; subst]
       end.
  all: eexists; unfold control; find_event.
Qed.

(* ================================================================= *)
(** * The properties of the phases *)

(** C1. With the Lock Artifact present and [force] unset, [build], [start]
    and [clean] print the lock and the remedy ([letce2 docker stop] or
    [--force]) on stderr and exit with status 1; the run consists of
    prints only and the file system is untouched: no workspace is created,
    no command is run, the Configuration Builder is not called. *)
Theorem lock_held_aborts_phase env nodes_include nodes_exclude args f :
  In (plugin_subcommand args) ["build"; "start"; "clean"] ->
  is_some (f (lock_file args)) = true ->
  force args = false ->
  exists banner,
    process env nodes_include nodes_exclude args (init f) =
      (Exited 1,
       {| fs := f;
          trace :=
            [EvPrint Stdout "hello";
             EvPrint Stdout banner;
             EvPrint Stderr ("❌ Lock file found: " ++ lock_file args);
             EvPrint Stderr
               "   Run `letce2 docker stop` first or use '--force'"] |}).
Proof.
  intros Hsub Hlock Hforce. cbn [In] in Hsub.
  destruct Hsub as [S | [S | [S | []]]]; eexists;
    cbv beta iota zeta delta [process bind print record init fs trace];
    rewrite <- S; cbn [String.eqb Ascii.eqb Bool.eqb app];
    reduce_run; rewrite Hlock, Hforce; reflexivity.
Qed.

(** C1 on a running experiment: [start] without [--force]. *)
Lemma lock_held_aborts_phase_witness :
  exists banner,
    process calm_env ["node-1"] [] (args_of "start" false) (init running_fs) =
      (Exited 1,
       {| fs := running_fs;
          trace :=
            [EvPrint Stdout "hello";
             EvPrint Stdout banner;
             EvPrint Stderr "❌ Lock file found: /var/run/lock/letce.lock";
             EvPrint Stderr
               "   Run `letce2 docker stop` first or use '--force'"] |}).
Proof.
  apply (lock_held_aborts_phase calm_env ["node-1"] []
           (args_of "start" false) running_fs).
  - right. left. reflexivity.
  - reflexivity.
  - reflexivity.
Defined.

(** C2. A [start] whose group definition artifact is missing (and is not
    made by the workspace loop), or whose container bring-up fails (a
    non-zero status, or the command could not be launched), ends with a
    non-zero exit status and has touched no file: the Lock Artifact was
    not created, and a lock path that was absent before, and that is no
    workspace directory nor an ancestor of one, is absent afterwards. *)
Theorem start_lock_only_after_bring_up env nodes args f r w' :
  _do_start env nodes args (init f) = (r, w') ->
  (f compose_path = None /\ off_workspaces (getcwd env) nodes compose_path) \/
  bring_up_failed (trace w') ->
  exit_status r <> 0 /\
  (forall p flt, ~ In (EvFs (Touch p) flt) (trace w')) /\
  (off_workspaces (getcwd env) nodes (lock_file args) ->
   f (lock_file args) = None -> fs w' (lock_file args) = None).
Proof.
  start_cases.
  all: finish_loops.
  all: cbv beta iota delta [trace fs exit_status].
  all: intros Hfail.
  all: try (split; [easy|]; split;
    [intros p flt H; crack_in H; absurd_in H
    |intros Ho Hl; no_effect; rewrite ?Lf by exact Ho; exact Hl]).
  all: exfalso; destruct Hfail as [[Hc Ho] | (o & Hin & Hno)];
    [rewrite (Lf _ Ho), Hc in *; discriminate|].
  all: crack_in Hin; try absurd_in Hin.
  all: apply EvRun_inv in Hin as [_ <-];
    match goal with
    | Z0 : (?rc =? 0) = true |- _ => apply Z.eqb_eq in Z0; subst rc
    end; eapply Hno; reflexivity.
Qed.

(** C2 on a built experiment whose [docker compose up] ends with status 1. *)
Lemma start_lock_only_after_bring_up_witness :
  exit_status (fst failed_start) <> 0 /\
  (forall p flt, ~ In (EvFs (Touch p) flt) (trace (snd failed_start))) /\
  (off_workspaces "/home/letce/exp-01" ["host"; "node-1"]
     "/var/run/lock/letce.lock" ->
   built_fs "/var/run/lock/letce.lock" = None ->
   fs (snd failed_start) "/var/run/lock/letce.lock" = None).
Proof.
  apply (start_lock_only_after_bring_up
           (env_with (failing 4 "up") (fun _ => Launched 0))
           ["host"; "node-1"] (args_of "start" false) built_fs
           (fst failed_start) (snd failed_start)).
  - exact (surjective_pairing failed_start).
  - right. exists (Returned 1 "exit status 1"). split.
    + in_computed.
    + intros err H. discriminate H.
Defined.

(** The lock path of the examples is off the workspaces, and after that
    failed start it is absent. *)
Example failed_start_leaves_no_lock :
  off_workspaces "/home/letce/exp-01" ["host"; "node-1"]
    "/var/run/lock/letce.lock" /\
  fs (snd failed_start) "/var/run/lock/letce.lock" = None /\
  fs (snd failed_start) "persist/node-1/var/log" = Some Dir.
Proof.
  split; [|vm_compute; split; reflexivity].
  intros node d [<- | [<- | []]] [<- | [<- | [<- | []]]]; vm_compute; reflexivity.
Qed.

(** C3 as stated fails: a forced [stop] whose [docker compose down] ends
    with status 1 runs the host control stop step and restores the
    scheduling constraint, and ends normally, but the Lock Artifact that
    existed before is still there. *)
Lemma forced_stop_keeps_lock :
  force (args_of "stop" true) = true /\
  fst forced_stop = Val tt /\
  effects (trace (snd forced_stop)) =
    [EvRun compose_down (Returned 1 "exit status 1");
     EvRun ["sudo"; "host/control"; "stop"; "/home/letce/exp-01"; ""]
       (Returned 0 "");
     EvRun restore_rt (Returned 0 "")] /\
  running_fs "/var/run/lock/letce.lock" = Some File /\
  fs (snd forced_stop) "/var/run/lock/letce.lock" = Some File.
Proof. vm_compute. repeat split. Qed.

(** C3, amended. In a forced [stop] whose container-down command ends with
    a non-zero status, the operations performed are the down command, the
    host control stop step and, unless that step could not be launched,
    the restoration of the scheduling constraint, in this order; the file
    system is left as it was: the Lock Artifact is not removed. *)
Theorem stop_forced_past_failed_down env nodes args f r w' rc err :
  force args = true ->
  _do_stop env nodes args (init f) = (r, w') ->
  In (EvRun compose_down (Returned rc err)) (trace w') -> rc <> 0 ->
  (exists o2 o3,
     effects (trace w') =
       ([EvRun compose_down (Returned rc err);
         EvRun (control env "stop" [] args) o2] ++
        match o2 with
        | SpawnFailed _ => []
        | Returned _ _ => [EvRun restore_rt o3]
        end)%list) /\
  (forall q, fs w' q = f q).
Proof.
  intros Hforce. rewrite <- (negb_involutive (force args)) in Hforce.
  apply negb_true_iff in Hforce. cbv beta iota delta [negb] in Hforce.
  run_all; pair_inv.
  all: cbv beta iota delta [trace fs]; intros Hin Hrc.
  all: try (rewrite Hforce in *; discriminate).
  all: crack_in Hin; try discriminate Hin.
  all: try (apply EvRun_inv in Hin as [_ Hin];
            apply Returned_inv in Hin as [-> ->];
            match goal with
            | Z0 : (?rc =? 0) = true |- _ =>
                apply Z.eqb_eq in Z0; now destruct Hrc
            end).
  all: apply EvRun_inv in Hin as [_ Hin]; apply Returned_inv in Hin as [-> ->].
  all: split; [|intros q; no_effect; reflexivity].
  all: cbn [effects filter is_print negb app].
  all: match goal with
       | |- exists _ _, [_; EvRun _ ?b; EvRun _ ?c] = _ =>
           exists b, c; reflexivity
       | |- exists _ _, [_; EvRun _ ?b] = _ =>
           exists b, b; reflexivity
       end.
Qed.

(** C3, amended, on the run of the counterexample. *)
Lemma stop_forced_past_failed_down_witness :
  (exists o2 o3,
     effects (trace (snd forced_stop)) =
       ([EvRun compose_down (Returned 1 "exit status 1");
         EvRun (control (env_with (failing 4 "down") (fun _ => Launched 0))
                  "stop" [] (args_of "stop" true)) o2] ++
        match o2 with
        | SpawnFailed _ => []
        | Returned _ _ => [EvRun restore_rt o3]
        end)%list) /\
  (forall q, fs (snd forced_stop) q = running_fs q).
Proof.
  apply (stop_forced_past_failed_down
           (env_with (failing 4 "down") (fun _ => Launched 0))
           ["host"; "node-1"] (args_of "stop" true) running_fs
           (fst forced_stop) (snd forced_stop) 1 "exit status 1").
  - reflexivity.
  - exact (surjective_pairing forced_stop).
  - in_computed.
  - discriminate.
Defined.

(** C4 fails on the code: the host control pre-start step ends with status
    1, and [start] goes on with the bridge, the scheduling constraint, the
    host control start step and the fan-out, and ends with exit status 0.
    The four steps are run without [check=True], so that the handler
    around them only sees a command that could not be launched. *)
Theorem start_ignores_failed_prestart :
  fst start_with_failed_prestart = Val tt /\
  exit_status (fst start_with_failed_prestart) = 0 /\
  effects (trace (snd start_with_failed_prestart)) =
    [EvFs (Mkdir "persist/host/var/run") None;
     EvFs (Mkdir "persist/host/var/log") None;
     EvFs (Mkdir "persist/host/var/tmp") None;
     EvFs (Mkdir "persist/node-1/var/run") None;
     EvFs (Mkdir "persist/node-1/var/log") None;
     EvFs (Mkdir "persist/node-1/var/tmp") None;
     EvRun compose_up (Returned 0 "");
     EvFs (Mkdir "/var/run/lock") None;
     EvFs (Touch "/var/run/lock/letce.lock") None;
     EvTime (1727876660 # 1)%Q;
     EvRun ["sudo"; "host/control"; "prestart"; "/home/letce/exp-01"; "";
            "Wed, 02 Oct 2024 13:45:00 +0000"]
       (Returned 1 "exit status 1");
     EvRun bridge_start (Returned 0 "");
     EvRun relax_rt (Returned 0 "");
     EvRun ["sudo"; "host/control"; "start"; "/home/letce/exp-01"; "";
            "Wed, 02 Oct 2024 13:45:00 +0000"]
       (Returned 0 "");
     EvFs (OpenW "./persist/node-1/var/log/init.log") None;
     EvPopen
       ["docker"; "exec"; "letce2-node-1-emane"; "bash"; "-c";
        "/experiment/node-1/init /experiment node-1 '' 'Wed, 02 Oct 2024 13:45:00 +0000'"]
       "./persist/node-1/var/log/init.log" (Launched 0);
     EvFs (OpenW "./persist/node-1/var/log/biz_init.log") None;
     EvPopen
       ["docker"; "exec"; "letce2-node-1-biz"; "bash"; "-c";
        "/experiment/node-1/biz-init /experiment node-1 '' 'Wed, 02 Oct 2024 13:45:00 +0000'"]
       "./persist/node-1/var/log/biz_init.log" (Launched 0)].
Proof. vm_compute. repeat split. Qed.

(** C5. A [start] reads the clock at most once. When it runs to its end
    it has read the clock exactly once, and the one string rendered from
    that reading is the last argument of the host control pre-start and
    start steps it ran and the instant of the two launches of every node
    but [host], which are all the launches of the run. Whenever a host
    control step or a launch is made, also in a run that fails later, it
    is handed the string rendered from the one clock reading. *)
Theorem start_instant_computed_once env nodes args f r w' :
  _do_start env nodes args (init f) = (r, w') ->
  (length (clock_reads (trace w')) <= 1)%nat /\
  (r = Val tt ->
   exists now s o1 o2,
     clock_reads (trace w') = [now] /\
     start_utc_of now (scenario_delay args) = Some s /\
     In (EvRun (control env "prestart" [s] args) o1) (trace w') /\
     In (EvRun (control env "start" [s] args) o2) (trace w') /\
     popen_calls (trace w') =
       flat_map (node_launches s) (filter not_host nodes)) /\
  forall e, In e (trace w') -> takes_instant e = true ->
    exists now s,
      clock_reads (trace w') = [now] /\
      start_utc_of now (scenario_delay args) = Some s /\
      carries_instant env args s e.
Proof. apply start_instant. Qed.

(** C5 on a start in which everything succeeds. *)
Lemma start_instant_computed_once_witness :
  (length (clock_reads (trace (snd calm_start))) <= 1)%nat /\
  (fst calm_start = Val tt ->
   exists now s o1 o2,
     clock_reads (trace (snd calm_start)) = [now] /\
     start_utc_of now 40 = Some s /\
     In (EvRun (control calm_env "prestart" [s] (args_of "start" false)) o1)
        (trace (snd calm_start)) /\
     In (EvRun (control calm_env "start" [s] (args_of "start" false)) o2)
        (trace (snd calm_start)) /\
     popen_calls (trace (snd calm_start)) =
       flat_map (node_launches s)
                (filter not_host ["host"; "node-1"; "node-2"])) /\
  forall e, In e (trace (snd calm_start)) -> takes_instant e = true ->
    exists now s,
      clock_reads (trace (snd calm_start)) = [now] /\
      start_utc_of now 40 = Some s /\
      carries_instant calm_env (args_of "start" false) s e.
Proof.
  apply (start_instant_computed_once calm_env ["host"; "node-1"; "node-2"]
           (args_of "start" false) built_fs
           (fst calm_start) (snd calm_start)).
  exact (surjective_pairing calm_start).
Defined.

(** The commands of that start that are handed the instant, evaluated. *)
Example calm_start_instants :
  fst calm_start = Val tt /\
  clock_reads (trace (snd calm_start)) = [(1727876660 # 1)%Q] /\
  In (EvRun ["sudo"; "host/control"; "prestart"; "/home/letce/exp-01"; "";
             "Wed, 02 Oct 2024 13:45:00 +0000"] (Returned 0 ""))
     (trace (snd calm_start)) /\
  In (EvRun ["sudo"; "host/control"; "start"; "/home/letce/exp-01"; "";
             "Wed, 02 Oct 2024 13:45:00 +0000"] (Returned 0 ""))
     (trace (snd calm_start)) /\
  popen_calls (trace (snd calm_start)) =
    [(["docker"; "exec"; "letce2-node-1-emane"; "bash"; "-c";
       "/experiment/node-1/init /experiment node-1 '' 'Wed, 02 Oct 2024 13:45:00 +0000'"],
      "./persist/node-1/var/log/init.log");
     (["docker"; "exec"; "letce2-node-1-biz"; "bash"; "-c";
       "/experiment/node-1/biz-init /experiment node-1 '' 'Wed, 02 Oct 2024 13:45:00 +0000'"],
      "./persist/node-1/var/log/biz_init.log");
     (["docker"; "exec"; "letce2-node-2-emane"; "bash"; "-c";
       "/experiment/node-2/init /experiment node-2 '' 'Wed, 02 Oct 2024 13:45:00 +0000'"],
      "./persist/node-2/var/log/init.log");
     (["docker"; "exec"; "letce2-node-2-biz"; "bash"; "-c";
       "/experiment/node-2/biz-init /experiment node-2 '' 'Wed, 02 Oct 2024 13:45:00 +0000'"],
      "./persist/node-2/var/log/biz_init.log")].
Proof.
  split; [vm_compute; reflexivity|]. split; [vm_compute; reflexivity|].
  split; [in_computed|]. split; [in_computed|]. vm_compute. reflexivity.
Qed.

(** C6. The instant of a [start] that read the clock at the binary64
    number [now] is the rendering of the sum [now + scenario_delay] as
    Python computes it, a binary64 number again, cut to its whole second:
    a 31-character RFC 2822 text with day name, month name and zone
    [+0000] that an independent decoder reads back as that second, in
    UTC. The second is the one of the exact sum or, when the rounding of
    the sum crosses a whole second, the next one. This is for delays that
    binary64 represents exactly and instants of the years 1000 to 9999,
    whose year has four digits. The string is the last argument of the
    host control pre-start step, which the run has made, and the one every
    host control step and launch of the run is handed. *)
Theorem start_instant_is_now_plus_delay env nodes args f r w' now :
  _do_start env nodes args (init f) = (r, w') ->
  In (EvTime now) (trace w') ->
  is_b64 now = true ->
  Z.abs (scenario_delay args) < 2 ^ 53 ->
  four_digit_year (Qfloor now + scenario_delay args) ->
  four_digit_year (Qfloor now + scenario_delay args + 1) ->
  exists x s,
    float_sum now (scenario_delay args) = Some x /\
    Qfloor now + scenario_delay args <= Qfloor x
      <= Qfloor now + scenario_delay args + 1 /\
    start_utc_of now (scenario_delay args) = Some s /\
    decode_rfc2822 s = Some (Qfloor x) /\
    String.length s = 31%nat /\
    (exists o, In (EvRun (control env "prestart" [s] args) o) (trace w')) /\
    forall e, In e (trace w') -> takes_instant e = true ->
              carries_instant env args s e.
Proof.
  intros Hrun Hnow Hb Hd H1 H2.
  destruct (start_utc_of_decodes now (scenario_delay args) Hb Hd H1 H2)
    as (x & s & Hx & Hr & Hs & Hdec & Hl).
  exists x, s. repeat (split; [assumption|]).
  split; [exact (start_hands_out_instant _ _ _ _ _ _ _ _ Hrun Hnow Hs)|].
  intros e He Ht.
  destruct (start_instant _ _ _ _ _ _ Hrun) as (_ & _ & H).
  destruct (H e He Ht) as (now' & s' & Hreads & Hs' & Hc).
  apply in_clock_reads in Hnow. rewrite Hreads in Hnow.
  destruct Hnow as [<- | []]. rewrite Hs in Hs'.
  apply Some_inv in Hs'. subst s'. exact Hc.
Qed.

(** C6 on a start at 2024-10-02 13:44:20 UTC with a delay of 40 seconds. *)
Lemma start_instant_is_now_plus_delay_witness :
  exists x s,
    float_sum (1727876660 # 1)%Q 40 = Some x /\
    Qfloor (1727876660 # 1)%Q + 40 <= Qfloor x
      <= Qfloor (1727876660 # 1)%Q + 40 + 1 /\
    start_utc_of (1727876660 # 1)%Q 40 = Some s /\
    decode_rfc2822 s = Some (Qfloor x) /\
    String.length s = 31%nat /\
    (exists o, In (EvRun (control calm_env "prestart" [s]
                            (args_of "start" false)) o)
                  (trace (snd calm_start))) /\
    forall e, In e (trace (snd calm_start)) -> takes_instant e = true ->
              carries_instant calm_env (args_of "start" false) s e.
Proof.
  apply (start_instant_is_now_plus_delay calm_env
           ["host"; "node-1"; "node-2"] (args_of "start" false) built_fs
           (fst calm_start) (snd calm_start) (1727876660 # 1)%Q).
  - exact (surjective_pairing calm_start).
  - in_computed.
  - vm_compute. reflexivity.
  - vm_compute. reflexivity.
  - split; [apply Z.leb_le | apply Z.ltb_lt]; reflexivity.
  - split; [apply Z.leb_le | apply Z.ltb_lt]; reflexivity.
Defined.

(** The example of the specification. *)
Example start_utc_example :
  start_utc_of (1727876660 # 1)%Q 40
    = Some "Wed, 02 Oct 2024 13:45:00 +0000" /\
  decode_rfc2822 "Wed, 02 Oct 2024 13:45:00 +0000" = Some 1727876700.
Proof. vm_compute. split; reflexivity. Qed.

(** The sum is rounded as binary64 sums are: at 2106-02-07 06:28:15 and
    a fraction of 2^-22 below the next second, on a clock reading of
    2^31 - 2^-22 seconds and a delay of 2^31 seconds, the exact sum is not
    a binary64 number and the instant is the next second. *)
Example start_utc_rounds_up :
  is_b64 (9007199254740991 # 4194304)%Q = true /\
  Qfloor (9007199254740991 # 4194304)%Q + 2147483648 = 4294967295 /\
  option_map Qfloor (float_sum (9007199254740991 # 4194304)%Q 2147483648)
    = Some 4294967296 /\
  start_utc_of (9007199254740991 # 4194304)%Q 2147483648
    = Some "Sun, 07 Feb 2106 06:28:16 +0000".
Proof. vm_compute. repeat split. Qed.

(** C7 as stated fails: in a [stop] in which everything succeeds the Lock
    Artifact is removed right after the container-down command, before
    the host control stop step. *)
Lemma stop_removes_lock_before_release :
  fst calm_stop = Val tt /\
  effects (trace (snd calm_stop)) =
    [EvRun compose_down (Returned 0 "");
     EvFs (Unlink "/var/run/lock/letce.lock") None;
     EvRun ["sudo"; "host/control"; "stop"; "/home/letce/exp-01"; ""]
       (Returned 0 "");
     EvRun restore_rt (Returned 0 "")].
Proof. vm_compute. repeat split. Qed.

(** C7, amended. The operations of a [stop] that runs to its end are, in
    this order: the container-down command; the removal of the Lock
    Artifact, when the down command succeeded and the artifact exists;
    the host control stop step; the restoration of the scheduling
    constraint. *)
Theorem stop_order env nodes args f w' :
  _do_stop env nodes args (init f) = (Val tt, w') ->
  exists o1 o2 o3,
    effects (trace w') =
      ([EvRun compose_down o1] ++
       (if (succeeded o1 && is_some (f (lock_file args)))%bool
        then [EvFs (Unlink (lock_file args)) None] else []) ++
       [EvRun (control env "stop" [] args) o2; EvRun restore_rt o3])%list.
Proof.
  run_all; pair_inv; try discriminate.
  all: cbv beta iota delta [trace]; cbn [effects filter is_print negb].
  all: match goal with
       | |- exists _ _ _, [EvRun _ ?a; _; EvRun _ ?b; EvRun _ ?c] = _ =>
           exists a, b, c
       | |- exists _ _ _, [EvRun _ ?a; EvRun _ ?b; EvRun _ ?c] = _ =>
           exists a, b, c
       end.
  all: repeat match goal with
         | Z0 : (?rc =? 0) = true |- _ => apply Z.eqb_eq in Z0; subst rc
         | Z0 : (?rc =? 0) = false |- _ => apply Z.eqb_neq in Z0
         | H : context [command_effect _ _ _ _] |- _ =>
             rewrite command_effect_docker in H
         end.
  all: cbn [succeeded andb app];
    repeat match goal with
           | H : is_some ?x = _ |- context [is_some ?x] => rewrite H
           end;
    try reflexivity.
  all: match goal with
       | N : ?rc <> 0 |- _ => destruct rc; [now destruct N | |]; reflexivity
       end.
Qed.

(** C7, amended, on the run of the counterexample. *)
Lemma stop_order_witness :
  exists o1 o2 o3,
    effects (trace (snd calm_stop)) =
      ([EvRun compose_down o1] ++
       (if (succeeded o1
            && is_some (running_fs (lock_file (args_of "stop" false))))%bool
        then [EvFs (Unlink (lock_file (args_of "stop" false))) None]
        else []) ++
       [EvRun (control calm_env "stop" [] (args_of "stop" false)) o2;
        EvRun restore_rt o3])%list.
Proof.
  apply (stop_order calm_env ["host"; "node-1"] (args_of "stop" false)
           running_fs (snd calm_stop)).
  apply (computed_run calm_stop). vm_compute. reflexivity.
Defined.




(** The partial clean of that run, evaluated: the workspace of [node-1]
    is gone under each of its names, the one of [node-2] is kept. *)
Example partial_clean_example :
  fs (snd partial_clean) "persist/node-1" = None /\
  fs (snd partial_clean) "persist/node-1/var" = None /\
  stopped_fs "./persist/node-1/var" = Some Dir /\
  fs (snd partial_clean) "./persist/node-1/var" = None /\
  fs (snd partial_clean) "persist/node-2" = Some Dir /\
  fs (snd partial_clean) "persist/node-2/var" = Some Dir /\
  fs (snd partial_clean) "persist" = Some Dir.
Proof. vm_compute. repeat split. Qed.

(** A full clean after a start removes the log files the start opened
    as [./persist/<node>/var/log/...], and nothing outside [persist]. *)
Example full_clean_removes_logs :
  fst full_clean_after_start = Val tt /\
  fs (snd calm_start) "./persist/node-1/var/log/init.log" = Some File /\
  fs (snd full_clean_after_start) "./persist/node-1/var/log/init.log" = None /\
  fs (snd full_clean_after_start) "persist/node-2/var/tmp" = None /\
  fs (snd full_clean_after_start) "host/docker-compose.yml" = Some File /\
  fs (snd full_clean_after_start) "/var/run/lock/letce.lock" = Some File.
Proof. vm_compute. repeat split. Qed.

(** C9. In a [start] that reaches the fan-out and in which every log
    file is opened and every initializer is started, whatever the exit
    status an initializer ends with: the launches are, in the order of
    the Node Set and skipping [host], the network initializer and the
    business initializer of each node, each with its own log file and the
    start instant, and [start] ends normally with exit status 0. An
    initializer that fails (its output goes to its log file) changes
    neither the launches of the other nodes nor the outcome. *)
Theorem start_fan_out env nodes args f r w' :
  _do_start env nodes args (init f) = (r, w') ->
  In (EvPrint Stdout "🚀 Initializing nodes...") (trace w') ->
  existsb launch_fault (trace w') = false ->
  r = Val tt /\ exit_status r = 0 /\
  exists now s,
    clock_reads (trace w') = [now] /\
    start_utc_of now (scenario_delay args) = Some s /\
    popen_calls (trace w') = flat_map (node_launches s) (filter not_host nodes).
Proof.
  start_cases.
  all: finish_loops.
  all: cbv beta iota delta [trace fs].
  all: intros Hin Hok.
  all: try (exfalso; crack_in Hin; absurd_in Hin).
  all: apply existsb_app_false in Hok; pose proof (Fn Hok) as ->.
  all: destruct (Fs eq_refl) as (_ & Hp & _).
  all: split; [reflexivity|]; split; [reflexivity|]; eexists; eexists.
  all: split; [count_reads; reflexivity|].
  all: split; [eassumption|].
  all: count_launches; exact Hp.
Qed.

(** C9 on a start in which the two initializers of [node-1] fail. *)
Lemma start_fan_out_witness :
  fst start_with_failing_initializers = Val tt /\
  exit_status (fst start_with_failing_initializers) = 0 /\
  exists now s,
    clock_reads (trace (snd start_with_failing_initializers)) = [now] /\
    start_utc_of now 40 = Some s /\
    popen_calls (trace (snd start_with_failing_initializers)) =
      flat_map (node_launches s)
               (filter not_host ["host"; "node-1"; "node-2"]).
Proof.
  apply (start_fan_out (env_with (fun _ => Returned 0 "") failing_initializers)
           ["host"; "node-1"; "node-2"]
           (args_of "start" false) built_fs
           (fst start_with_failing_initializers)
           (snd start_with_failing_initializers)).
  - exact (surjective_pairing start_with_failing_initializers).
  - in_computed.
  - vm_compute. reflexivity.
Defined.

(** The launches of that run: those of [node-1] end with status 1,
    those of [node-2] are made all the same. *)
Example failing_initializers_example :
  fst start_with_failing_initializers = Val tt /\
  filter is_popen (trace (snd start_with_failing_initializers)) =
    [EvPopen
       ["docker"; "exec"; "letce2-node-1-emane"; "bash"; "-c";
        "/experiment/node-1/init /experiment node-1 '' 'Wed, 02 Oct 2024 13:45:00 +0000'"]
       "./persist/node-1/var/log/init.log" (Launched 1);
     EvPopen
       ["docker"; "exec"; "letce2-node-1-biz"; "bash"; "-c";
        "/experiment/node-1/biz-init /experiment node-1 '' 'Wed, 02 Oct 2024 13:45:00 +0000'"]
       "./persist/node-1/var/log/biz_init.log" (Launched 1);
     EvPopen
       ["docker"; "exec"; "letce2-node-2-emane"; "bash"; "-c";
        "/experiment/node-2/init /experiment node-2 '' 'Wed, 02 Oct 2024 13:45:00 +0000'"]
       "./persist/node-2/var/log/init.log" (Launched 0);
     EvPopen
       ["docker"; "exec"; "letce2-node-2-biz"; "bash"; "-c";
        "/experiment/node-2/biz-init /experiment node-2 '' 'Wed, 02 Oct 2024 13:45:00 +0000'"]
       "./persist/node-2/var/log/biz_init.log" (Launched 0)].
Proof. vm_compute. split; reflexivity. Qed.

(** An initializer that cannot be started at all is another matter: the
    exception of [Popen] is not caught, [start] ends with it and the
    nodes that follow get no launch. *)
Example launch_error_aborts_fan_out :
  fst start_with_refused_launch =
    Raised (OtherError "[Errno 11] Resource temporarily unavailable") /\
  exit_status (fst start_with_refused_launch) = 1 /\
  not_host "node-2" = true /\
  popen_calls (trace (snd start_with_refused_launch)) =
    [(["docker"; "exec"; "letce2-node-1-emane"; "bash"; "-c";
       "/experiment/node-1/init /experiment node-1 '' 'Wed, 02 Oct 2024 13:45:00 +0000'"],
      "./persist/node-1/var/log/init.log")].
Proof. vm_compute. repeat split. Qed.

(** C10. The value of [--compose-file] changes nothing: [process],
    [_do_start] and [_do_stop] are the same functions of the world for
    any two values of it, and every [docker] command of a start or a stop
    is the compose command on [host/docker-compose.yml]. *)
Theorem compose_file_option_ignored env nodes_include nodes_exclude args c1 c2 f :
  (forall w,
      process env nodes_include nodes_exclude (with_compose_file c1 args) w =
      process env nodes_include nodes_exclude (with_compose_file c2 args) w) /\
  (forall w,
      _do_start env nodes_include (with_compose_file c1 args) w =
      _do_start env nodes_include (with_compose_file c2 args) w) /\
  (forall w,
      _do_stop env nodes_include (with_compose_file c1 args) w =
      _do_stop env nodes_include (with_compose_file c2 args) w) /\
  (forall r w' l o,
      _do_start env nodes_include (with_compose_file c1 args) (init f)
        = (r, w') ->
      In (EvRun ("docker" :: l) o) (trace w') ->
      "docker" :: l = ["docker"; "compose"; "-f"; "host/docker-compose.yml";
                       "up"; "-d"]) /\
  (forall r w' l o,
      _do_stop env nodes_include (with_compose_file c1 args) (init f)
        = (r, w') ->
      In (EvRun ("docker" :: l) o) (trace w') ->
      "docker" :: l = ["docker"; "compose"; "-f"; "host/docker-compose.yml";
                       "down"]).
Proof.
  split; [reflexivity|]. split; [reflexivity|]. split; [reflexivity|].
  split.
  - intros r w' l o Hrun. exact (start_compose_commands _ _ _ _ _ _ Hrun l o).
  - intros r w' l o Hrun. exact (stop_compose_commands _ _ _ _ _ _ Hrun l o).
Qed.

(* ================================================================= *)
(** * Facts for the further properties *)

Lemma ends_here ev after :
  forallb is_print after = true -> ends_with (ev :: after) ev.
Proof. intros H. exists [], after. now split. Qed.

Lemma ends_cons e tr ev : ends_with tr ev -> ends_with (e :: tr) ev.
Proof. intros (b & a & -> & H). exists (e :: b), a. now split. Qed.

Lemma ends_app_r a b ev : ends_with b ev -> ends_with (a ++ b) ev.
Proof.
  intros (x & y & -> & H). exists (a ++ x)%list, y.
  split; [apply app_assoc | exact H].
Qed.

Lemma ends_app_l a b ev :
  ends_with a ev -> forallb is_print b = true -> ends_with (a ++ b) ev.
Proof.
  intros (x & y & -> & H) P. exists x, (y ++ b)%list. split.
  - now rewrite <- app_assoc.
  - now rewrite forallb_app, H, P.
Qed.

Lemma ends_last before ev : ends_with (before ++ [ev]) ev.
Proof. exists before, []. now split. Qed.

(** Finds the event a trace ends with, prints apart. *)
Ltac find_end :=
  lazymatch goal with
  | |- ends_with (?b ++ [?e]) ?e => apply ends_last
  | |- ends_with (?e :: ?a) ?e => apply ends_here; reflexivity
  | |- ends_with (_ :: _) _ => apply ends_cons; find_end
  | |- ends_with (_ ++ _) _ =>
      first [ apply ends_app_l; [find_end | reflexivity]
            | apply ends_app_r; find_end ]
  end.

(* ================================================================= *)
(** * Further properties of the phases *)

(** X1. With a sub-command other than [build], [start], [stop] and
    [clean], [process] prints [hello], reports the unknown sub-command on
    stderr and exits with status 1; it does nothing else and leaves the
    file system as it was. *)
Theorem process_unknown_subcommand env nodes_include nodes_exclude args f :
  ~ In (plugin_subcommand args) ["build"; "start"; "stop"; "clean"] ->
  process env nodes_include nodes_exclude args (init f) =
    (Exited 1,
     {| fs := f;
        trace := [EvPrint Stdout "hello";
                  EvPrint Stderr
                    ("❌ Unknown subcommand: " ++ plugin_subcommand args)] |}).
Proof.
  intros H. cbn [In] in H.
  unfold process.
  destruct (String.eqb_spec (plugin_subcommand args) "build") as [E|_];
    [exfalso; apply H; auto|].
  destruct (String.eqb_spec (plugin_subcommand args) "start") as [E|_];
    [exfalso; apply H; auto|].
  destruct (String.eqb_spec (plugin_subcommand args) "stop") as [E|_];
    [exfalso; apply H; auto 6|].
  destruct (String.eqb_spec (plugin_subcommand args) "clean") as [E|_];
    [exfalso; apply H; auto 6|].
  reflexivity.
Qed.

(** X1 on the sub-command [restart]. *)
Lemma process_unknown_subcommand_witness :
  unknown_phase =
    (Exited 1,
     {| fs := built_fs;
        trace := [EvPrint Stdout "hello";
                  EvPrint Stderr "❌ Unknown subcommand: restart"] |}).
Proof.
  apply (process_unknown_subcommand calm_env ["node-1"] []
           (args_of "restart" false) built_fs).
  cbn [In plugin_subcommand args_of].
  intros [H | [H | [H | [H | []]]]]; discriminate H.
Defined.

(** X2. Whenever a phase ends with [sys.exit], the status is 1 and the
    last thing the run did was to print a message on stderr: no phase
    exits silently or with another status. *)
Theorem exit_is_reported env nodes_include nodes_exclude args f c w' :
  process env nodes_include nodes_exclude args (init f) = (Exited c, w') ->
  c = 1 /\
  exists before last,
    trace w' = (before ++ [last])%list /\ exists msg, last = EvPrint Stderr msg.
Proof.
  destruct nodes_exclude as [|x excl].
  all: all_cases.
  all: finish_loops; try discriminate.
  all: try (exfalso; eapply Fx; reflexivity).
  all: match goal with
       | H : Exited _ = Exited _ |- _ => injection H as <-
       end.
  all: split; [reflexivity|].
  all: cbv beta iota delta [trace].
  all: split_last; eexists; reflexivity.
Qed.

(** X2 on a [clean] of a running experiment. *)
Lemma exit_is_reported_witness :
  1 = 1 /\
  exists before last,
    trace (snd locked_clean) = (before ++ [last])%list /\
    exists msg, last = EvPrint Stderr msg.
Proof.
  apply (exit_is_reported calm_env ["node-1"] [] (args_of "clean" false)
           running_fs 1 (snd locked_clean)).
  apply (computed_run locked_clean). vm_compute. reflexivity.
Defined.



(** X4. [build] and [stop] depend on neither node list and [start] does
    not depend on the excluded nodes: each is the same function of the
    world for any two values of them; [_do_stop] ignores its Node Set. *)
Theorem node_lists_unused env ni ne ni2 ne2 args w :
  (plugin_subcommand args = "build" ->
   process env ni ne args w = process env ni2 ne2 args w) /\
  (plugin_subcommand args = "stop" ->
   process env ni ne args w = process env ni2 ne2 args w) /\
  (plugin_subcommand args = "start" ->
   process env ni ne args w = process env ni ne2 args w) /\
  _do_stop env ni args w = _do_stop env ni2 args w.
Proof.
  unfold process.
  split; [intros ->; reflexivity|]. split; [intros ->; reflexivity|].
  split; [intros ->; reflexivity|]. reflexivity.
Qed.

(** X5. A [build] that passes the lock check (no lock, or [--force])
    makes one operation, the call of [build_configuration] with the
    arguments of the command line and the template package
    [letce2.plugins.docker], and touches no file. When the call returns,
    [build] ends normally and its last message gives the number of nodes
    returned, in decimal; when it raises, the exception is not caught and
    nothing follows the call. *)
Theorem build_outcome env args f r w' :
  f (lock_file args) = None \/ force args = true ->
  _do_build env args (init f) = (r, w') ->
  (forall q, fs w' q = f q) /\
  exists res,
    operations (trace w') =
      [DoLib (build_configuration (experiment_config args)
                (include_filter args) (exclude_filter args)
                (include_file args) (exclude_file args)
                (manifest args) "letce2.plugins.docker")] /\
    In (EvLib (build_configuration (experiment_config args)
                (include_filter args) (exclude_filter args)
                (include_file args) (exclude_file args)
                (manifest args) "letce2.plugins.docker") res) (trace w') /\
    match res with
    | LibReturned built =>
        r = Val tt /\
        exists count,
          last (trace w') (EvTime 0) =
            EvPrint Stdout ("✅ Built configuration for " ++ count ++ " nodes") /\
          option_map Nat.of_uint (NilZero.uint_of_string count)
            = Some (length built)
    | LibRaised text =>
        r = Raised (OtherError text) /\
        last (trace w') (EvTime 0) =
          EvLib (build_configuration (experiment_config args)
                   (include_filter args) (exclude_filter args)
                   (include_file args) (exclude_file args)
                   (manifest args) "letce2.plugins.docker") (LibRaised text)
    end.
Proof.
  intros Hlock.
  assert (Hgate : (is_some (f (lock_file args)) && negb (force args))%bool = false).
  { destruct Hlock as [-> | ->]; [reflexivity|]. apply andb_false_r. }
  apply andb_false_iff in Hgate.
  run_all; pair_inv.
  all: try (exfalso; destruct Hgate as [G|G]; cbn in G; congruence).
  all: cbv beta iota delta [fs trace]; split; [reflexivity|].
  all: eexists; split; [reflexivity|]; split; [find_event|].
  all: cbv beta iota; split; [reflexivity|].
  all: try reflexivity.
  all: eexists; split; [reflexivity|]; apply str_len_reads_back.
Qed.

(** X5 on a built experiment, with a builder that returns three nodes. *)
Lemma build_outcome_witness :
  (forall q, fs (snd calm_build) q = built_fs q) /\
  exists res,
    operations (trace (snd calm_build)) =
      [DoLib (build_configuration ["experiment.cfg"] "" "" "" "" "manifest"
                "letce2.plugins.docker")] /\
    In (EvLib (build_configuration ["experiment.cfg"] "" "" "" "" "manifest"
                 "letce2.plugins.docker") res) (trace (snd calm_build)) /\
    match res with
    | LibReturned built =>
        fst calm_build = Val tt /\
        exists count,
          last (trace (snd calm_build)) (EvTime 0) =
            EvPrint Stdout ("✅ Built configuration for " ++ count ++ " nodes") /\
          option_map Nat.of_uint (NilZero.uint_of_string count)
            = Some (length built)
    | LibRaised text =>
        fst calm_build = Raised (OtherError text) /\
        last (trace (snd calm_build)) (EvTime 0) =
          EvLib (build_configuration ["experiment.cfg"] "" "" "" "" "manifest"
                   "letce2.plugins.docker") (LibRaised text)
    end.
Proof.
  apply (build_outcome calm_env (args_of "build" false) built_fs
           (fst calm_build) (snd calm_build)).
  - left. reflexivity.
  - exact (surjective_pairing calm_build).
Defined.

(** X6. However a [start] ends, every path that existed before it still
    exists afterwards as the same kind of entry, and the run contains no
    [unlink] and no [rm] command; with [--force] an existing Lock Artifact
    is kept. *)
Theorem start_removes_nothing env nodes args f r w' :
  _do_start env nodes args (init f) = (r, w') ->
  (forall q, is_some (f q) = true -> fs w' q = f q) /\
  (forall p flt, ~ In (EvFs (Unlink p) flt) (trace w')) /\
  (forall p o, ~ In (EvRun (rm_rf p) o) (trace w')).
Proof.
  intros H. destruct (start_file_system _ _ _ _ _ _ H) as (G & _ & U).
  split; [exact G | exact U].
Qed.

(** X6 on a start in which everything succeeds. *)
Lemma start_removes_nothing_witness :
  (forall q, is_some (built_fs q) = true -> fs (snd calm_start) q = built_fs q) /\
  (forall p flt, ~ In (EvFs (Unlink p) flt) (trace (snd calm_start))) /\
  (forall p o, ~ In (EvRun (rm_rf p) o) (trace (snd calm_start))).
Proof.
  apply (start_removes_nothing calm_env ["host"; "node-1"; "node-2"]
           (args_of "start" false) built_fs (fst calm_start) (snd calm_start)).
  exact (surjective_pairing calm_start).
Defined.

(** X7. After a [start] that ends normally the Lock Artifact exists, the
    three workspace directories of every node exist (as directories where
    the path was free before), and the two log files of every node but
    [host] exist. *)
Theorem start_success_state env nodes args f w' :
  _do_start env nodes args (init f) = (Val tt, w') ->
  is_some (fs w' (lock_file args)) = true /\
  (forall node d, In node nodes -> In d (workspace_dirs node) ->
                  fs w' d = made_dir (f d)) /\
  (forall node, In node nodes -> not_host node = true ->
     is_some (fs w' ("./persist/" ++ node ++ "/var/log/init.log")) = true /\
     is_some (fs w' ("./persist/" ++ node ++ "/var/log/biz_init.log")) = true).
Proof.
  intros H. exact (proj1 (proj2 (start_file_system _ _ _ _ _ _ H)) eq_refl).
Qed.

(** X7 on a start in which everything succeeds. *)
Lemma start_success_state_witness :
  is_some (fs (snd calm_start) "/var/run/lock/letce.lock") = true /\
  (forall node d,
      In node ["host"; "node-1"; "node-2"] -> In d (workspace_dirs node) ->
      fs (snd calm_start) d = made_dir (built_fs d)) /\
  (forall node,
      In node ["host"; "node-1"; "node-2"] -> not_host node = true ->
      is_some (fs (snd calm_start)
                 ("./persist/" ++ node ++ "/var/log/init.log")) = true /\
      is_some (fs (snd calm_start)
                 ("./persist/" ++ node ++ "/var/log/biz_init.log")) = true).
Proof.
  apply (start_success_state calm_env ["host"; "node-1"; "node-2"]
           (args_of "start" false) built_fs (snd calm_start)).
  apply (computed_run calm_start). vm_compute. reflexivity.
Defined.

(** X8. The operations of a [start] that ends normally are, in this
    order: the three [mkdir]s of each node; [docker compose up]; the
    [mkdir] of the parent of the lock path, as [pathlib] computes it, and
    the [touch] of the lock; the clock reading; the host control pre-start
    step, the bridge, the scheduling constraint and the host control start
    step, the two host control steps with the working directory, the
    environment file and the instant; then, for each node but [host], the
    opening of a log file and the launch of an initializer, twice. The
    instant handed out is the rendering of that clock reading. *)
Theorem start_operations_in_order env nodes args f w' :
  _do_start env nodes args (init f) = (Val tt, w') ->
  exists now s,
    In (EvTime now) (trace w') /\
    start_utc_of now (scenario_delay args) = Some s /\
    operations (trace w') = start_ops env args s nodes.
Proof.
  start_cases.
  all: finish_loops; try discriminate.
  all: cbv beta iota delta [trace fs].
  all: destruct (Fs eq_refl) as (Fo & _ & Fd); destruct (Ls eq_refl) as [Lo Ld].
  all: eexists; eexists; split; [find_event|]; split; [eassumption|].
  all: count_ops; rewrite Lo, Fo; unfold start_ops, control;
    cbn [app]; rewrite <- ?app_assoc; reflexivity.
Qed.

(** X8 on a start in which everything succeeds. *)
Lemma start_operations_in_order_witness :
  exists now s,
    In (EvTime now) (trace (snd calm_start)) /\
    start_utc_of now 40 = Some s /\
    operations (trace (snd calm_start)) =
      start_ops calm_env (args_of "start" false) s ["host"; "node-1"; "node-2"].
Proof.
  apply (start_operations_in_order calm_env ["host"; "node-1"; "node-2"]
           (args_of "start" false) built_fs (snd calm_start)).
  apply (computed_run calm_start). vm_compute. reflexivity.
Defined.

(** The parent of a lock path, as [pathlib] computes it. *)
Example parent_examples :
  parent "/var/run/lock/letce.lock" = "/var/run/lock" /\
  parent "locks//letce.lock" = "locks" /\
  parent "locks/./letce.lock/" = "locks" /\
  parent "letce.lock" = "." /\
  parent "/letce.lock" = "/" /\
  parent "../letce.lock" = "..".
Proof. vm_compute. repeat split. Qed.

(** X9. [start] does not roll back: once the Lock Artifact has been
    created it exists when the run ends, however the run ends, and it is
    only created after a [docker compose up] that returned status 0. *)
Theorem start_never_rolls_back env nodes args f r w' :
  _do_start env nodes args (init f) = (r, w') ->
  In (EvFs (Touch (lock_file args)) None) (trace w') ->
  is_some (fs w' (lock_file args)) = true /\
  exists err, In (EvRun compose_up (Returned 0 err)) (trace w').
Proof.
  start_cases.
  all: finish_loops.
  all: cbv beta iota delta [trace fs].
  all: intros Hin.
  all: try (exfalso; crack_in Hin; try absurd_in Hin;
            apply EvFs_inv in Hin as [_ Hin]; discriminate Hin).
  all: clear Hin.
  all: repeat match goal with
         | Z0 : (?rc =? 0) = true |- _ => apply Z.eqb_eq in Z0; subst rc
         end.
  all: split;
    [first [ apply (grows_is_some _ _ _ Fg), create_file_self
           | no_effect; apply create_file_self ]|].
  all: eexists; unfold compose_up; find_event.
Qed.

(** X9 on a start whose bridge command cannot be launched. *)
Lemma start_never_rolls_back_witness :
  is_some (fs (snd start_without_bridge) "/var/run/lock/letce.lock") = true /\
  exists err,
    In (EvRun compose_up (Returned 0 err)) (trace (snd start_without_bridge)).
Proof.
  apply (start_never_rolls_back
           (env_with (unlaunchable 1 "host/bridge") (fun _ => Launched 0))
           ["host"; "node-1"] (args_of "start" false) built_fs
           (fst start_without_bridge) (snd start_without_bridge)).
  - exact (surjective_pairing start_without_bridge).
  - in_computed.
Defined.

(** X10. What the handlers of [_do_start] do see: a command that could
    not be launched ends the phase with status 1, after one message on
    stderr and with nothing done after it. *)
Theorem start_aborts_on_unlaunchable_command env nodes args f r w' argv text :
  _do_start env nodes args (init f) = (r, w') ->
  In (EvRun argv (SpawnFailed text)) (trace w') ->
  r = Exited 1 /\
  exists before msg,
    trace w' =
      (before ++ [EvRun argv (SpawnFailed text); EvPrint Stderr msg])%list.
Proof.
  start_cases.
  all: finish_loops.
  all: cbv beta iota delta [trace fs].
  all: intros Hin; crack_in Hin; try absurd_in Hin.
  all: apply EvRun_inv in Hin as [<- Hin]; try discriminate Hin.
  all: injection Hin as <-.
  all: split; [reflexivity|].
  all: match goal with
       | |- exists _ _, ?e :: (?x ++ [?a]) ++ [EvPrint Stderr ?m] = _ =>
           exists (e :: x), m; cbn [app]; rewrite <- app_assoc; reflexivity
       end.
Qed.

(** X10 on a start whose bridge command cannot be launched. *)
Lemma start_aborts_on_unlaunchable_command_witness :
  fst start_without_bridge = Exited 1 /\
  exists before msg,
    trace (snd start_without_bridge) =
      (before ++ [EvRun bridge_start
                    (SpawnFailed "[Errno 2] No such file or directory: 'sudo'");
                  EvPrint Stderr msg])%list.
Proof.
  apply (start_aborts_on_unlaunchable_command
           (env_with (unlaunchable 1 "host/bridge") (fun _ => Launched 0))
           ["host"; "node-1"] (args_of "start" false) built_fs
           (fst start_without_bridge) (snd start_without_bridge)).
  - exact (surjective_pairing start_without_bridge).
  - in_computed.
Defined.

(** X11. The start instant is defined exactly when the sum
    [now + scenario_delay] can be computed as a binary64 number and its
    whole second is representable, that is from the year -2147481748,
    whose offset from 1900 is the least C [int], to the year 2147483647,
    the greatest C [int] ([time.strftime] takes the year as a C [int]). *)
Theorem start_instant_defined now delay :
  is_some (start_utc_of now delay) = true <->
  exists x, float_sum now delay = Some x /\ representable (Qfloor x).
Proof. apply start_utc_of_defined. Qed.

(** The ends of the range. The last seconds of the year 2147483647 are
    rendered as long as the sum, a multiple of 8 at that magnitude, stays
    below the first second of the next year; the first second of the year
    -2147481748 is rendered, also for the sums that round to it; a sum
    that overflows binary64 is not rendered. *)
Example start_instant_range :
  start_utc_of 0 67767976233532795
    = Some "Tue, 31 Dec 2147483647 23:59:52 +0000" /\
  start_utc_of 0 67767976233532796 = None /\
  start_utc_of 0 67767976233532800 = None /\
  start_utc_of 0 (-67768040609740800)
    = Some "Thu, 01 Jan -2147481748 00:00:00 +0000" /\
  start_utc_of 0 (-67768040609740804)
    = Some "Thu, 01 Jan -2147481748 00:00:00 +0000" /\
  start_utc_of 0 (-67768040609740808) = None /\
  start_utc_of 0 (2 ^ 1024) = None.
Proof. vm_compute. repeat split. Qed.

(** X12. When the start instant cannot be computed (the sum overflows,
    or its year is out of the range of [time.gmtime] and
    [time.strftime]), [start] ends with an uncaught exception right after
    reading the clock: the containers are up and the Lock Artifact has
    been created and is left in place, and no host step and no
    initializer is run. *)
Theorem start_instant_out_of_range env nodes args f r w' now :
  _do_start env nodes args (init f) = (r, w') ->
  In (EvTime now) (trace w') ->
  start_utc_of now (scenario_delay args) = None ->
  (exists text, r = Raised (OtherError text)) /\
  (exists err, In (EvRun compose_up (Returned 0 err)) (trace w')) /\
  In (EvFs (Touch (lock_file args)) None) (trace w') /\
  is_some (fs w' (lock_file args)) = true /\
  exists before, trace w' = (before ++ [EvTime now])%list.
Proof.
  start_cases.
  all: finish_loops.
  all: cbv beta iota delta [trace fs].
  all: intros Hin Hnone; crack_in Hin; try absurd_in Hin.
  all: apply EvTime_inv in Hin; subst now.
  all: try match goal with
           | A : start_utc_of ?n ?d = Some _, B : start_utc_of ?n ?d = None |- _ =>
               rewrite B in A; discriminate A
           end.
  all: split; [eexists; reflexivity|].
  all: match goal with
       | Z0 : (?rc =? 0) = true |- _ => apply Z.eqb_eq in Z0; subst rc
       end.
  all: split; [eexists; unfold compose_up; find_event|].
  all: split; [find_event|].
  all: split; [apply create_file_self|].
  all: match goal with
       | |- exists _, ?e :: (?x ++ [?a]) = _ => exists (e :: x); reflexivity
       end.
Qed.

(** X12 on a start with a scenario delay of 10^17 seconds. *)
Lemma start_instant_out_of_range_witness :
  (exists text, fst late_start = Raised (OtherError text)) /\
  (exists err, In (EvRun compose_up (Returned 0 err)) (trace (snd late_start))) /\
  In (EvFs (Touch "/var/run/lock/letce.lock") None) (trace (snd late_start)) /\
  is_some (fs (snd late_start) "/var/run/lock/letce.lock") = true /\
  exists before, trace (snd late_start) = (before ++ [EvTime (1727876660 # 1)%Q])%list.
Proof.
  apply (start_instant_out_of_range calm_env ["host"; "node-1"]
           (with_scenario_delay 100000000000000000 (args_of "start" false))
           built_fs (fst late_start) (snd late_start) (1727876660 # 1)%Q).
  - exact (surjective_pairing late_start).
  - in_computed.
  - vm_compute. reflexivity.
Defined.

(** X13. A start instant consists of letters, digits, spaces, commas,
    colons and signs only. It contains no single quote, so that the
    command line of an initializer has the four quotes of its format
    string besides those of the node name and of the script. *)
Theorem start_instant_characters now delay s :
  start_utc_of now delay = Some s ->
  all_chars instant_char s = true /\
  forall script node,
    quotes (init_command script node s) =
      (2 * quotes node + quotes script + 4)%nat.
Proof.
  unfold start_utc_of, time_gmtime, time_strftime. intros H.
  destruct (float_sum now delay) as [x|]; [|discriminate].
  destruct (gmtime_seconds (Qfloor x)) as [tm|] eqn:G; [|discriminate].
  destruct (_ && _)%bool; [|discriminate].
  apply Some_inv in H.
  apply gmtime_seconds_valid in G as (Hm & Hd & Hh & Hmi & Hs & Hw).
  assert (A : all_chars instant_char s = true).
  { rewrite <- H. fold rfc2822_format. rewrite strftime_rfc2822.
    rewrite !all_chars_app, !pad2_chars by lia.
    rewrite year_chars.
    rewrite (name_chars day_names) by (cbn; first [reflexivity | lia]).
    rewrite (name_chars month_names) by (cbn; first [reflexivity | lia]).
    reflexivity. }
  clear H. split; [exact A|]. intros script node.
  cbv beta zeta delta [init_command]. rewrite !quotes_app.
  rewrite (instant_chars_no_quote _ A). cbn. lia.
Qed.

(** X13 on the instant of the example. *)
Lemma start_instant_characters_witness :
  all_chars instant_char "Wed, 02 Oct 2024 13:45:00 +0000" = true /\
  forall script node,
    quotes (init_command script node "Wed, 02 Oct 2024 13:45:00 +0000") =
      (2 * quotes node + quotes script + 4)%nat.
Proof.
  apply (start_instant_characters (1727876660 # 1)%Q 40
           "Wed, 02 Oct 2024 13:45:00 +0000").
  vm_compute. reflexivity.
Defined.



(** X15. The only file operation of a [stop] is the [unlink] of the
    Lock Artifact, and its only commands are [docker compose down], the
    host control stop step and the restoration of the scheduling
    constraint: whatever happens, the file system is as before but for
    the Lock Artifact, which may be gone, under each name that reaches
    it. Workspaces are never removed by [stop]. *)
Theorem stop_touches_only_lock env nodes args f r w' :
  _do_stop env nodes args (init f) = (r, w') ->
  (forall op flt, In (EvFs op flt) (trace w') -> op = Unlink (lock_file args)) /\
  (forall argv o, In (EvRun argv o) (trace w') ->
     In argv [compose_down; control env "stop" [] args; restore_rt]) /\
  (forall q, fs w' q = f q \/
             (same_path (getcwd env) q (lock_file args) = true /\
              fs w' q = None)).
Proof.
  run_all; pair_inv.
  all: cbv beta iota delta [fs trace].
  all: split;
    [intros op flt H; crack_in H; try discriminate H;
     apply EvFs_inv in H as [<- _]; reflexivity|].
  all: split;
    [intros argv o H; crack_in H; try discriminate H;
     apply EvRun_inv in H as [<- _];
     first [ left; reflexivity
           | right; left; reflexivity
           | right; right; left; reflexivity ]|].
  all: intros q; no_effect.
  all: try (left; reflexivity).
  all: unfold remove_file;
    destruct (same_path (getcwd env) q (lock_file args));
    [right; split; reflexivity | left; reflexivity].
Qed.

(** X15 on a stop in which everything succeeds. *)
Lemma stop_touches_only_lock_witness :
  (forall op flt, In (EvFs op flt) (trace (snd calm_stop)) ->
                  op = Unlink "/var/run/lock/letce.lock") /\
  (forall argv o, In (EvRun argv o) (trace (snd calm_stop)) ->
     In argv [compose_down; control calm_env "stop" [] (args_of "stop" false);
              restore_rt]) /\
  (forall q, fs (snd calm_stop) q = running_fs q \/
             (same_path "/home/letce/exp-01" q "/var/run/lock/letce.lock" = true /\
              fs (snd calm_stop) q = None)).
Proof.
  apply (stop_touches_only_lock calm_env ["host"; "node-1"]
           (args_of "stop" false) running_fs (fst calm_stop) (snd calm_stop)).
  exact (surjective_pairing calm_stop).
Defined.

(** X16. A [stop] without a Lock Artifact performs no file operation at
    all, so that the release of the lock cannot fail, and leaves the file
    system as it was. *)
Theorem stop_without_lock env nodes args f r w' :
  f (lock_file args) = None ->
  _do_stop env nodes args (init f) = (r, w') ->
  (forall op flt, ~ In (EvFs op flt) (trace w')) /\
  (forall q, fs w' q = f q).
Proof.
  intros Hlock. run_all; pair_inv.
  all: repeat match goal with
         | H : context [command_effect _ _ _ _] |- _ =>
             rewrite command_effect_docker in H
         end.
  all: try (rewrite Hlock in *; discriminate).
  all: cbv beta iota delta [fs trace]; split;
    [intros op flt H; crack_in H; discriminate H
    |intros q; no_effect; reflexivity].
Qed.

(** X16 on an experiment that is already stopped. *)
Lemma stop_without_lock_witness :
  (forall op flt, ~ In (EvFs op flt) (trace (snd stop_again))) /\
  (forall q, fs (snd stop_again) q = stopped_fs q).
Proof.
  apply (stop_without_lock calm_env ["host"; "node-1"] (args_of "stop" false)
           stopped_fs (fst stop_again) (snd stop_again)).
  - reflexivity.
  - exact (surjective_pairing stop_again).
Defined.

(** X17. A [stop] without [--force] whose group definition artifact is
    missing or whose [docker compose down] does not succeed, and any
    [stop] whose [docker compose down] cannot be launched, exits with
    status 1 after a message on stderr: the host control stop step and
    the restoration of the scheduling constraint are not run, and the
    file system, the Lock Artifact included, is left as it was. *)
Theorem stop_fatal_failures env nodes args f r w' :
  _do_stop env nodes args (init f) = (r, w') ->
  (force args = false /\
   (f compose_path = None \/
    exists o, In (EvRun compose_down o) (trace w') /\ succeeded o = false)) \/
  (exists text, In (EvRun compose_down (SpawnFailed text)) (trace w')) ->
  r = Exited 1 /\
  (forall q, fs w' q = f q) /\
  (forall argv o, In (EvRun argv o) (trace w') -> argv = compose_down) /\
  exists before msg, trace w' = (before ++ [EvPrint Stderr msg])%list.
Proof.
  run_all; pair_inv.
  all: cbv beta iota delta [fs trace].
  all: intros [[Hf [Hc | (o & Hin & Ho)]] | (text' & Hin)].
  all: try (rewrite Hf in *; discriminate).
  all: try (rewrite Hc in *; discriminate).
  all: try (crack_in Hin; discriminate Hin).
  all: try (crack_in Hin; try discriminate Hin;
            apply EvRun_inv in Hin as [_ <-];
            match goal with
            | Z0 : (?rc =? 0) = true |- _ => apply Z.eqb_eq in Z0; subst rc
            end; discriminate Ho).
  all: split; [reflexivity|].
  all: split; [intros q; no_effect; reflexivity|].
  all: split; [intros argv o' H; crack_in H; try discriminate H;
               apply EvRun_inv in H as [<- _]; reflexivity|].
  all: eexists; eexists; 
    first [ exact (eq_refl : [_; _] = ([_] ++ [_])%list)
          | exact (eq_refl : [_; _; _] = ([_; _] ++ [_])%list)
          | exact (eq_refl : [_; _; _; _] = ([_; _; _] ++ [_])%list)
          | exact (eq_refl : [_; _; _; _; _] = ([_; _; _; _] ++ [_])%list)
          | exact (eq_refl : [_; _; _; _; _; _] = ([_; _; _; _; _] ++ [_])%list) ].
Qed.

(** X17 on a stop whose [docker compose down] ends with status 1. *)
Lemma stop_fatal_failures_witness :
  fst failed_stop = Exited 1 /\
  (forall q, fs (snd failed_stop) q = running_fs q) /\
  (forall argv o, In (EvRun argv o) (trace (snd failed_stop)) ->
                  argv = compose_down) /\
  exists before msg, trace (snd failed_stop) = (before ++ [EvPrint Stderr msg])%list.
Proof.
  apply (stop_fatal_failures
           (env_with (failing 4 "down") (fun _ => Launched 0))
           ["host"; "node-1"] (args_of "stop" false) running_fs
           (fst failed_stop) (snd failed_stop)).
  - exact (surjective_pairing failed_stop).
  - left. split; [reflexivity|]. right.
    exists (Returned 1 "exit status 1"). split; [in_computed | reflexivity].
Defined.

(** X18. After a [stop] whose [docker compose down] returned status 0
    the Lock Artifact is absent, unless its [unlink] raised: then [stop]
    exits with status 1 and the file system is as before. *)
Theorem stop_releases_lock env nodes args f r w' err :
  _do_stop env nodes args (init f) = (r, w') ->
  In (EvRun compose_down (Returned 0 err)) (trace w') ->
  fs w' (lock_file args) = None \/
  (exists text,
      In (EvFs (Unlink (lock_file args)) (Some text)) (trace w') /\
      r = Exited 1 /\ forall q, fs w' q = f q).
Proof.
  run_all; pair_inv.
  all: cbv beta iota delta [fs trace].
  all: intros Hin.
  all: repeat match goal with
         | H : context [command_effect _ _ _ _] |- _ =>
             rewrite command_effect_docker in H
         end.
  all: try (crack_in Hin; discriminate Hin).
  all: try (crack_in Hin; try discriminate Hin;
            apply EvRun_inv in Hin as [_ Hin];
            apply Returned_inv in Hin as [-> _]; discriminate).
  all: no_effect.
  all: first
    [ left; unfold remove_file; rewrite same_path_refl; reflexivity
    | left; destruct (f (lock_file args)); [discriminate | reflexivity]
    | right; eexists; split; [find_event|]; split; [reflexivity|];
      intros q; reflexivity ].
Qed.

(** X18 on a stop in which everything succeeds. *)
Lemma stop_releases_lock_witness :
  fs (snd calm_stop) "/var/run/lock/letce.lock" = None \/
  (exists text,
      In (EvFs (Unlink "/var/run/lock/letce.lock") (Some text))
         (trace (snd calm_stop)) /\
      fst calm_stop = Exited 1 /\
      forall q, fs (snd calm_stop) q = running_fs q).
Proof.
  apply (stop_releases_lock calm_env ["host"; "node-1"] (args_of "stop" false)
           running_fs (fst calm_stop) (snd calm_stop) "").
  - exact (surjective_pairing calm_stop).
  - in_computed.
Defined.

(** X19. A [stop] that ends normally with a successful
    [docker compose down], run on the file system a [start] that ended
    normally left behind and with the same lock file, unlinks the Lock
    Artifact and changes nothing else: every path that does not reach the
    Lock Artifact is as the start left it, and the workspaces stay. *)
Theorem start_then_stop env nodes args f w1 env2 nodes2 args2 w2 err :
  _do_start env nodes args (init f) = (Val tt, w1) ->
  lock_file args2 = lock_file args ->
  _do_stop env2 nodes2 args2 (init (fs w1)) = (Val tt, w2) ->
  In (EvRun compose_down (Returned 0 err)) (trace w2) ->
  In (EvFs (Unlink (lock_file args)) None) (trace w2) /\
  fs w2 (lock_file args) = None /\
  forall q, same_path (getcwd env2) q (lock_file args) = false ->
            fs w2 q = fs w1 q.
Proof.
  intros Hstart Hlock.
  destruct (start_file_system _ _ _ _ _ _ Hstart) as (_ & S & _).
  destruct (S eq_refl) as [L _]. clear S Hstart. rewrite <- Hlock in *.
  destruct w1 as [f1 t1]. cbv beta iota delta [fs] in L |- *.
  run_all; pair_inv; try discriminate.
  all: cbv beta iota delta [fs trace].
  all: intros Hin.
  all: repeat match goal with
         | H : context [command_effect _ _ _ _] |- _ =>
             rewrite command_effect_docker in H
         end.
  all: try (rewrite L in *; discriminate).
  all: try (exfalso; crack_in Hin; try discriminate Hin;
            apply EvRun_inv in Hin as [_ Hin];
            apply Returned_inv in Hin as [-> _]; discriminate).
  all: split; [find_event|].
  all: no_effect; unfold remove_file.
  all: split; [now rewrite same_path_refl|].
  all: intros q Hq; now rewrite Hq.
Qed.

(** X19 on a start and a stop in which everything succeeds. *)
Lemma start_then_stop_witness :
  In (EvFs (Unlink "/var/run/lock/letce.lock") None)
     (trace (snd stop_after_start)) /\
  fs (snd stop_after_start) "/var/run/lock/letce.lock" = None /\
  forall q, same_path "/home/letce/exp-01" q "/var/run/lock/letce.lock" = false ->
            fs (snd stop_after_start) q = fs (snd calm_start) q.
Proof.
  apply (start_then_stop calm_env ["host"; "node-1"; "node-2"]
           (args_of "start" false) built_fs (snd calm_start) calm_env
           ["host"; "node-1"; "node-2"] (args_of "stop" false)
           (snd stop_after_start) "").
  - apply (computed_run calm_start). vm_compute. reflexivity.
  - reflexivity.
  - apply (computed_run stop_after_start). vm_compute. reflexivity.
  - in_computed.
Defined.

(** X20. Every command a [clean] runs is [sudo rm -rf] on a path that
    was a directory before the run: [persist] when nothing is excluded,
    the workspace [persist/n] of an included node [n] otherwise. *)
Theorem clean_commands_scope env nodes_include nodes_exclude args f r w' :
  _do_clean env nodes_include nodes_exclude args (init f) = (r, w') ->
  forall argv o, In (EvRun argv o) (trace w') ->
    exists p,
      argv = rm_rf p /\ is_dir_kind (f p) = true /\
      match nodes_exclude with
      | [] => p = "persist"
      | _ :: _ => exists n, In n nodes_include /\ p = "persist/" ++ n
      end.
Proof.
  destruct nodes_exclude as [|x excl].
  - run_all; pair_inv.
    all: cbv beta iota delta [trace]; intros argv o Hin; crack_in Hin;
      try discriminate Hin.
    all: apply EvRun_inv in Hin as [<- _].
    all: exists "persist"; split; [reflexivity|]; split; [assumption|reflexivity].
  - clean_cases.
    all: pair_inv.
    all: cbv beta iota delta [trace]; intros argv o Hin; crack_in Hin;
      try discriminate Hin.
    all: destruct (removal_segment _ _ _ _ Ce Hin) as (n & o' & Hn & D & E').
    all: apply EvRun_inv in E' as [-> _].
    all: exists ("persist/" ++ n); split; [reflexivity|]; split; [exact D|].
    all: exists n; split; [exact Hn | reflexivity].
Qed.

(** X20 on the removal command of the partial clean. *)
Lemma clean_commands_scope_witness :
  exists p,
    rm_rf "persist/node-1" = rm_rf p /\ is_dir_kind (stopped_fs p) = true /\
    exists n, In n ["node-1"] /\ p = "persist/" ++ n.
Proof.
  apply (clean_commands_scope calm_env ["node-1"] ["node-2"]
           (args_of "clean" false) stopped_fs (fst partial_clean)
           (snd partial_clean) (surjective_pairing partial_clean)
           (rm_rf "persist/node-1") (Returned 0 "")).
  in_computed.
Defined.

(** X21. Whatever the removal commands answer and however it ends, a
    [clean] creates nothing and changes no entry: every path is as
    before, or it is gone and it reaches, under whatever name, the tree
    of [persist] (nothing excluded) or the workspace of an included node
    (otherwise). With node identifiers that are plain directory names,
    whatever is gone was in the tree of [persist]. *)
Theorem clean_only_removes_below_persist env nodes_include nodes_exclude args f r w' :
  _do_clean env nodes_include nodes_exclude args (init f) = (r, w') ->
  only_removes (getcwd env)
    (match nodes_exclude with
     | [] => ["persist"]
     | _ :: _ => workspaces nodes_include
     end) f (fs w') /\
  (forallb plain_name nodes_include = true ->
   forall q, fs w' q = f q \/
             (fs w' q = None /\ in_tree (getcwd env) "persist" q = true)).
Proof.
  intros Hrun.
  assert (A : only_removes (getcwd env)
                (match nodes_exclude with
                 | [] => ["persist"]
                 | _ :: _ => workspaces nodes_include
                 end) f (fs w')).
  { revert Hrun. destruct nodes_exclude as [|x excl].
    - run_all; pair_inv.
      all: cbv beta iota delta [fs]; intros q.
      all: first [ left; reflexivity
                 | apply (only_removes_rm (getcwd env) "persist" [] _ f q) ].
    - clean_cases.
      all: pair_inv.
      all: cbv beta iota delta [fs]; intros q;
        first [left; reflexivity | apply Ca]. }
  split; [exact A|]. intros Hp q.
  destruct (A q) as [E | [E P]]; [now left | right]. split; [exact E|].
  destruct nodes_exclude as [|x excl].
  - cbn [existsb] in P. now rewrite orb_false_r in P.
  - unfold workspaces in P. apply existsb_exists in P as (p & Hin & T).
    apply in_map_iff in Hin as (n & <- & Hn).
    rewrite forallb_forall in Hp.
    exact (in_tree_trans _ _ _ _ (workspace_in_persist _ n (Hp n Hn)) T).
Qed.

(** X21 on the partial clean. *)
Lemma clean_only_removes_below_persist_witness :
  only_removes "/home/letce/exp-01" (workspaces ["node-1"]) stopped_fs
    (fs (snd partial_clean)) /\
  (forallb plain_name ["node-1"] = true ->
   forall q, fs (snd partial_clean) q = stopped_fs q \/
             (fs (snd partial_clean) q = None /\
              in_tree "/home/letce/exp-01" "persist" q = true)).
Proof.
  apply (clean_only_removes_below_persist calm_env ["node-1"] ["node-2"]
           (args_of "clean" false) stopped_fs (fst partial_clean)
           (snd partial_clean) (surjective_pairing partial_clean)).
Defined.

(** X22. [clean_configuration] is called with the included nodes and
    the manifest; when it raises, [clean] reports the cause on stderr
    ([Clean failed: ...]) and exits with status 1, with nothing in
    between. *)
Theorem clean_reports_builder_failure env nodes_include nodes_exclude args f r w'
  l m text :
  _do_clean env nodes_include nodes_exclude args (init f) = (r, w') ->
  In (EvLib (clean_configuration l m) (LibRaised text)) (trace w') ->
  clean_configuration l m = clean_configuration nodes_include (manifest args) /\
  r = Exited 1 /\
  exists before,
    trace w' =
      (before ++ [EvLib (clean_configuration l m) (LibRaised text);
                  EvPrint Stderr ("❌ Clean failed: " ++ text)])%list.
Proof.
  intros Hrun Hin.
  exact (clean_library_failures _ _ _ _ _ _ _ _ _ Hrun Hin).
Qed.

(** X22 on a clean whose [clean_configuration] is refused. *)
Lemma clean_reports_builder_failure_witness :
  clean_configuration ["node-1"] "manifest"
    = clean_configuration ["node-1"] "manifest" /\
  fst clean_with_failing_builder = Exited 1 /\
  exists before,
    trace (snd clean_with_failing_builder) =
      (before ++ [EvLib (clean_configuration ["node-1"] "manifest")
                    (LibRaised "[Errno 13] Permission denied");
                  EvPrint Stderr
                    ("❌ Clean failed: " ++ "[Errno 13] Permission denied")])%list.
Proof.
  apply (clean_reports_builder_failure
           (env_with_builder clean_configuration_fails) ["node-1"] []
           (args_of "clean" false) stopped_fs
           (fst clean_with_failing_builder) (snd clean_with_failing_builder)
           ["node-1"] "manifest" "[Errno 13] Permission denied").
  - exact (surjective_pairing clean_with_failing_builder).
  - in_computed.
Defined.

(** X23. [nodes_to_manifest] is called with the excluded nodes and the
    manifest, outside the [try]: when it raises, the exception is not
    caught, nothing follows the call and [clean_configuration] is never
    called. *)
Theorem clean_manifest_failure_uncaught env nodes_include nodes_exclude args f r w'
  l m text :
  _do_clean env nodes_include nodes_exclude args (init f) = (r, w') ->
  In (EvLib (nodes_to_manifest l m) (LibRaised text)) (trace w') ->
  nodes_to_manifest l m = nodes_to_manifest nodes_exclude (manifest args) /\
  r = Raised (OtherError text) /\
  (exists before,
     trace w' = (before ++ [EvLib (nodes_to_manifest l m) (LibRaised text)])%list) /\
  forall l' m' o, ~ In (EvLib (clean_configuration l' m') o) (trace w').
Proof.
  intros Hrun Hin.
  exact (clean_library_failures _ _ _ _ _ _ _ _ _ Hrun Hin).
Qed.

(** X23 on a partial clean whose [nodes_to_manifest] is refused. *)
Lemma clean_manifest_failure_uncaught_witness :
  nodes_to_manifest ["node-2"] "manifest"
    = nodes_to_manifest ["node-2"] "manifest" /\
  fst clean_with_failing_manifest
    = Raised (OtherError "[Errno 13] Permission denied") /\
  (exists before,
     trace (snd clean_with_failing_manifest) =
       (before ++ [EvLib (nodes_to_manifest ["node-2"] "manifest")
                     (LibRaised "[Errno 13] Permission denied")])%list) /\
  forall l' m' o,
    ~ In (EvLib (clean_configuration l' m') o)
         (trace (snd clean_with_failing_manifest)).
Proof.
  apply (clean_manifest_failure_uncaught
           (env_with_builder nodes_to_manifest_fails) ["node-1"] ["node-2"]
           (args_of "clean" false) stopped_fs
           (fst clean_with_failing_manifest) (snd clean_with_failing_manifest)
           ["node-2"] "manifest" "[Errno 13] Permission denied").
  - exact (surjective_pairing clean_with_failing_manifest).
  - in_computed.
Defined.
